(** * wonambi.ioeeg.edf : reader and writer of EDF recordings

    A shallow embedding of [src/wonambi/ioeeg/edf.py] (class [Edf] and
    function [write_edf]) together with the properties stated about it.

    Conventions of the embedding.
    - A file is the list of its bytes; an open handle is that list and a
      position.
    - Python exceptions are values of [exn]; a computation that may raise
      returns a [result].
    - float64 quantities are idealised as rationals ([Q]): rounding of
      float arithmetic is not modelled.  The NaN used to pre-fill the
      output matrix is the [None] of an [option].
    - Channel indices are natural numbers, so the negative indices that
      Python would wrap around are not inputs of the model. *)

From Stdlib Require Import String Ascii Strings.Byte.
From Stdlib Require Import DecimalString.
From Stdlib Require Import ZArith QArith Qround Qabs List Bool Lia.
From Stdlib Require Import Lqa DecimalPos DecimalZ.
Import ListNotations.

Local Open Scope Z_scope.

(* ================================================================== *)
(** * Python runtime                                                    *)
(* ================================================================== *)

Module Py.

Inductive exn : Set :=
| AssertionError
| AttributeError
| ValueError
| IndexError
| OverflowError
| ZeroDivisionError
| OSError
| UnicodeDecodeError
| UnicodeEncodeError
| StructError.

Inductive result (A : Type) : Type :=
| Ok (a : A)
| Raise (e : exn).
Arguments Ok {A} a.
Arguments Raise {A} e.

Definition bind {A B} (r : result A) (k : A -> result B) : result B :=
  match r with
  | Ok a => k a
  | Raise e => Raise e
  end.

(** [assert c] *)
Definition assert (c : bool) : result unit :=
  if c then Ok tt else Raise AssertionError.

(** A list comprehension whose body may raise. *)
Fixpoint mapM {A B} (f : A -> result B) (l : list A) : result (list B) :=
  match l with
  | [] => Ok []
  | a :: l' =>
      match f a with
      | Ok b => match mapM f l' with
                | Ok bs => Ok (b :: bs)
                | Raise e => Raise e
                end
      | Raise e => Raise e
      end
  end.

Definition bytes := list byte.

Definition code (b : byte) : Z := Z.of_N (Byte.to_N b).

Definition bytes_of_string (s : string) : bytes := list_byte_of_string s.

Definition bytes_eqb (a b : bytes) : bool :=
  if list_eq_dec Byte.byte_eq_dec a b then true else false.

(** ASCII white space, as stripped by [int()] and [float()] on bytes. *)
Definition is_space (b : byte) : bool :=
  let c := code b in (c =? 32) || ((9 <=? c) && (c <=? 13)).

Definition is_digit (b : byte) : bool :=
  let c := code b in (48 <=? c) && (c <=? 57).

Definition digit_val (b : byte) : Z := code b - 48.

Fixpoint lstrip (l : bytes) : bytes :=
  match l with
  | b :: l' => if is_space b then lstrip l' else l
  | [] => []
  end.

Definition strip (l : bytes) : bytes := rev (lstrip (rev (lstrip l))).

(** Digits of a numeric literal: one or more decimal digits, single
    underscores allowed between two digits.  [acc] is the value so far,
    [n] the number of digits read, [prev] tells whether the previous
    character was a digit.  Returns value, digit count, and the rest. *)
Fixpoint digits_loop (l : bytes) (acc : Z) (n : nat) (prev : bool)
  : Z * nat * bytes :=
  match l with
  | b :: l' =>
      if is_digit b then digits_loop l' (10 * acc + digit_val b) (S n) true
      else if (code b =? 95) && prev then
        match l' with
        | d :: _ => if is_digit d then digits_loop l' acc n false
                    else (acc, n, l)
        | [] => (acc, n, l)
        end
      else (acc, n, l)
  | [] => (acc, n, l)
  end.

Definition digits (l : bytes) : Z * nat * bytes := digits_loop l 0 0%nat false.

Definition sign (l : bytes) : bool * bytes :=
  match l with
  | b :: l' => if code b =? 45 then (true, l')
               else if code b =? 43 then (false, l')
               else (false, l)
  | [] => (false, l)
  end.

(** [int(b)] for a bytes object, base 10. *)
Definition int (b : bytes) : result Z :=
  let '(neg, r) := sign (strip b) in
  match digits r with
  | (_, O, _) => Raise ValueError
  | (v, _, []) => Ok (if neg then - v else v)
  | (_, _, _ :: _) => Raise ValueError
  end.

(** [float(b)] for a bytes object holding a decimal literal
    [[sign] digits [. digits] [e [sign] digits]].  The literals [inf],
    [infinity] and [nan] have no rational value and are rejected. *)
Definition float (b : bytes) : result Q :=
  let '(neg, r) := sign (strip b) in
  let '(ip, ni, r1) := digits r in
  let '(fp, nf, r2) :=
    match r1 with
    | d :: r1' => if code d =? 46 then digits r1' else (0, O, r1)
    | [] => (0, O, r1)
    end in
  match (ni + nf)%nat with
  | O => Raise ValueError
  | _ =>
      let mant := (inject_Z ip + inject_Z fp / inject_Z (10 ^ Z.of_nat nf))%Q in
      let finish (e : Z) : result Q :=
        let v := (mant * Qpower 10 e)%Q in
        Ok (if neg then Qopp v else v) in
      match r2 with
      | [] => finish 0
      | c :: r3 =>
          if (code c =? 101) || (code c =? 69) then
            let '(eneg, r4) := sign r3 in
            match digits r4 with
            | (_, O, _) => Raise ValueError
            | (e, _, []) => finish (if eneg then - e else e)
            | (_, _, _ :: _) => Raise ValueError
            end
          else Raise ValueError
      end
  end.


End Py.

(* ================================================================== *)
(** * Text: UTF-8 decoding, [str.strip], [re.findall], [datetime]      *)
(* ================================================================== *)

Module Text.
Import Py.

(** A [str] is the list of its code points. *)
Definition str := list Z.

Definition is_cont (b : byte) : bool :=
  let c := code b in (128 <=? c) && (c <=? 191).

Definition in_range (lo hi : Z) (b : byte) : bool :=
  let c := code b in (lo <=? c) && (c <=? hi).

(** [bytes.decode('utf-8')] in strict mode: well-formed sequences only
    (no overlong forms, no surrogates, nothing above U+10FFFF). *)
Fixpoint decode_utf8 (l : bytes) : result str :=
  match l with
  | [] => Ok []
  | b0 :: t0 =>
      let c0 := code b0 in
      if c0 <? 128 then
        bind (decode_utf8 t0) (fun s => Ok (c0 :: s))
      else if in_range 194 223 b0 then
        match t0 with
        | b1 :: t1 =>
            if is_cont b1 then
              bind (decode_utf8 t1)
                   (fun s => Ok (((c0 - 192) * 64 + (code b1 - 128)) :: s))
            else Raise UnicodeDecodeError
        | _ => Raise UnicodeDecodeError
        end
      else if in_range 224 239 b0 then
        match t0 with
        | b1 :: b2 :: t2 =>
            let lo := if c0 =? 224 then 160 else 128 in
            let hi := if c0 =? 237 then 159 else 191 in
            if in_range lo hi b1 && is_cont b2 then
              bind (decode_utf8 t2)
                   (fun s => Ok (((c0 - 224) * 4096 + (code b1 - 128) * 64
                                  + (code b2 - 128)) :: s))
            else Raise UnicodeDecodeError
        | _ => Raise UnicodeDecodeError
        end
      else if in_range 240 244 b0 then
        match t0 with
        | b1 :: b2 :: b3 :: t3 =>
            let lo := if c0 =? 240 then 144 else 128 in
            let hi := if c0 =? 244 then 143 else 191 in
            if in_range lo hi b1 && is_cont b2 && is_cont b3 then
              bind (decode_utf8 t3)
                   (fun s => Ok (((c0 - 240) * 262144 + (code b1 - 128) * 4096
                                  + (code b2 - 128) * 64 + (code b3 - 128)) :: s))
            else Raise UnicodeDecodeError
        | _ => Raise UnicodeDecodeError
        end
      else Raise UnicodeDecodeError
  end.

(** Code points for which [str.isspace] holds. *)
Definition isspace (c : Z) : bool :=
  ((9 <=? c) && (c <=? 13)) || ((28 <=? c) && (c <=? 32))
  || (c =? 133) || (c =? 160) || (c =? 5760)
  || ((8192 <=? c) && (c <=? 8202))
  || (c =? 8232) || (c =? 8233) || (c =? 8239) || (c =? 8287) || (c =? 12288).

Fixpoint lstrip (s : str) : str :=
  match s with
  | c :: s' => if isspace c then lstrip s' else s
  | [] => []
  end.

(** [s.strip()] *)
Definition strip (s : str) : str := rev (lstrip (rev (lstrip s))).

Definition isdigit (c : Z) : bool := (48 <=? c) && (c <=? 57).

(** [[int(x) for x in findall('(\d+)', s)]]: the values of the maximal
    runs of decimal digits of [s], left to right.  [cur] is the run being
    read, if any.  Only the ASCII digits are taken for [\d]. *)
Fixpoint findall_ints (s : str) (cur : option Z) : list Z :=
  match s with
  | [] => match cur with Some v => [v] | None => [] end
  | c :: s' =>
      if isdigit c then
        findall_ints s' (Some (10 * (match cur with Some v => v | None => 0 end)
                               + (c - 48)))
      else
        match cur with
        | Some v => v :: findall_ints s' None
        | None => findall_ints s' None
        end
  end.

Record datetime : Set := mk_datetime {
  year : Z; month : Z; day : Z; hour : Z; minute : Z; second : Z
}.

Definition is_leap (y : Z) : bool :=
  ((y mod 4 =? 0) && negb (y mod 100 =? 0)) || (y mod 400 =? 0).

Definition days_in_month (y m : Z) : Z :=
  if m =? 2 then (if is_leap y then 29 else 28)
  else if (m =? 4) || (m =? 6) || (m =? 9) || (m =? 11) then 30
  else 31.

(** The constructor [datetime(year, month, day, hour, minute, second)],
    which raises [ValueError] on a field out of range. *)
Definition new_datetime (y m d hh mm ss : Z) : result datetime :=
  if (1 <=? y) && (y <=? 9999) && (1 <=? m) && (m <=? 12)
     && (1 <=? d) && (d <=? days_in_month y m)
     && (0 <=? hh) && (hh <=? 23) && (0 <=? mm) && (mm <=? 59)
     && (0 <=? ss) && (ss <=? 59)
  then Ok (mk_datetime y m d hh mm ss)
  else Raise ValueError.

(** Days since 0001-01-01 (proleptic Gregorian), day 0 being that date. *)
Definition days_before_year (y : Z) : Z :=
  let p := y - 1 in 365 * p + p / 4 - p / 100 + p / 400.

Fixpoint days_before_month_loop (y : Z) (n : nat) (m : Z) : Z :=
  match n with
  | O => 0
  | S n' => if Z.of_nat n <? m
            then days_in_month y (Z.of_nat n) + days_before_month_loop y n' m
            else days_before_month_loop y n' m
  end.

Definition days_before_month (y m : Z) : Z := days_before_month_loop y 12 m.

Definition ordinal (y m d : Z) : Z :=
  days_before_year y + days_before_month y m + (d - 1).

(** The year of day number [n]: the largest [y] with
    [days_before_year y <= n], searched downwards from an upper estimate. *)
Fixpoint year_of_loop (fuel : nat) (y n : Z) : Z :=
  match fuel with
  | O => y
  | S f => if days_before_year y <=? n then y else year_of_loop f (y - 1) n
  end.

Definition year_of_ordinal (n : Z) : Z := year_of_loop 12 (n / 365 + 1) n.

Fixpoint month_of_loop (fuel : nat) (y m r : Z) : Z * Z :=
  match fuel with
  | O => (m, r)
  | S f => if r <? days_in_month y m then (m, r)
           else month_of_loop f y (m + 1) (r - days_in_month y m)
  end.

(** [dt + timedelta(seconds=s)], the sub-second part dropped (it is not
    printed by the [strftime] formats used below).  [s] is first rounded
    to whole microseconds as [timedelta] does (ties to even).  Raises
    [OverflowError] when the year leaves [1, 9999]. *)
Definition round_half_even (q : Q) : Z :=
  let f := Qfloor q in
  let r := (q - inject_Z f)%Q in
  match Qcompare r (1 # 2) with
  | Lt => f
  | Gt => f + 1
  | Eq => if Z.even f then f else f + 1
  end.

Definition add_seconds (dt : datetime) (s : Q) : result datetime :=
  let us := round_half_even (s * inject_Z 1000000)%Q in
  let base := ((ordinal (year dt) (month dt) (day dt) * 24 + hour dt) * 60
               + minute dt) * 60 + second dt in
  let total := (base * 1000000 + us) / 1000000 in
  let days := total / 86400 in
  let rest := total mod 86400 in
  let y := year_of_ordinal days in
  if (y <? 1) || (9999 <? y) then Raise OverflowError
  else
    let '(m, r) := month_of_loop 12 y 1 (days - days_before_year y) in
    Ok (mk_datetime y m (r + 1) (rest / 3600) ((rest / 60) mod 60) (rest mod 60)).

End Text.

(* ================================================================== *)
(** * numpy                                                             *)
(* ================================================================== *)

Module Np.
Import Py.

(** [numpy.max] of a one-dimensional sequence of integers; raises
    [ValueError] on an empty one. *)
Definition max (l : list Z) : result Z :=
  match l with
  | [] => Raise ValueError
  | x :: l' => Ok (fold_left Z.max l' x)
  end.

(** The builtin [sum]. *)
Definition sum (l : list Z) : Z := fold_left Z.add l 0.

(** [numpy.repeat(x, r)] for a scalar count [r]: every element repeated
    [r] times consecutively. *)
Definition repeat {A} (x : list A) (r : Z) : result (list A) :=
  if r <? 0 then Raise ValueError
  else Ok (flat_map (fun a => List.repeat a (Z.to_nat r)) x).

(** A signed 16-bit integer from two bytes, least significant first
    (the native order of dtype ['int16'] on little-endian machines). *)
Definition int16_le (lo hi : byte) : Z :=
  let u := code lo + 256 * code hi in
  if u <? 32768 then u else u - 65536.

Fixpoint int16_items (l : bytes) : list Z :=
  match l with
  | lo :: hi :: l' => int16_le lo hi :: int16_items l'
  | _ => []
  end.

(** [numpy.fromfile(f, count=count, dtype='int16')] on a handle at byte
    position [pos]: the complete items available, at most [count] of
    them (all of them for a negative [count]). *)
Definition fromfile (f : bytes) (pos : Z) (count : Z) : list Z :=
  let items := int16_items (skipn (Z.to_nat pos) f) in
  if count <? 0 then items else firstn (Z.to_nat count) items.

(** Bound [i] of a slice over a sequence of length [len]. *)
Definition norm_index (len : nat) (i : Z) : nat :=
  if i <? 0 then Z.to_nat (Z.max 0 (i + Z.of_nat len))
  else Nat.min (Z.to_nat i) len.

(** The slice [l[a:b]]. *)
Definition slice {A} (a b : Z) (l : list A) : list A :=
  let na := norm_index (length l) a in
  let nb := norm_index (length l) b in
  firstn (nb - na) (skipn na l).

Definition slice_len (len : nat) (a b : Z) : nat :=
  (norm_index len b - norm_index len a)%nat.

(** [l[a:b] = v] on one row, [v] of the length of the slice. *)
Definition set_slice {A} (a b : Z) (l v : list A) : list A :=
  let na := norm_index (length l) a in
  firstn na l ++ v ++ skipn (na + slice_len (length l) a b) l.

(** The value written by [target[...] = v] where the target has [n]
    cells: [v] itself when the lengths agree, its single element
    broadcast when it has one, otherwise [ValueError]. *)
Definition broadcast {A} (n : nat) (v : list A) : result (list A) :=
  if (length v =? n)%nat then Ok v
  else match v with
       | [a] => Ok (List.repeat a n)
       | _ => Raise ValueError
       end.

(** A two-dimensional array: its number of columns and its rows. *)
Record matrix (A : Type) : Type := mk_matrix {
  ncols : nat;
  rows : list (list A)
}.
Arguments mk_matrix {A} ncols rows.
Arguments ncols {A} m.
Arguments rows {A} m.

(** [empty((r, c))] filled with [a]. *)
Definition full {A} (r c : nat) (a : A) : matrix A :=
  mk_matrix c (List.repeat (List.repeat a c) r).

(** Elementwise operation on two arrays of the same length. *)
Fixpoint zip_with {A B C} (f : A -> B -> C) (l1 : list A) (l2 : list B)
  : list C :=
  match l1, l2 with
  | a :: l1', b :: l2' => f a b :: zip_with f l1' l2'
  | _, _ => []
  end.

(** [a[idx]] with a list of indices; [IndexError] when one is out of
    bounds. *)
Definition take_indices {A} (a : list A) (idx : list nat) : result (list A) :=
  mapM (fun i => match nth_error a i with
                 | Some x => Ok x
                 | None => Raise IndexError
                 end) idx.

End Np.

(* ================================================================== *)
(** * wonambi.ioeeg.utils                                               *)
(* ================================================================== *)

Module Utils.

(** Modelled from the spec: [_select_blocks] of [wonambi/ioeeg/utils.py],
    which is imported by [edf.py] but is not among the sources.  The spec
    (4.3, step 2) has it resolve the sample range [[begsam, endsam)]
    against the block boundaries and produce, in order, the triples
    (destination range, block index, within-block range) that together
    and disjointly cover the request; nothing is produced for the part of
    a request that lies outside the blocks (the component does not
    clamp).  [blk] is the index of the first block of [blocks] and [lo]
    the sample at which it starts. *)
Fixpoint select_from (blocks : list Z) (blk lo begsam endsam : Z)
  : list ((Z * Z) * Z * (Z * Z)) :=
  match blocks with
  | [] => []
  | size :: rest =>
      let hi := lo + size in
      let start := Z.max begsam lo in
      let stop := Z.min endsam hi in
      (if start <? stop
       then [((start - begsam, stop - begsam), blk, (start - lo, stop - lo))]
       else [])
      ++ select_from rest (blk + 1) hi begsam endsam
  end.

(** Modelled from the spec: [_select_blocks(blocks, begsam, endsam)],
    the triples for all the blocks of the file, the first block starting
    at sample 0. *)
Definition _select_blocks (blocks : list Z) (begsam endsam : Z)
  : list ((Z * Z) * Z * (Z * Z)) :=
  select_from blocks 0 0 begsam endsam.

End Utils.

(* ================================================================== *)
(** * wonambi.ioeeg.edf                                                 *)
(* ================================================================== *)

Definition EDF_ITEMSIZE : Z := 2.            (* EDF_FORMAT = 'int16' *)
Definition DIGITAL_MAX : Z := 32767.         (* iinfo('int16').max *)
Definition DIGITAL_MIN : Z := -1 * DIGITAL_MAX.

Module Edf.
Import Py Text.

(** ** An open binary file: content and position *)

Definition io (A : Type) : Type := bytes -> Z -> result (A * Z).

Definition ret {A} (a : A) : io A := fun _ pos => Ok (a, pos).

Definition iobind {A B} (m : io A) (k : A -> io B) : io B :=
  fun f pos => match m f pos with
               | Ok (a, pos') => k a f pos'
               | Raise e => Raise e
               end.

Definition lift {A} (r : result A) : io A :=
  fun _ pos => match r with Ok a => Ok (a, pos) | Raise e => Raise e end.

(** The [n] bytes of [f] from offset [pos] on, fewer at the end. *)
Definition chunk (n : nat) (pos : Z) (f : bytes) : bytes :=
  firstn n (skipn (Z.to_nat pos) f).

(** [f.read(n)] *)
Definition read (n : nat) : io bytes :=
  fun f pos =>
    let data := chunk n pos f in
    Ok (data, pos + Z.of_nat (length data)).

(** [f.seek(off, 1)] *)
Definition seek_cur (off : Z) : io unit :=
  fun _ pos => if pos + off <? 0 then Raise OSError else Ok (tt, pos + off).

(** [f.tell()] *)
Definition tell : io Z := fun _ pos => Ok (pos, pos).

(** [[m for n in range(n)]] *)
Fixpoint for_range {A} (n : nat) (m : io A) : io (list A) :=
  match n with
  | O => ret []
  | S n' => iobind m (fun a => iobind (for_range n' m) (fun l => ret (a :: l)))
  end.

Local Notation "x <~ m ;; k" := (iobind m (fun x => k))
  (at level 61, m at next level, right associativity).
Local Notation "x <- m ;; k" := (bind m (fun x => k))
  (at level 61, m at next level, right associativity).

(** [f.read(n).decode('utf-8').strip()] *)
Definition read_text (n : nat) : io str :=
  b <~ read n ;; s <~ lift (decode_utf8 b) ;; ret (Text.strip s).

(** [[int(x) for x in findall('(\d+)', f.read(8).decode('utf-8'))]]
    unpacked into three names. *)
Definition read_triple : io (Z * Z * Z) :=
  b <~ read 8 ;;
  s <~ lift (decode_utf8 b) ;;
  match findall_ints s None with
  | [x; y; z] => ret (x, y, z)
  | _ => lift (Raise ValueError)
  end.

Definition read_int (n : nat) : io Z := b <~ read n ;; lift (int b).
Definition read_float (n : nat) : io Q := b <~ read n ;; lift (float b).

(** ** The header dictionary [hdr] *)

Record Hdr : Type := mk_hdr {
  subject_id : str;
  recording_id : str;
  start_time : datetime;
  header_n_bytes : Z;
  n_records : Z;
  record_length : Q;
  n_channels : Z;
  label : list str;
  transducer : list str;
  physical_dim : list str;
  physical_min : list Q;
  physical_max : list Q;
  digital_min : list Q;
  digital_max : list Q;
  prefiltering : list str;
  n_samples_per_record : list Z
}.

(** Y2K: cutoff is 1985 *)
Definition y2k (year : Z) : Z :=
  if 85 <=? year then year + 1900 else year + 2000.

(** [_read_hdr], lines 55 to 100: every field read, up to and including
    the skip of the reserved bytes at the end. *)
Definition read_fields : io Hdr :=
  p0 <~ tell ;;
  _ <~ lift (assert (p0 =? 0)) ;;
  v <~ read 8 ;;
  _ <~ lift (assert (bytes_eqb v (bytes_of_string "0       "))) ;;
  subject_id <~ read_text 80 ;;
  recording_id <~ read_text 80 ;;
  dmy <~ read_triple ;;
  hms <~ read_triple ;;
  let '(day, month, year) := dmy in
  let '(hour, minute, sec) := hms in
  start_time <~ lift (new_datetime (y2k year) month day hour minute sec) ;;
  header_n_bytes <~ read_int 8 ;;
  _ <~ seek_cur 44 ;;
  n_records <~ read_int 8 ;;
  record_length <~ read_float 8 ;;
  nchannels <~ read_int 4 ;;
  let channels := Z.to_nat nchannels in
  label <~ for_range channels (read_text 16) ;;
  transducer <~ for_range channels (read_text 80) ;;
  physical_dim <~ for_range channels (read_text 8) ;;
  physical_min <~ for_range channels (read_float 8) ;;
  physical_max <~ for_range channels (read_float 8) ;;
  digital_min <~ for_range channels (read_float 8) ;;
  digital_max <~ for_range channels (read_float 8) ;;
  prefiltering <~ for_range channels (read_text 80) ;;
  n_samples_per_record <~ for_range channels (read_int 8) ;;
  _ <~ seek_cur (32 * nchannels) ;;
  ret (mk_hdr subject_id recording_id start_time header_n_bytes n_records
              record_length nchannels label transducer physical_dim
              physical_min physical_max digital_min digital_max
              prefiltering n_samples_per_record).

(** [_read_hdr]: the fields, then the check of the offset reached
    against the length the header declares. *)
Definition _read_hdr : io Hdr :=
  hdr <~ read_fields ;;
  p <~ tell ;;
  _ <~ lift (assert (p =? header_n_bytes hdr)) ;;
  ret hdr.

(** ** Instances of the class *)

Record t : Type := mk_edf {
  hdr : Hdr;
  max_smp : option Z;
  smp_in_blk : option Z;
  dig_min : option (list Q);
  phys_min : option (list Q);
  gain : option (list Q)
}.

(** Reading an attribute that may not have been assigned yet. *)
Definition getattr {A} (a : option A) : result A :=
  match a with
  | Some x => Ok x
  | None => Raise AttributeError
  end.

(** An instance on which only [hdr] has been assigned. *)
Definition fresh (h : Hdr) : t := mk_edf h None None None None None.


(** [Edf(edffile)], [file] being the content of [edffile]. *)
Definition __init__ (file : bytes) : result t :=
  match _read_hdr file 0 with
  | Ok (h, _) => Ok (fresh h)
  | Raise e => Raise e
  end.

(** [all(a > 0)] *)
Definition all_positive (l : list Q) : bool :=
  forallb (fun q => negb (Qle_bool q 0)) l.

(** [return_hdr]: the value returned or the exception raised, and the
    instance as the call leaves it. *)
Definition return_hdr (self : t)
  : result (str * datetime * Q * list str * Z * Hdr) * t :=
  let h := hdr self in
  match Np.max (n_samples_per_record h) with
  | Raise e => (Raise e, self)
  | Ok m =>
      let s := Np.sum (n_samples_per_record h) in
      let phys_range := Np.zip_with Qminus (physical_max h) (physical_min h) in
      let dig_range := Np.zip_with Qminus (digital_max h) (digital_min h) in
      let self1 := mk_edf h (Some m) (Some s) (Some (digital_min h))
                          (Some (physical_min h)) (gain self) in
      if negb (all_positive phys_range) then (Raise AssertionError, self1)
      else if negb (all_positive dig_range) then (Raise AssertionError, self1)
      else
        let g := Np.zip_with Qdiv phys_range dig_range in
        let self2 := mk_edf h (Some m) (Some s) (Some (digital_min h))
                            (Some (physical_min h)) (Some g) in
        let s_freq := (inject_Z m / record_length h)%Q in
        (Ok (subject_id h, start_time h, s_freq, label h, m * n_records h, h),
         self2)
  end.

(** The integer [int(max_smp / n)] of a true division. *)
Definition ratio_of (max_smp n : Z) : result Z :=
  if n =? 0 then
    (if max_smp =? 0 then Raise ValueError else Raise OverflowError)
  else Ok (Z.quot max_smp n).

(** One pass of the loop of [_read_record]: the row of channel [i_ch] in
    block [blk].  The handle is positioned with an absolute [seek], so
    no position is carried from one pass to the next. *)
Definition read_channel (self : t) (f : bytes) (blk : Z) (m : Z) (i_ch : nat)
  : result (list Z) :=
  let nspr := n_samples_per_record (hdr self) in
  let ch_in_rec := Np.sum (firstn i_ch nspr) in
  n_smp_per_chan <- match nth_error nspr i_ch with
                    | Some n => Ok n
                    | None => Raise IndexError
                    end ;;
  ratio <- ratio_of m n_smp_per_chan ;;
  s <- getattr (smp_in_blk self) ;;
  let offset := header_n_bytes (hdr self) + s * blk + ch_in_rec in
  _ <- (if offset <? 0 then Raise OSError else Ok tt) ;;
  let x := Np.fromfile f offset n_smp_per_chan in
  row <- Np.repeat x ratio ;;
  Np.broadcast (Z.to_nat m) row.

(** [_read_record(f, blk, chans)] *)
Definition _read_record (self : t) (f : bytes) (blk : Z) (chans : list nat)
  : result (Np.matrix Z) :=
  m <- getattr (max_smp self) ;;
  _ <- (if m <? 0 then Raise ValueError else Ok tt) ;;
  rows <- mapM (read_channel self f blk m) chans ;;
  Ok (Np.mk_matrix (Z.to_nat m) rows).

(** [dat[:, a:b] = dat_in_rec[:, c:d]] *)
Definition assign_columns (dat : Np.matrix (option Z))
           (dat_in_rec : Np.matrix Z) (i_dat i_blk : Z * Z)
  : result (Np.matrix (option Z)) :=
  let n := Np.slice_len (Np.ncols dat) (fst i_dat) (snd i_dat) in
  let k := Np.slice_len (Np.ncols dat_in_rec) (fst i_blk) (snd i_blk) in
  if (k =? n)%nat || (k =? 1)%nat then
    rows <- mapM (fun '(row, src) =>
                    v <- Np.broadcast n
                           (map Some (Np.slice (fst i_blk) (snd i_blk) src)) ;;
                    Ok (Np.set_slice (fst i_dat) (snd i_dat) row v))
                 (combine (Np.rows dat) (Np.rows dat_in_rec)) ;;
    Ok (Np.mk_matrix (Np.ncols dat) rows)
  else Raise ValueError.

(** The loop of [return_dat] over the triples of [_select_blocks]. *)
Fixpoint read_blocks (self : t) (f : bytes) (chan : list nat)
         (triples : list ((Z * Z) * Z * (Z * Z)))
         (dat : Np.matrix (option Z))
  : result (Np.matrix (option Z)) :=
  match triples with
  | [] => Ok dat
  | (i_dat, blk, i_blk) :: rest =>
      dat_in_rec <- _read_record self f blk chan ;;
      dat' <- assign_columns dat dat_in_rec i_dat i_blk ;;
      read_blocks self f chan rest dat'
  end.

(** The calibration of one row: [(dat - dig_min) * gain + phys_min],
    a NaN staying a NaN. *)
Definition calibrate (d g p : Q) (x : option Z) : option Q :=
  match x with
  | Some v => Some ((inject_Z v - d) * g + p)%Q
  | None => None
  end.

Fixpoint calibrate_rows (dat : list (list (option Z))) (d g p : list Q)
  : list (list (option Q)) :=
  match dat, d, g, p with
  | row :: dat', d0 :: d', g0 :: g', p0 :: p' =>
      map (calibrate d0 g0 p0) row :: calibrate_rows dat' d' g' p'
  | _, _, _, _ => []
  end.

(** [return_dat(chan, begsam, endsam)], [f] being the content of the
    file at the time of the call. *)
Definition return_dat (self : t) (f : bytes) (chan : list nat)
           (begsam endsam : Z) : result (Np.matrix (option Q)) :=
  _ <- assert (begsam <? endsam) ;;
  let dat := Np.full (length chan) (Z.to_nat (endsam - begsam)) (@None Z) in
  smpl_in_blk <- Np.max (n_samples_per_record (hdr self)) ;;
  let n_blocks := n_records (hdr self) in
  _ <- (if n_blocks <? 0 then Raise ValueError else Ok tt) ;;
  let blocks := List.repeat smpl_in_blk (Z.to_nat n_blocks) in
  dat <- read_blocks self f chan
           (Utils._select_blocks blocks begsam endsam) dat ;;
  d <- getattr (dig_min self) ;;
  d <- Np.take_indices d chan ;;
  g <- getattr (gain self) ;;
  g <- Np.take_indices g chan ;;
  p <- getattr (phys_min self) ;;
  p <- Np.take_indices p chan ;;
  Ok (Np.mk_matrix (Np.ncols dat) (calibrate_rows (Np.rows dat) d g p)).

(** Opening a file and reading from it: [Edf(file)], then [return_hdr],
    then [return_dat]. *)
Definition open_and_read (file : bytes) (chan : list nat) (begsam endsam : Z)
  : result (Np.matrix (option Q)) :=
  self <- __init__ file ;;
  match return_hdr self with
  | (Raise e, _) => Raise e
  | (Ok _, self') => return_dat self' file chan begsam endsam
  end.

(** A well-formed file, for a header [h] read from the content [f]:
    every per-channel array has one entry per channel, every channel has
    a positive number of samples per record that divides the largest
    one, the physical and digital ranges are positive, and the body
    holds [n_records] records of 16-bit samples after the header. *)
Definition well_formed (h : Hdr) (f : bytes) : bool :=
  let nspr := n_samples_per_record h in
  let same_length (l : list Q) := (length l =? length nspr)%nat in
  match Np.max nspr with
  | Raise _ => false
  | Ok m =>
      (0 <=? header_n_bytes h) && (0 <=? n_records h)
      && same_length (physical_min h) && same_length (physical_max h)
      && same_length (digital_min h) && same_length (digital_max h)
      && forallb (fun n => (0 <? n) && (m mod n =? 0)) nspr
      && all_positive (Np.zip_with Qminus (physical_max h) (physical_min h))
      && all_positive (Np.zip_with Qminus (digital_max h) (digital_min h))
      && (header_n_bytes h + EDF_ITEMSIZE * Np.sum nspr * n_records h
          <=? Z.of_nat (length f))
  end.

End Edf.

(* ================================================================== *)
(** * [write_edf]                                                       *)
(* ================================================================== *)

Module Writer.
Import Py Text.

Local Notation "x <- m ;; k" := (bind m (fun x => k))
  (at level 61, m at next level, right associativity).

(** Modelled from the spec: the data object handed to [write_edf], an
    instance of the class ChanTime, which is not among the sources.  The
    spec (9) describes it as samples, channel labels, sample rate and an
    optional start time; the record holds what the function reads from
    it, for the single trial. *)
Record ChanTime : Type := mk_data {
  start_time : option datetime;     (* data.start_time *)
  time0 : Q;                        (* data.axis['time'][0][0] *)
  chan : list str;                  (* data.axis['chan'][0] *)
  data0 : Np.matrix Q;              (* data.data[0] *)
  s_freq : Q                        (* data.s_freq *)
}.

(** Modelled from the spec: [data.number_of('chan')[0]], the number of
    channel labels of the trial. *)
Definition number_of_chan (data : ChanTime) : Z := Z.of_nat (length (chan data)).

(** A Python number: an [int] or a [float]. *)
Inductive num : Type :=
| PyInt (z : Z)
| PyFloat (q : Q).

Definition value (n : num) : Q :=
  match n with
  | PyInt z => inject_Z z
  | PyFloat q => q
  end.

(** [-1 * n] *)
Definition negated (n : num) : num :=
  match n with
  | PyInt z => PyInt (-1 * z)
  | PyFloat q => PyFloat (inject_Z (-1) * q)%Q
  end.

(** The [physical_max] argument of a call: left out, [None], or a
    number. *)
Inductive arg : Type :=
| Omitted
| PassedNone
| Passed (n : num).

(** [max(abs(a))] over a whole two-dimensional array; [ValueError] on
    an array without elements. *)
Definition Qmax (a b : Q) : Q := if Qle_bool a b then b else a.

Definition max_abs (a : Np.matrix Q) : result Q :=
  match map Qabs (concat (Np.rows a)) with
  | [] => Raise ValueError
  | x :: l => Ok (fold_left Qmax l x)
  end.

(** The value of [physical_max] after lines 230 and 257-258: the default
    of the signature when the argument is left out, the largest absolute
    value of the data when it is [None]. *)
Definition resolve_physical_max (a : arg) (data : ChanTime) : result num :=
  match a with
  | Omitted => Ok (PyInt 1000)
  | Passed n => Ok n
  | PassedNone => q <- max_abs (data0 data) ;; Ok (PyFloat q)
  end.

(** Truncation towards zero. *)
Definition Qtrunc (q : Q) : Z := Z.quot (Qnum q) (Zpos (Qden q)).

(** [astype('int16')] of a float: the fractional part is dropped and the
    integer is reduced to 16 bits, which is what the C conversion does
    on the usual platforms for magnitudes below 2^31. *)
Definition astype_int16 (q : Q) : Z :=
  (Qtrunc q + 32768) mod 65536 - 32768.

(** Lines 264 to 267 for one sample: scaling, conversion, and the two
    masked assignments. *)
Definition encode_sample (physical_max : Q) (x : Q) : Z :=
  let dat := astype_int16 (x / physical_max * inject_Z DIGITAL_MAX)%Q in
  let dat := if DIGITAL_MAX <? dat then DIGITAL_MAX else dat in
  if dat <? DIGITAL_MIN then DIGITAL_MIN else dat.

(** The encoding in the words of the spec (4.4):
    [clamp(round(physical / physical_max * 32767), -32767, 32767)]. *)
Definition spec_digital (physical_max : Q) (x : Q) : Z :=
  let r := round_half_even (x / physical_max * inject_Z 32767)%Q in
  Z.max (-32767) (Z.min 32767 r).

Definition encode (physical_max : Q) (a : Np.matrix Q) : Np.matrix Z :=
  Np.mk_matrix (Np.ncols a) (map (map (encode_sample physical_max)) (Np.rows a)).

(** ** Formatting *)

Definition byte_of (c : Z) : byte :=
  match Byte.of_N (Z.to_N c) with
  | Some b => b
  | None => x00
  end.

(** [s.encode('ascii')] *)
Definition encode_ascii (s : str) : result bytes :=
  mapM (fun c => if (0 <=? c) && (c <? 128) then Ok (byte_of c)
                 else Raise UnicodeEncodeError) s.

(** [str(z)] for an [int]. *)
Definition str_of_int (z : Z) : bytes :=
  bytes_of_string (DecimalString.NilZero.string_of_int (Z.to_int z)).

(** [{:<w}]: left-justified in [w] columns, never truncated. *)
Definition ljust {A} (w : nat) (pad : A) (s : list A) : list A :=
  s ++ List.repeat pad (w - length s).

Definition space : byte := x20.

Definition fmt_bytes (w : nat) (s : string) : bytes :=
  ljust w space (bytes_of_string s).

Definition fmt_int (w : nat) (z : Z) : bytes := ljust w space (str_of_int z).

(** Two digits, zero-padded, as [%d], [%m], [%y], [%H], [%M], [%S]. *)
Definition two_digits (z : Z) : bytes :=
  [byte_of (48 + z / 10 mod 10); byte_of (48 + z mod 10)].

Definition dot : byte := x2e.

(** [strftime('%d.%m.%y')] and [strftime('%H.%M.%S')] *)
Definition strftime_date (d : datetime) : bytes :=
  two_digits (day d) ++ [dot] ++ two_digits (month d) ++ [dot]
  ++ two_digits (year d mod 100).

Definition strftime_time (d : datetime) : bytes :=
  two_digits (hour d) ++ [dot] ++ two_digits (minute d) ++ [dot]
  ++ two_digits (second d).

(** ** Records of the body *)

(** [pack('<h', v)] *)
Definition pack_h (v : Z) : bytes :=
  let u := v mod 65536 in [byte_of (u mod 256); byte_of (u / 256)].

(** [dat[:, i0:i1].flatten(order='C')] packed with ['<' + 'h' * l];
    [struct.error] when the number of values is not [l]. *)
Definition pack_record (l : Z) (dat : Np.matrix Z) (i0 i1 : Z) : result bytes :=
  let x := concat (map (Np.slice i0 i1) (Np.rows dat)) in
  if Z.of_nat (length x) =? Z.max 0 l then Ok (flat_map pack_h x)
  else Raise StructError.

Section WithFloatFormat.

(** [str] of a float (the shortest decimal that reads back as the same
    float64), which has no counterpart on rationals: taken as given. *)
Variable str_of_float : Q -> bytes.

Definition fmt_num (w : nat) (n : num) : bytes :=
  match n with
  | PyInt z => fmt_int w z
  | PyFloat q => ljust w space (str_of_float q)
  end.

(** [write_edf(data, filename, physical_max)]: the content of the file
    written. *)
Definition write_edf (data : ChanTime) (physical_max : arg) : result bytes :=
  st <- match start_time data with
        | None => Raise ValueError
        | Some st => Ok st
        end ;;
  start_time <- add_seconds st (time0 data) ;;
  physical_max <- resolve_physical_max physical_max data ;;
  let physical_min := negated physical_max in
  let dat := encode (value physical_max) (data0 data) in
  let n_smp := Z.of_nat (Np.ncols (data0 data)) in
  let s_freq := Qtrunc (s_freq data) in
  n_records <- (if s_freq =? 0 then Raise ZeroDivisionError
                else Ok (n_smp / s_freq)) ;;
  let record_length := 1 in
  let n_channels := number_of_chan data in
  let header_n_bytes := 256 + 256 * n_channels in
  labels <- mapM (fun c => encode_ascii (ljust 16 32 c)) (chan data) ;;
  let per_channel (b : bytes) : bytes :=
    concat (List.repeat b (Z.to_nat n_channels)) in
  let header :=
    fmt_int 8 0
    ++ fmt_bytes 80 "X X X X"
    ++ fmt_bytes 80 "Startdate X X X X"
    ++ strftime_date start_time
    ++ strftime_time start_time
    ++ fmt_int 8 header_n_bytes
    ++ List.repeat space 44
    ++ fmt_int 8 n_records
    ++ fmt_int 8 record_length
    ++ fmt_int 4 n_channels
    ++ concat labels
    ++ per_channel (fmt_bytes 80 "")
    ++ per_channel (fmt_bytes 8 "uV")
    ++ per_channel (fmt_num 8 physical_min)
    ++ per_channel (fmt_num 8 physical_max)
    ++ per_channel (fmt_int 8 DIGITAL_MIN)
    ++ per_channel (fmt_int 8 DIGITAL_MAX)
    ++ per_channel (fmt_bytes 80 "")
    ++ per_channel (fmt_int 8 s_freq)
    ++ per_channel (List.repeat space 32) in
  let l := s_freq * n_channels in
  body <- mapM (fun i => let i0 := Z.of_nat i * s_freq in
                         let i1 := i0 + s_freq in
                         pack_record l dat i0 i1)
               (seq 0 (Z.to_nat n_records)) ;;
  Ok (header ++ concat body).

End WithFloatFormat.

End Writer.

(* ================================================================== *)
(** * Concrete files and data sets                                      *)
(* ================================================================== *)

Module Examples.
Import Py Text Writer.

(** The four numeric fields of one channel and its samples per record. *)
Record chan_fields : Type := mk_chan {
  c_physical_min : string;
  c_physical_max : string;
  c_digital_min : string;
  c_digital_max : string;
  c_n_samples : string
}.

(** A header laid out as in the format table: fixed-width fields, left
    justified, the per-channel fields grouped by kind. *)
Definition header (version date time header_n_bytes n_records record_length
                   n_channels : string) (chans : list chan_fields) : bytes :=
  let each (w : nat) (f : chan_fields -> string) : bytes :=
    flat_map (fun c => fmt_bytes w (f c)) chans in
  fmt_bytes 8 version
  ++ fmt_bytes 80 "X" ++ fmt_bytes 80 "Y"
  ++ fmt_bytes 8 date ++ fmt_bytes 8 time
  ++ fmt_bytes 8 header_n_bytes
  ++ fmt_bytes 44 ""
  ++ fmt_bytes 8 n_records ++ fmt_bytes 8 record_length
  ++ fmt_bytes 4 n_channels
  ++ each 16%nat (fun _ => "EEG"%string)
  ++ each 80%nat (fun _ => ""%string)
  ++ each 8%nat (fun _ => "uV"%string)
  ++ each 8%nat c_physical_min
  ++ each 8%nat c_physical_max
  ++ each 8%nat c_digital_min
  ++ each 8%nat c_digital_max
  ++ each 80%nat (fun _ => ""%string)
  ++ each 8%nat c_n_samples
  ++ each 32%nat (fun _ => ""%string).

Definition samples (l : list Z) : bytes := flat_map pack_h l.

(** The scenario of the spec: two channels with physical range
    [-100, 100] and digital range [-2048, 2047], one record of one
    second, four samples per record and channel. *)
Definition scenario_chan : chan_fields := mk_chan "-100" "100" "-2048" "2047" "4".

Definition scenario_header : bytes :=
  header "0" "01.02.03" "04.05.06" "768" "1" "1.0" "2"
         [scenario_chan; scenario_chan].

Definition scenario_file : bytes :=
  scenario_header ++ samples [0; 1024; -1024; 2047] ++ samples [0; 0; 0; 0].


(** A file whose second channel has half the samples of the first. *)
Definition mixed_rate_file : bytes :=
  header "0" "31.12.84" "23.59.59" "768" "2" "1" "2"
         [mk_chan "-100" "100" "-2048" "2047" "4";
          mk_chan "-1" "1" "-32767" "32767" "2"]
  ++ samples [1; 2; 3; 4] ++ samples [5; 6]
  ++ samples [7; 8; 9; 10] ++ samples [11; 12].

(** The header of [mixed_rate_file]. *)
Definition mixed_rate_header : bytes :=
  header "0" "31.12.84" "23.59.59" "768" "2" "1" "2"
         [mk_chan "-100" "100" "-2048" "2047" "4";
          mk_chan "-1" "1" "-32767" "32767" "2"].



(** A file dated in year 85. *)
Definition file_of_85 : bytes :=
  header "0" "01.01.85" "00.00.00" "256" "0" "1" "0" [].

(** One channel sampled at 1 Hz for two seconds. *)
Definition two_seconds : ChanTime :=
  mk_data (Some (mk_datetime 2020 1 1 0 0 0)) 0 [[67]]
          (Np.mk_matrix 2 [[100; 200]])%Q 1.

(** No float is formatted when [physical_max] is an [int]. *)
Definition no_float (_ : Q) : bytes := [].

End Examples.

(* ================================================================== *)
(** * What a read fetches                                               *)
(* ================================================================== *)

Module Layout.
Import Py.

Section OfFile.

Variable h : Edf.Hdr.
Variable f : bytes.

(** The samples per record of channel [c]. *)
Definition count (c : nat) : Z := nth c (Edf.n_samples_per_record h) 0.

(** The byte offset at which [_read_record] positions the handle for
    channel [c] of block [blk]. *)
Definition offset (blk : Z) (c : nat) : Z :=
  Edf.header_n_bytes h + Np.sum (Edf.n_samples_per_record h) * blk
  + Np.sum (firstn c (Edf.n_samples_per_record h)).

(** The run of samples fetched there. *)
Definition run (blk : Z) (c : nat) : list Z :=
  Np.fromfile f (offset blk c) (count c).

(** Every sample repeated [r] times consecutively. *)
Definition upsample (x : list Z) (r : Z) : list Z :=
  flat_map (fun a => List.repeat a (Z.to_nat r)) x.

(** The row of channel [c] in the record of block [blk], [m] samples
    long. *)
Definition record_row (m : Z) (blk : Z) (c : nat) : list Z :=
  upsample (run blk c) (m / count c).

(** The raw value at sample [s] of the recording, for channel [c]. *)
Definition raw_sample (m : Z) (c : nat) (s : Z) : Z :=
  nth (Z.to_nat (s mod m)) (record_row m (s / m) c) 0.

(** The calibration of channel [c]. *)
Definition physical (c : nat) (v : Z) : Q :=
  let d := nth c (Edf.digital_min h) 0%Q in
  let p := nth c (Edf.physical_min h) 0%Q in
  let g := nth c (Np.zip_with Qdiv
                    (Np.zip_with Qminus (Edf.physical_max h) (Edf.physical_min h))
                    (Np.zip_with Qminus (Edf.digital_max h) (Edf.digital_min h)))
               0%Q in
  ((inject_Z v - d) * g + p)%Q.

(** The matrix of the samples [[begsam, endsam)] of the channels
    [chan]. *)
Definition window (m : Z) (chan : list nat) (begsam endsam : Z)
  : Np.matrix (option Q) :=
  let w := Z.to_nat (endsam - begsam) in
  Np.mk_matrix w
    (map (fun c => map (fun i => Some (physical c (raw_sample m c (begsam + Z.of_nat i))))
                       (seq 0 w))
         chan).

(** The output matrix of [return_dat] while the blocks are read: cell
    [i] of the row of channel [c] once the blocks before [k] have been
    read, and the whole matrix, [w] columns wide. *)
Definition cell_at (m : Z) (begsam : Z) (k : Z) (c : nat) (i : nat)
  : option Z :=
  let s := begsam + Z.of_nat i in
  if s <? k * m then Some (raw_sample m c s) else None.

Definition dat_at (m : Z) (begsam : Z) (w : nat) (chan : list nat) (k : Z)
  : Np.matrix (option Z) :=
  Np.mk_matrix w (map (fun c => map (cell_at m begsam k c) (seq 0 w)) chan).

End OfFile.

(** Two matrices side by side, along the sample axis. *)
Definition hstack {A} (a b : Np.matrix A) : Np.matrix A :=
  Np.mk_matrix (Np.ncols a + Np.ncols b)
               (Np.zip_with (@app A) (Np.rows a) (Np.rows b)).

End Layout.

(* ================================================================== *)
(** * Predicates in which further properties are stated                 *)
(* ================================================================== *)

Module Contract.
Import Py Text Writer.

(** ** Positions in the file *)

(** A read of [w] bytes at [p] that ends at [p'] was a full one if the
    file holds [w] bytes from [p] on. *)
Definition full_read (f : bytes) (p w p' : Z) : Prop :=
  p + w <= Z.of_nat (length f) -> p' = p + w.

(** A computation that consumes at most [w] bytes, and exactly [w] when
    the file holds them. *)
Definition advances {A} (w : Z) (m : Edf.io A) : Prop :=
  forall f p a p',
    0 <= p -> m f p = Ok (a, p') ->
    p <= p' <= p + w /\ full_read f p w p'.

(** The bytes [s] are what is left of [F] from offset [p] on. *)
Definition located (F : bytes) (p : Z) (s : bytes) : Prop :=
  exists pre, F = pre ++ s /\ Z.of_nat (length pre) = p.

(** A computation that reads one field of [w] bytes and returns a value
    that [good] relates to the field. *)
Definition reads_field {A} (m : Edf.io A) (w : nat) (good : bytes -> A -> Prop)
  : Prop :=
  forall F p field rest v,
    located F p (field ++ rest) -> length field = w -> good field v ->
    m F p = Ok (v, p + Z.of_nat w) /\ located F (p + Z.of_nat w) rest.

(** ** Headers and matrices *)

(** In every channel the physical maximum is above the physical minimum
    and the digital maximum above the digital minimum. *)
Definition ranges_positive (h : Edf.Hdr) : Prop :=
  (forall c x y, nth_error (Edf.physical_max h) c = Some x ->
                 nth_error (Edf.physical_min h) c = Some y -> (y < x)%Q)
  /\ (forall c x y, nth_error (Edf.digital_max h) c = Some x ->
                    nth_error (Edf.digital_min h) c = Some y -> (y < x)%Q).

(** A matrix of [r] rows, each [w] long. *)
Definition has_shape {A} (r w : nat) (m : Np.matrix A) : Prop :=
  Np.ncols m = w /\ length (Np.rows m) = r
  /\ Forall (fun row => length row = w) (Np.rows m).

(** ** Samples and codes *)

(** The scaled value of a sample, as line 264 computes it. *)
Definition scaled (pm x : Q) : Q := (x / pm * inject_Z DIGITAL_MAX)%Q.


(** The values of a signed 16-bit integer. *)
Definition is_int16 (v : Z) : Prop := -32768 <= v <= 32767.

(** ** Text *)

(** The bytes of a decimal numeral. *)
Definition ubytes (d : Decimal.uint) : bytes :=
  bytes_of_string (NilEmpty.string_of_uint d).

Definition minus_sign : byte := x2d.

(** [str(z)] leaves the [w] columns of its field unexceeded. *)
Definition fits (w : nat) (z : Z) : Prop := (length (str_of_int z) <= w)%nat.

(** The text of a literal, as read back from a file. *)
Definition text (s : string) : str := map code (bytes_of_string s).

(** ** Files written by [write_edf] *)

(** The header dictionary that the fields written by [write_edf] stand
    for, [t] being the start time written and [pm] the physical maximum. *)
Definition header_of (data : ChanTime) (t : datetime) (pm : Z) : Edf.Hdr :=
  let n := length (chan data) in
  let s := Qtrunc (s_freq data) in
  Edf.mk_hdr (text "X X X X") (text "Startdate X X X X") t
             (256 + 256 * Z.of_nat n)
             (Z.of_nat (Np.ncols (data0 data)) / s) (inject_Z 1) (Z.of_nat n)
             (map (fun c => Text.strip (ljust 16 32 c)) (chan data))
             (List.repeat [] n) (List.repeat (text "uV") n)
             (List.repeat (inject_Z (-1 * pm)) n) (List.repeat (inject_Z pm) n)
             (List.repeat (inject_Z DIGITAL_MIN) n)
             (List.repeat (inject_Z DIGITAL_MAX) n)
             (List.repeat [] n) (List.repeat s n).

(** The header fields of [data] that must stay within their columns for
    the file to be laid out as the reader expects: labels of at most 16
    characters, and numbers whose [str] is no wider than the field. *)
Definition header_fits (data : ChanTime) (pm : Z) : Prop :=
  Forall (fun c => (length c <= 16)%nat) (chan data)
  /\ fits 4 (number_of_chan data)
  /\ fits 8 (256 + 256 * number_of_chan data)
  /\ fits 8 (Z.of_nat (Np.ncols (data0 data)) / Qtrunc (s_freq data))
  /\ fits 8 (Qtrunc (s_freq data))
  /\ fits 8 pm /\ fits 8 (-1 * pm).

(** A start time that the two-digit year of the header can hold. *)
Definition storable (t : datetime) : Prop :=
  new_datetime (year t) (month t) (day t) (hour t) (minute t) (second t) = Ok t
  /\ 1985 <= year t <= 2084.

End Contract.

(* ================================================================== *)
(** * Properties                                                        *)
(* ================================================================== *)

Import Py Text.

(** ** The monads *)

Lemma bind_ok {A B} (r : result A) (k : A -> result B) (b : B) :
  bind r k = Ok b -> exists a, r = Ok a /\ k a = Ok b.
Proof.
  destruct r as [a|e]; simpl; intros H; [exists a; auto | discriminate].
Qed.

Lemma iobind_ok {A B} (m : Edf.io A) (k : A -> Edf.io B) f p r :
  Edf.iobind m k f p = Ok r ->
  exists a p', m f p = Ok (a, p') /\ k a f p' = Ok r.
Proof.
  unfold Edf.iobind. destruct (m f p) as [[a p']|e]; intros H.
  - exists a, p'; auto.
  - discriminate.
Qed.

Lemma lift_ok {A} (r : result A) f p a p' :
  Edf.lift r f p = Ok (a, p') -> r = Ok a /\ p' = p.
Proof.
  unfold Edf.lift. destruct r; intros H; inversion H; auto.
Qed.

Lemma assert_ok (c : bool) u : assert c = Ok u -> c = true.
Proof. destruct c; simpl; [reflexivity | discriminate]. Qed.

Lemma bytes_eqb_eq a b : bytes_eqb a b = true -> a = b.
Proof.
  unfold bytes_eqb. destruct (list_eq_dec Byte.byte_eq_dec a b); [auto | discriminate].
Qed.

(** ** Reading bytes from a handle *)

Import Edf (chunk).

Lemma read_ok n f p b p' :
  Edf.read n f p = Ok (b, p') ->
  b = chunk n p f /\ p' = p + Z.of_nat (length b).
Proof.
  unfold Edf.read, chunk. intros H. inversion H; subst. auto.
Qed.

(** A read that returns something was preceded by full reads only. *)
Lemma chunk_full n m p f :
  0 <= p ->
  chunk m (p + Z.of_nat (length (chunk n p f))) f <> [] ->
  length (chunk n p f) = n.
Proof.
  unfold chunk. intros Hp Hne.
  rewrite length_firstn, length_skipn in *.
  destruct (Nat.le_gt_cases n (length f - Z.to_nat p)) as [Hle|Hgt]; [lia|].
  exfalso. apply Hne.
  rewrite skipn_all2; [destruct m; reflexivity | lia].
Qed.

Lemma read_text_ok n f p s p' :
  Edf.read_text n f p = Ok (s, p') ->
  p' = p + Z.of_nat (length (chunk n p f)).
Proof.
  unfold Edf.read_text. intros H.
  apply iobind_ok in H. destruct H as (b & p1 & Hr & H).
  apply iobind_ok in H. destruct H as (s1 & p2 & Hd & H).
  apply read_ok in Hr. destruct Hr as [-> ->].
  apply lift_ok in Hd. destruct Hd as [_ ->].
  unfold Edf.ret in H. inversion H; subst. reflexivity.
Qed.

Lemma read_triple_ok f p x y z p' :
  Edf.read_triple f p = Ok ((x, y, z), p') ->
  exists s, decode_utf8 (chunk 8 p f) = Ok s
            /\ findall_ints s None = [x; y; z]
            /\ p' = p + Z.of_nat (length (chunk 8 p f)).
Proof.
  unfold Edf.read_triple. intros H.
  apply iobind_ok in H. destruct H as (b & p1 & Hr & H).
  apply iobind_ok in H. destruct H as (s & p2 & Hd & H).
  apply read_ok in Hr. destruct Hr as [-> ->].
  apply lift_ok in Hd. destruct Hd as [Hd ->].
  exists s. split; [exact Hd|].
  destruct (findall_ints s None) as [|a [|b [|c [|d l]]]];
    try (apply lift_ok in H; destruct H; discriminate).
  unfold Edf.ret in H. inversion H; subst. auto.
Qed.

Lemma decode_nil_of_chunk b s x l :
  decode_utf8 b = Ok s -> findall_ints s None = x :: l -> b <> [].
Proof.
  intros Hd Hf ->. simpl in Hd. inversion Hd; subst. discriminate.
Qed.

(** What a successful [read_fields] tells about the start of the file:
    the version marker, and the date field at offset 168. *)
Lemma read_fields_inv f h p :
  Edf.read_fields f 0 = Ok (h, p) ->
  firstn 8 f = bytes_of_string "0       "
  /\ exists s d m y,
      decode_utf8 (chunk 8 168 f) = Ok s
      /\ findall_ints s None = [d; m; y]
      /\ year (Edf.start_time h) = Edf.y2k y
      /\ month (Edf.start_time h) = m
      /\ day (Edf.start_time h) = d.
Proof.
  unfold Edf.read_fields. intros H.
  apply iobind_ok in H. destruct H as (p0 & q0 & Ht & H).
  unfold Edf.tell in Ht. inversion Ht; subst p0 q0. clear Ht.
  apply iobind_ok in H. destruct H as (u0 & q0 & Ha & H).
  apply lift_ok in Ha. destruct Ha as [_ ->].
  apply iobind_ok in H. destruct H as (v & q1 & Hv & H).
  apply read_ok in Hv. destruct Hv as [Hv ->].
  apply iobind_ok in H. destruct H as (u1 & q2 & Ha & H).
  apply lift_ok in Ha. destruct Ha as [Ha ->].
  apply assert_ok, bytes_eqb_eq in Ha.
  assert (Hlen : length v = 8%nat) by (rewrite Ha; reflexivity).
  rewrite Hlen in H. change (0 + Z.of_nat 8) with 8 in H.
  apply iobind_ok in H. destruct H as (sid & q3 & Hs & H).
  apply read_text_ok in Hs.
  apply iobind_ok in H. destruct H as (rid & q4 & Hr & H).
  apply read_text_ok in Hr.
  apply iobind_ok in H. destruct H as ([[d m] y] & q5 & Hd & H).
  apply read_triple_ok in Hd. destruct Hd as (s & Hdec & Hfind & Hq5).
  apply iobind_ok in H. destruct H as ([[hh mm] ss] & q6 & Hh & H).
  apply iobind_ok in H. destruct H as (st & q7 & Hst & H).
  apply lift_ok in Hst. destruct Hst as [Hst ->].
  subst q4.
  set (pd := q3 + Z.of_nat (length (chunk 80 q3 f))) in *.
  assert (Hne : chunk 8 pd f <> []).
  { apply (decode_nil_of_chunk _ s d [m; y]); assumption. }
  assert (Hfull2 : length (chunk 80 q3 f) = 80%nat).
  { apply (chunk_full 80 8 q3 f); [lia | exact Hne]. }
  assert (Hfull1 : length (chunk 80 8 f) = 80%nat).
  { apply (chunk_full 80 80 8 f); [lia|].
    rewrite <- Hs. intros E. rewrite E in Hfull2. discriminate. }
  assert (Hpd : pd = 168) by (subst pd; lia).
  rewrite Hpd in *.
  split.
  { rewrite <- Ha, Hv. unfold chunk. reflexivity. }
  exists s, d, m, y. split; [exact Hdec|]. split; [exact Hfind|].
  (* the remaining fields are stored unchanged in the record *)
  repeat (apply iobind_ok in H; destruct H as (? & ? & _ & H)).
  unfold Edf.ret in H. inversion H; subst h. simpl.
  unfold new_datetime in Hst.
  match type of Hst with (if ?c then _ else _) = _ => destruct c end;
    inversion Hst; subst st; simpl; auto.
Qed.

Lemma init_ok file self :
  Edf.__init__ file = Ok self ->
  self = Edf.fresh (Edf.hdr self)
  /\ Edf.read_fields file 0 = Ok (Edf.hdr self, Edf.header_n_bytes (Edf.hdr self)).
Proof.
  unfold Edf.__init__, Edf._read_hdr. intros H.
  destruct (Edf.iobind _ _ file 0) as [[h p]|e] eqn:E; [|discriminate].
  inversion H; subst self. clear H. simpl. split; [reflexivity|].
  apply iobind_ok in E. destruct E as (h' & p1 & Hf & E).
  apply iobind_ok in E. destruct E as (p2 & p3 & Ht & E).
  unfold Edf.tell in Ht. inversion Ht; subst p2 p3. clear Ht.
  apply iobind_ok in E. destruct E as (u & p4 & Ha & E).
  apply lift_ok in Ha. destruct Ha as [Ha ->].
  unfold Edf.ret in E. inversion E; subst h' p. clear E.
  apply assert_ok, Z.eqb_eq in Ha. rewrite <- Ha. exact Hf.
Qed.



(** C9.  The two-digit year of the date field (the third number found in
    the eight bytes at offset 168) is decoded with the fixed cutoff 85:
    a year [y >= 85] becomes [1900 + y], any other becomes [2000 + y];
    so 84 is read as 2084 and 85 as 1985. *)
Theorem C9_year_cutoff_1985 (file : bytes) (self : Edf.t) :
  Edf.__init__ file = Ok self ->
  exists s d m y,
    decode_utf8 (chunk 8 168 file) = Ok s
    /\ findall_ints s None = [d; m; y]
    /\ year (Edf.start_time (Edf.hdr self))
       = (if 85 <=? y then 1900 + y else 2000 + y)
    /\ (y = 84 -> year (Edf.start_time (Edf.hdr self)) = 2084)
    /\ (y = 85 -> year (Edf.start_time (Edf.hdr self)) = 1985).
Proof.
  intros Hinit. apply init_ok in Hinit. destruct Hinit as [_ Hf].
  apply read_fields_inv in Hf.
  destruct Hf as (_ & s & d & m & y & Hd & Hfind & Hy & _ & _).
  exists s, d, m, y. unfold Edf.y2k in Hy.
  repeat split; try assumption.
  - rewrite Hy. destruct (85 <=? y); lia.
  - intros ->. rewrite Hy. reflexivity.
  - intros ->. rewrite Hy. reflexivity.
Qed.

(** The file dated 31.12.84 is read as of 2084, the one dated 01.01.85
    as of 1985. *)
Lemma C9_year_cutoff_1985_witness :
  (exists self,
      Edf.__init__ Examples.mixed_rate_file = Ok self
      /\ year (Edf.start_time (Edf.hdr self)) = 2084)
  /\ (exists self,
         Edf.__init__ Examples.file_of_85 = Ok self
         /\ year (Edf.start_time (Edf.hdr self)) = 1985).
Proof.
  split.
  - eexists. split; [vm_compute; reflexivity|].
    match goal with
    | |- year (Edf.start_time (Edf.hdr ?e)) = _ =>
        destruct (C9_year_cutoff_1985 Examples.mixed_rate_file e
                    ltac:(vm_compute; reflexivity))
          as (s & d & m & y & Hd & Hf & _ & H84 & _)
    end.
    apply H84.
    vm_compute in Hd. inversion Hd; subst s.
    vm_compute in Hf. inversion Hf. reflexivity.
  - eexists. split; [vm_compute; reflexivity|].
    match goal with
    | |- year (Edf.start_time (Edf.hdr ?e)) = _ =>
        destruct (C9_year_cutoff_1985 Examples.file_of_85 e
                    ltac:(vm_compute; reflexivity))
          as (s & d & m & y & Hd & Hf & _ & _ & H85)
    end.
    apply H85.
    vm_compute in Hd. inversion Hd; subst s.
    vm_compute in Hf. inversion Hf. reflexivity.
Defined.




(** ** Attribute errors *)









(** What a [return_hdr] that returns leaves on the instance. *)
Lemma return_hdr_ok self r self' :
  Edf.return_hdr self = (Ok r, self') ->
  exists m,
    Np.max (Edf.n_samples_per_record (Edf.hdr self)) = Ok m
    /\ self' = Edf.mk_edf (Edf.hdr self) (Some m)
                 (Some (Np.sum (Edf.n_samples_per_record (Edf.hdr self))))
                 (Some (Edf.digital_min (Edf.hdr self)))
                 (Some (Edf.physical_min (Edf.hdr self)))
                 (Some (Np.zip_with Qdiv
                          (Np.zip_with Qminus (Edf.physical_max (Edf.hdr self))
                                       (Edf.physical_min (Edf.hdr self)))
                          (Np.zip_with Qminus (Edf.digital_max (Edf.hdr self))
                                       (Edf.digital_min (Edf.hdr self))))).
Proof.
  unfold Edf.return_hdr. intros H.
  destruct (Np.max _) as [m|e]; [|inversion H].
  exists m. split; [reflexivity|].
  destruct (negb (Edf.all_positive _)); [inversion H|].
  destruct (negb (Edf.all_positive _)); [inversion H|].
  inversion H. reflexivity.
Qed.





(** ** The encoding of samples by [write_edf] *)

Import Writer.

Lemma Qtrunc_bound (q : Q) (b : Z) :
  0 <= b -> (Qabs q <= inject_Z b)%Q -> - b <= Qtrunc q <= b.
Proof.
  intros Hb H. destruct q as [n d]. unfold Qtrunc. simpl.
  unfold Qle in H. simpl in H. rewrite Z.mul_1_r in H.
  assert (Hq : Z.abs (Z.quot n (Zpos d)) <= b).
  { rewrite <- Z.quot_abs by lia. rewrite Z.quot_div_nonneg by lia.
    apply Z.div_le_upper_bound; lia. }
  lia.
Qed.

Lemma scaled_bound (pm x : Q) :
  (0 < pm)%Q -> (Qabs x <= pm)%Q ->
  (Qabs (x / pm * inject_Z DIGITAL_MAX) <= inject_Z DIGITAL_MAX)%Q.
Proof.
  intros Hpm Hx.
  rewrite Qabs_Qmult. unfold Qdiv. rewrite Qabs_Qmult.
  rewrite (Qabs_pos (inject_Z DIGITAL_MAX)) by (unfold Qle; simpl; lia).
  rewrite (Qabs_pos (/ pm)) by (apply Qlt_le_weak, Qinv_lt_0_compat; exact Hpm).
  rewrite <- (Qmult_1_l (inject_Z DIGITAL_MAX)) at 2.
  apply Qmult_le_compat_r; [|unfold Qle; simpl; lia].
  apply Qle_shift_div_r; [exact Hpm|]. rewrite Qmult_1_l. exact Hx.
Qed.

Lemma astype_int16_range q : -32768 <= astype_int16 q <= 32767.
Proof.
  unfold astype_int16.
  pose proof (Z.mod_pos_bound (Qtrunc q + 32768) 65536 ltac:(lia)). lia.
Qed.

Lemma astype_int16_small q :
  -32768 <= Qtrunc q <= 32767 -> astype_int16 q = Qtrunc q.
Proof.
  intros H. unfold astype_int16. rewrite Z.mod_small by lia. lia.
Qed.

Lemma encode_sample_range pm x :
  -32767 <= encode_sample pm x <= 32767.
Proof.
  unfold encode_sample, DIGITAL_MIN, DIGITAL_MAX.
  pose proof (astype_int16_range (x / pm * inject_Z 32767)) as H.
  set (d := astype_int16 _) in *.
  destruct (32767 <? d) eqn:E1.
  - simpl. lia.
  - apply Z.ltb_ge in E1. destruct (d <? -1 * 32767) eqn:E2; [lia|].
    apply Z.ltb_ge in E2. lia.
Qed.

Lemma encode_sample_trunc pm x :
  -32767 <= Qtrunc (x / pm * inject_Z DIGITAL_MAX) <= 32767 ->
  encode_sample pm x = Qtrunc (x / pm * inject_Z DIGITAL_MAX).
Proof.
  intros H. unfold encode_sample.
  rewrite astype_int16_small by lia.
  unfold DIGITAL_MIN. 
  set (d := Qtrunc _) in *. unfold DIGITAL_MAX.
  destruct (32767 <? d) eqn:E1; [apply Z.ltb_lt in E1; lia|].
  destruct (d <? -1 * 32767) eqn:E2; [apply Z.ltb_lt in E2; lia|].
  reflexivity.
Qed.

Lemma zero_maps_to_zero (pm : Q) :
  exists q,
    Edf.calibrate (inject_Z DIGITAL_MIN)
                  ((pm - (inject_Z (-1) * pm)) / (inject_Z DIGITAL_MAX - inject_Z DIGITAL_MIN))
                  (inject_Z (-1) * pm) (Some 0) = Some q
    /\ (q == 0)%Q.
Proof.
  eexists. split; [reflexivity|].
  unfold DIGITAL_MIN, DIGITAL_MAX. 
  change (inject_Z (-1 * 32767)) with (-32767 # 1)%Q.
  change (inject_Z 32767) with (32767 # 1)%Q.
  change (inject_Z 0) with 0%Q. change (inject_Z (-1)) with (-1 # 1)%Q.
  field.
Qed.

(** C4 (amended).  Every 16-bit code that [write_edf] emits lies in
    [-32767, 32767], so -32768 is never written; a sample within
    [-physical_max, physical_max] is encoded as its scaled value
    [physical / physical_max * 32767] with the fractional part dropped
    (truncation towards zero, not rounding); and with the symmetric
    digital range the code 0 is calibrated back to the physical value
    0. *)
Theorem C4_encoding (pm : Q) (a : Np.matrix Q) (x : Q) :
  (forall row d, In row (Np.rows (encode pm a)) -> In d row ->
                 -32767 <= d <= 32767 /\ d <> -32768)
  /\ ((0 < pm)%Q -> (Qabs x <= pm)%Q ->
      encode_sample pm x = Qtrunc (x / pm * inject_Z 32767))
  /\ (exists q,
        Edf.calibrate (inject_Z DIGITAL_MIN)
          ((pm - (inject_Z (-1) * pm))
           / (inject_Z DIGITAL_MAX - inject_Z DIGITAL_MIN))
          (inject_Z (-1) * pm) (Some 0) = Some q
        /\ (q == 0)%Q).
Proof.
  split; [|split].
  - intros row d Hrow Hd. unfold encode in Hrow. simpl in Hrow.
    apply in_map_iff in Hrow. destruct Hrow as (r & <- & _).
    apply in_map_iff in Hd. destruct Hd as (y & <- & _).
    pose proof (encode_sample_range pm y). lia.
  - intros Hpm Hx. apply encode_sample_trunc.
    pose proof (Qtrunc_bound _ DIGITAL_MAX ltac:(unfold DIGITAL_MAX; lia)
                             (scaled_bound pm x Hpm Hx)) as H.
    unfold DIGITAL_MAX in *. lia.
  - apply zero_maps_to_zero.
Qed.

(** With [physical_max = 1000], the sample 0.05 scales to 1.63835 and
    is written as 1. *)
Lemma C4_encoding_witness :
  (0 < 1000)%Q /\ (Qabs (1 # 20) <= 1000)%Q
  /\ encode_sample 1000 (1 # 20) = 1.
Proof.
  split; [reflexivity|]. split; [discriminate|].
  rewrite (proj1 (proj2 (C4_encoding 1000 (Np.mk_matrix 0 []) (1 # 20))));
    [reflexivity | reflexivity | discriminate].
Defined.

(** C4, as stated, fails: the sample 0.05 scales to 1.63835, which the
    formula of the claim rounds to 2 and the code writes as 1.  (A sample
    above [physical_max], such as 1001, is not brought to 32767 either:
    the conversion to 16 bits comes before the two comparisons.) *)
Lemma C4_counterexample :
  encode_sample 1000 (1 # 20) = 1
  /\ spec_digital 1000 (1 # 20) = 2
  /\ encode_sample 1000 (1 # 20) <> spec_digital 1000 (1 # 20)
  /\ encode_sample 1000 1001 = -32737
  /\ spec_digital 1000 1001 = 32767.
Proof. vm_compute. repeat split; discriminate. Qed.

(** ** The choice of [physical_max] *)

Lemma Qmax_upper_l a b : (a <= Qmax a b)%Q.
Proof.
  unfold Qmax. destruct (Qle_bool a b) eqn:E.
  - apply Qle_bool_iff. exact E.
  - apply Qle_refl.
Qed.

Lemma Qmax_upper_r a b : (b <= Qmax a b)%Q.
Proof.
  unfold Qmax. destruct (Qle_bool a b) eqn:E.
  - apply Qle_refl.
  - apply Qlt_le_weak, Qnot_le_lt. intros H.
    apply Qle_bool_iff in H. congruence.
Qed.

Lemma fold_Qmax_upper l : forall x y,
  In y (x :: l) -> (y <= fold_left Qmax l x)%Q.
Proof.
  induction l as [|z l IH]; intros x y Hy; simpl.
  - destruct Hy as [->|[]]. apply Qle_refl.
  - destruct Hy as [->|[->|Hy]].
    + eapply Qle_trans; [apply Qmax_upper_l|]. apply IH. left. reflexivity.
    + eapply Qle_trans; [apply Qmax_upper_r|]. apply IH. left. reflexivity.
    + apply IH. right. exact Hy.
Qed.

Lemma fold_Qmax_in l : forall x, In (fold_left Qmax l x) (x :: l).
Proof.
  induction l as [|z l IH]; intros x; simpl.
  - left. reflexivity.
  - destruct (IH (Qmax x z)) as [H|H].
    + unfold Qmax in H at 1. destruct (Qle_bool x z); auto.
    + right. right. exact H.
Qed.

Lemma in_abs_concat (rows : list (list Q)) (y : Q) :
  In y (map Qabs (concat rows)) <->
  exists row x, In row rows /\ In x row /\ y = Qabs x.
Proof.
  rewrite in_map_iff. split.
  - intros (x & <- & Hx). apply in_concat in Hx.
    destruct Hx as (row & Hrow & Hx). exists row, x. auto.
  - intros (row & x & Hrow & Hx & ->). exists x. split; [reflexivity|].
    apply in_concat. exists row. auto.
Qed.

(** C8 (amended).  A call of [write_edf] that leaves [physical_max] out
    writes what a call with [physical_max=1000] writes.  Only a call
    that passes [None] takes the value from the data, and that value is
    the largest absolute value of the data: it bounds every sample in
    absolute value and is the absolute value of one of them. *)
Theorem C8_physical_max (str_of_float : Q -> bytes) (data : ChanTime) :
  write_edf str_of_float data Omitted
  = write_edf str_of_float data (Passed (PyInt 1000))
  /\ forall q, max_abs (data0 data) = Ok q ->
       write_edf str_of_float data PassedNone
       = write_edf str_of_float data (Passed (PyFloat q))
       /\ resolve_physical_max PassedNone data = Ok (PyFloat q)
       /\ (forall row x, In row (Np.rows (data0 data)) -> In x row ->
                         (Qabs x <= q)%Q)
       /\ (exists row x, In row (Np.rows (data0 data)) /\ In x row
                         /\ q = Qabs x).
Proof.
  split; [reflexivity|].
  intros q Hq.
  assert (Hres : resolve_physical_max PassedNone data = Ok (PyFloat q)).
  { unfold resolve_physical_max. rewrite Hq. reflexivity. }
  split; [|split; [exact Hres|]].
  - unfold write_edf. rewrite Hres. reflexivity.
  - unfold max_abs in Hq.
    destruct (map Qabs (concat (Np.rows (data0 data)))) as [|y l] eqn:E;
      [discriminate|].
    inversion Hq; subst q. clear Hq. split.
    + intros row x Hrow Hx. apply fold_Qmax_upper. rewrite <- E.
      apply in_abs_concat. exists row, x. auto.
    + apply in_abs_concat. rewrite E. apply fold_Qmax_in.
Qed.

(** On the data set [two_seconds], whose samples are 100 and 200, the
    value taken for [physical_max=None] is 200. *)
Lemma C8_physical_max_witness :
  max_abs (data0 Examples.two_seconds) = Ok 200%Q
  /\ resolve_physical_max PassedNone Examples.two_seconds = Ok (PyFloat 200).
Proof.
  split; [reflexivity|].
  apply (proj2 (C8_physical_max Examples.no_float Examples.two_seconds) 200%Q).
  reflexivity.
Defined.

(** C8, as stated, fails: for the data set [two_seconds], a call that
    does not supply [physical_max] uses 1000, while the largest absolute
    value of the data is 200. *)
Lemma C8_counterexample :
  resolve_physical_max Omitted Examples.two_seconds = Ok (PyInt 1000)
  /\ max_abs (data0 Examples.two_seconds) = Ok 200%Q
  /\ ~ (value (PyInt 1000) == 200)%Q.
Proof.
  split; [reflexivity|]. split; [reflexivity|]. discriminate.
Qed.

(** ** Two evaluations of the reader *)

(** C1 fails on the code.  The data set [two_seconds] (one channel at
    1 Hz, samples 100 and 200) is written with the default
    [physical_max] and read back over its full range: the second sample
    comes back as -52712000/65534 (about -804.3), more than one
    quantisation step 1000/32767 away from 200. *)
Lemma C1_round_trip_fails :
  exists file a b,
    write_edf Examples.no_float Examples.two_seconds Omitted = Ok file
    /\ Edf.open_and_read file [0%nat] 0 2
       = Ok (Np.mk_matrix 2 [[Some a; Some b]])
    /\ b = (-52712000 # 65534)%Q
    /\ ~ (Qabs (b - 200) <= 1000 / 32767)%Q.
Proof.
  eexists. eexists. eexists. split; [vm_compute; reflexivity|].
  split; [vm_compute; reflexivity|]. split; [reflexivity|].
  vm_compute. intros H. apply H. reflexivity.
Qed.

(** C2 fails on the code.  On the scenario file, [return_dat([0,1], 0, 4)]
    returns for channel 1 the values -204700/4095, 100, 100/4095,
    100/4095 (about -49.99, 100, 0.02, 0.02): the first two are samples
    2 and 3 of channel 0, and are more than one gain step 200/4095 away
    from 0. *)
Lemma C2_scenario_fails :
  Edf.open_and_read Examples.scenario_file [0%nat; 1%nat] 0 4
  = Ok (Np.mk_matrix 4
          [[Some (100 # 4095); Some (204900 # 4095);
            Some (-204700 # 4095); Some (409500 # 4095)];
           [Some (-204700 # 4095); Some (409500 # 4095);
            Some (100 # 4095); Some (100 # 4095)]])%Q
  /\ ~ (Qabs ((-204700 # 4095) - 0) <= 200 # 4095)%Q
  /\ ~ (Qabs ((409500 # 4095) - 0) <= 200 # 4095)%Q.
Proof.
  split; [vm_compute; reflexivity|].
  split; vm_compute; intros H; apply H; reflexivity.
Qed.

Import Layout.

(** ** Sums, maxima and lengths *)

Lemma sum_shift l : forall a, fold_left Z.add l a = a + Np.sum l.
Proof.
  unfold Np.sum. induction l as [|x l IH]; intros a; simpl.
  - lia.
  - rewrite (IH (a + x)), (IH x). lia.
Qed.

Lemma sum_cons x l : Np.sum (x :: l) = x + Np.sum l.
Proof. unfold Np.sum at 1. simpl. apply sum_shift. Qed.

Lemma sum_nonneg l : Forall (fun n => 0 < n) l -> 0 <= Np.sum l.
Proof.
  induction 1 as [|x l Hx _ IH]; [unfold Np.sum; simpl; lia|].
  rewrite sum_cons. lia.
Qed.

Lemma sum_firstn_le l : Forall (fun n => 0 < n) l ->
  forall c, 0 <= Np.sum (firstn c l)
            /\ Np.sum (firstn c l) + nth c l 0 <= Np.sum l.
Proof.
  induction 1 as [|x l Hx Hl IH]; intros c.
  - destruct c; simpl; unfold Np.sum; simpl; lia.
  - destruct c as [|c]; simpl.
    + rewrite sum_cons. pose proof (sum_nonneg l Hl) as Hs.
      change (Np.sum []) with 0. lia.
    + rewrite !sum_cons. specialize (IH c). lia.
Qed.

Lemma fold_max_ge l : forall a x, In x (a :: l) -> x <= fold_left Z.max l a.
Proof.
  induction l as [|y l IH]; intros a x Hx; simpl.
  - destruct Hx as [->|[]]. lia.
  - destruct Hx as [->|[->|Hx]].
    + specialize (IH (Z.max x y) (Z.max x y) (or_introl eq_refl)). lia.
    + specialize (IH (Z.max a x) (Z.max a x) (or_introl eq_refl)). lia.
    + apply IH. right. exact Hx.
Qed.

Lemma max_ge l m x : Np.max l = Ok m -> In x l -> x <= m.
Proof.
  destruct l as [|a l]; simpl; intros H Hx; [discriminate|].
  inversion H; subst m. apply fold_max_ge. exact Hx.
Qed.

Lemma fold_max_in l : forall a, In (fold_left Z.max l a) (a :: l).
Proof.
  induction l as [|y l IH]; intros a; simpl.
  - left. reflexivity.
  - destruct (IH (Z.max a y)) as [H|H].
    + rewrite <- H.
      destruct (Z.max_spec a y) as [[_ E]|[_ E]]; rewrite E; auto.
    + right. right. exact H.
Qed.

Lemma max_in l m : Np.max l = Ok m -> In m l.
Proof.
  destruct l as [|a l]; simpl; intros H; [discriminate|].
  inversion H. apply fold_max_in.
Qed.

Lemma length_int16_items l : length (Np.int16_items l) = Nat.div2 (length l).
Proof.
  assert (H : forall n l, (length l <= n)%nat ->
                          length (Np.int16_items l) = Nat.div2 (length l)).
  { induction n as [|n IH]; intros [|a [|b k]] Hk; simpl in *; try reflexivity;
      try lia.
    f_equal. apply IH. lia. }
  apply (H (length l)). lia.
Qed.

Lemma length_fromfile f pos cnt :
  0 <= pos -> 0 <= cnt -> pos + 2 * cnt <= Z.of_nat (length f) ->
  length (Np.fromfile f pos cnt) = Z.to_nat cnt.
Proof.
  intros Hp Hc Hlen. unfold Np.fromfile.
  replace (cnt <? 0) with false by (symmetry; apply Z.ltb_ge; lia).
  rewrite length_firstn, length_int16_items, length_skipn.
  apply Nat.min_l.
  assert (H2 : (2 * Z.to_nat cnt <= length f - Z.to_nat pos)%nat) by lia.
  revert H2. generalize (length f - Z.to_nat pos)%nat (Z.to_nat cnt).
  intros n k H2.
  rewrite <- (Nat.div2_double k). rewrite !Nat.div2_div.
  apply Nat.Div0.div_le_mono. lia.
Qed.

Lemma length_upsample x r :
  length (upsample x r) = (length x * Z.to_nat r)%nat.
Proof.
  unfold upsample. induction x as [|a x IH]; simpl; [reflexivity|].
  rewrite length_app, repeat_length, IH. lia.
Qed.

Lemma mapM_ok {A B} (f : A -> result B) (g : A -> B) (l : list A) :
  (forall a, In a l -> f a = Ok (g a)) -> mapM f l = Ok (map g l).
Proof.
  induction l as [|a l IH]; intros H; simpl; [reflexivity|].
  rewrite (H a (or_introl eq_refl)), IH; [reflexivity|].
  intros b Hb. apply H. right. exact Hb.
Qed.

(** ** Slices *)

Lemma norm_index_in len i :
  0 <= i <= Z.of_nat len -> Np.norm_index len i = Z.to_nat i.
Proof.
  intros H. unfold Np.norm_index.
  replace (i <? 0) with false by (symmetry; apply Z.ltb_ge; lia). lia.
Qed.

Lemma slice_len_in len a b :
  0 <= a <= b -> b <= Z.of_nat len ->
  Np.slice_len len a b = Z.to_nat (b - a).
Proof.
  intros Ha Hb. unfold Np.slice_len.
  rewrite !norm_index_in by lia. lia.
Qed.

Lemma seq_shift_map a n : seq a n = map (fun j => (a + j)%nat) (seq 0 n).
Proof.
  revert a. induction n as [|n IH]; intros a; simpl; [reflexivity|].
  f_equal; [lia|].
  rewrite (IH (S a)), (IH 1%nat), map_map.
  apply map_ext. intros j. lia.
Qed.

Lemma firstn_skipn_nth {A} (d : A) (l : list A) c n :
  (c + n <= length l)%nat ->
  firstn n (skipn c l) = map (fun j => nth (c + j) l d) (seq 0 n).
Proof.
  revert c l. induction n as [|n IH]; intros c l H; simpl; [reflexivity|].
  destruct (skipn c l) as [|x t] eqn:E.
  - exfalso. assert (Hl : length (skipn c l) = 0%nat) by (rewrite E; reflexivity).
    rewrite length_skipn in Hl. lia.
  - simpl. f_equal.
    + rewrite Nat.add_0_r. 
      rewrite <- (firstn_skipn c l) at 1. rewrite E.
      rewrite app_nth2; rewrite length_firstn; [|lia].
      replace (c - Nat.min c (length l))%nat with 0%nat by lia. reflexivity.
    + assert (Et : t = skipn (S c) l).
      { replace (S c) with (1 + c)%nat by lia. rewrite <- skipn_skipn, E. reflexivity. }
      rewrite Et, (IH (S c) l) by lia.
      rewrite (seq_shift_map 1 n), map_map.
      apply map_ext. intros j. f_equal. lia.
Qed.

Lemma slice_in {A} (d : A) (l : list A) a b :
  0 <= a <= b -> b <= Z.of_nat (length l) ->
  Np.slice a b l
  = map (fun j => nth (Z.to_nat a + j) l d) (seq 0 (Z.to_nat (b - a))).
Proof.
  intros Ha Hb. unfold Np.slice. rewrite !norm_index_in by lia.
  replace (Z.to_nat b - Z.to_nat a)%nat with (Z.to_nat (b - a)) by lia.
  apply firstn_skipn_nth. lia.
Qed.

(** A slice assignment on a row given by a function of the column. *)
Lemma set_slice_map {A} (g g' : nat -> A) (v : list A) w a b :
  0 <= a <= b -> b <= Z.of_nat w ->
  (forall i, (i < Z.to_nat a)%nat -> g i = g' i) ->
  (forall i, (Z.to_nat b <= i < w)%nat -> g i = g' i) ->
  v = map g' (seq (Z.to_nat a) (Z.to_nat (b - a))) ->
  Np.set_slice a b (map g (seq 0 w)) v = map g' (seq 0 w).
Proof.
  intros Ha Hb Hlo Hhi Hv. unfold Np.set_slice.
  rewrite length_map, length_seq.
  rewrite slice_len_in, norm_index_in by lia.
  set (na := Z.to_nat a) in *. set (n := Z.to_nat (b - a)) in *.
  assert (Hw : w = (na + (n + (w - (na + n))))%nat) by lia.
  rewrite Hw at 1 2 3. rewrite !seq_app, !map_app. simpl.
  set (A1 := map g (seq 0 na)). set (B1 := map g (seq na n)).
  set (C1 := map g (seq (na + n) (w - (na + n)))).
  assert (HA : length A1 = na) by (unfold A1; rewrite length_map, length_seq; reflexivity).
  assert (HB : length B1 = n) by (unfold B1; rewrite length_map, length_seq; reflexivity).
  rewrite firstn_app, HA, Nat.sub_diag, firstn_all2 by lia.
  simpl. rewrite app_nil_r.
  rewrite skipn_app, HA, skipn_all2 by lia. simpl.
  replace (na + n - na)%nat with n by lia.
  rewrite skipn_app, HB, skipn_all2 by lia. rewrite Nat.sub_diag. simpl.
  f_equal; [|f_equal].
  - apply map_ext_in. intros i Hi. apply in_seq in Hi. apply Hlo. lia.
  - exact Hv.
  - apply map_ext_in. intros i Hi. apply in_seq in Hi. apply Hhi. lia.
Qed.

Lemma combine_map {A B C} (g1 : A -> B) (g2 : A -> C) (l : list A) :
  combine (map g1 l) (map g2 l) = map (fun x => (g1 x, g2 x)) l.
Proof. induction l as [|x l IH]; simpl; [reflexivity | rewrite IH; reflexivity]. Qed.

Lemma mapM_map_ok {A B C} (f : B -> result C) (g : A -> B) (k : A -> C)
      (l : list A) :
  (forall a, In a l -> f (g a) = Ok (k a)) -> mapM f (map g l) = Ok (map k l).
Proof.
  induction l as [|a l IH]; intros H; simpl; [reflexivity|].
  rewrite (H a (or_introl eq_refl)), IH; [reflexivity|].
  intros b Hb. apply H. right. exact Hb.
Qed.

Lemma assign_columns_ok (chan : list nat) (w m : nat)
      (rowf : nat -> list (option Z)) (recf : nat -> list Z) a b c d :
  0 <= a <= b -> b <= Z.of_nat w ->
  0 <= c <= d -> d <= Z.of_nat m ->
  b - a = d - c ->
  (forall ch, In ch chan -> length (recf ch) = m) ->
  Edf.assign_columns (Np.mk_matrix w (map rowf chan))
                     (Np.mk_matrix m (map recf chan)) (a, b) (c, d)
  = Ok (Np.mk_matrix w
          (map (fun ch => Np.set_slice a b (rowf ch)
                            (map Some (Np.slice c d (recf ch)))) chan)).
Proof.
  intros Ha Hb Hc Hd Heq Hrec. unfold Edf.assign_columns. simpl.
  rewrite !slice_len_in by lia. rewrite Heq, Nat.eqb_refl. simpl.
  rewrite combine_map.
  rewrite (mapM_map_ok _ _ (fun ch => Np.set_slice a b (rowf ch)
                                        (map Some (Np.slice c d (recf ch)))));
    [reflexivity|].
  intros ch Hch. cbv beta iota.
  unfold Np.broadcast.
  rewrite length_map, (slice_in 0 (recf ch)) by (rewrite ?Hrec by exact Hch; lia).
  rewrite length_map, length_seq, Nat.eqb_refl. reflexivity.
Qed.

Lemma length_zip_with {A B C} (g : A -> B -> C) l1 : forall l2,
  length (Np.zip_with g l1 l2) = Nat.min (length l1) (length l2).
Proof.
  induction l1 as [|a l1 IH]; intros [|b l2]; simpl; try reflexivity.
  rewrite IH. reflexivity.
Qed.

Lemma zip_with_map {A B C D} (g : B -> C -> D) (r1 : A -> B) (r2 : A -> C) l :
  Np.zip_with g (map r1 l) (map r2 l) = map (fun x => g (r1 x) (r2 x)) l.
Proof. induction l as [|x l IH]; simpl; [reflexivity | rewrite IH; reflexivity]. Qed.

Lemma take_indices_ok {A} (d : A) (a : list A) (idx : list nat) :
  Forall (fun i => (i < length a)%nat) idx ->
  Np.take_indices a idx = Ok (map (fun i => nth i a d) idx).
Proof.
  intros H. unfold Np.take_indices. apply mapM_ok. intros i Hi.
  rewrite (nth_error_nth' a d); [reflexivity|].
  apply (proj1 (Forall_forall _ _) H). exact Hi.
Qed.

Lemma calibrate_rows_map (chan : list nat) (r : nat -> list (option Z))
      (d g p : nat -> Q) :
  Edf.calibrate_rows (map r chan) (map d chan) (map g chan) (map p chan)
  = map (fun c => map (Edf.calibrate (d c) (g c) (p c)) (r c)) chan.
Proof. induction chan as [|c chan IH]; simpl; [reflexivity | rewrite IH; reflexivity]. Qed.

Lemma full_none {A} (chan : list nat) (w : nat) (g : nat -> nat -> option A) :
  (forall c i, g c i = None) ->
  Np.full (length chan) w None
  = Np.mk_matrix w (map (fun c => map (g c) (seq 0 w)) chan).
Proof.
  intros Hg. unfold Np.full. f_equal.
  induction chan as [|c chan IH]; simpl; [reflexivity|].
  f_equal; [|exact IH].
  clear IH. generalize 0%nat.
  induction w as [|w IH]; intros s; simpl; [reflexivity|].
  rewrite Hg. f_equal. apply IH.
Qed.

(** ** Reading the records of a well-formed file *)

Section Reading.

Variable self : Edf.t.
Variable f : bytes.
Variable M : Z.

Let h := Edf.hdr self.
Let nspr := Edf.n_samples_per_record h.

Hypothesis Hmax : Edf.max_smp self = Some M.
Hypothesis Hsmp : Edf.smp_in_blk self = Some (Np.sum nspr).
Hypothesis HM : Np.max nspr = Ok M.
Hypothesis Hhnb : 0 <= Edf.header_n_bytes h.
Hypothesis Hdiv : Forall (fun n => 0 < n /\ M mod n = 0) nspr.
Hypothesis Hbody :
  Edf.header_n_bytes h + 2 * Np.sum nspr * Edf.n_records h
  <= Z.of_nat (length f).

Lemma counts_positive : Forall (fun n => 0 < n) nspr.
Proof. eapply Forall_impl; [|exact Hdiv]. simpl. intros n [Hn _]. exact Hn. Qed.

Lemma count_spec c :
  (c < length nspr)%nat ->
  nth_error nspr c = Some (count h c)
  /\ 0 < count h c <= M /\ M mod count h c = 0.
Proof.
  intros Hc. unfold count. fold nspr.
  assert (Hin : In (nth c nspr 0) nspr) by (apply nth_In; exact Hc).
  split; [apply nth_error_nth'; exact Hc|].
  pose proof (proj1 (Forall_forall _ _) Hdiv _ Hin) as [Hpos Hmod].
  pose proof (max_ge _ _ _ HM Hin). lia.
Qed.

Lemma run_length blk c :
  0 <= blk < Edf.n_records h -> (c < length nspr)%nat ->
  0 <= offset h blk c /\ length (run h f blk c) = Z.to_nat (count h c).
Proof.
  intros Hblk Hc.
  destruct (count_spec c Hc) as (_ & Hn & _).
  pose proof (sum_firstn_le nspr counts_positive c) as [Hs0 Hs1].
  change (nth c nspr 0) with (count h c) in Hs1.
  pose proof (sum_nonneg nspr counts_positive) as HS.
  assert (Hoff : 0 <= offset h blk c).
  { unfold offset. fold nspr. nia. }
  split; [exact Hoff|].
  unfold run. apply length_fromfile; [exact Hoff | lia |].
  unfold offset. fold nspr.
  assert (Np.sum nspr * (blk + 2) <= 2 * Np.sum nspr * Edf.n_records h) by nia.
  lia.
Qed.

Lemma record_row_length blk c :
  0 <= blk < Edf.n_records h -> (c < length nspr)%nat ->
  length (record_row h f M blk c) = Z.to_nat M.
Proof.
  intros Hblk Hc. unfold record_row.
  rewrite length_upsample, (proj2 (run_length blk c Hblk Hc)).
  destruct (count_spec c Hc) as (_ & Hn & Hmod).
  pose proof (Z.div_exact M (count h c) ltac:(lia)) as [_ Hex].
  specialize (Hex Hmod).
  assert (0 <= M / count h c) by (apply Z.div_pos; lia).
  rewrite <- Z2Nat.inj_mul by lia. f_equal. lia.
Qed.

Lemma read_channel_ok blk c :
  0 <= blk < Edf.n_records h -> (c < length nspr)%nat ->
  Edf.read_channel self f blk M c = Ok (record_row h f M blk c).
Proof.
  intros Hblk Hc.
  destruct (count_spec c Hc) as (Hnth & Hn & Hmod).
  destruct (run_length blk c Hblk Hc) as [Hoff Hrun].
  pose proof (record_row_length blk c Hblk Hc) as Hrow.
  unfold Edf.read_channel. fold h. fold nspr. rewrite Hnth. cbn [bind].
  unfold Edf.ratio_of.
  replace (count h c =? 0) with false by (symmetry; apply Z.eqb_neq; lia).
  cbn [bind]. rewrite Hsmp. simpl Edf.getattr. cbn [bind].
  change (Edf.header_n_bytes h + Np.sum nspr * blk + Np.sum (firstn c nspr))
    with (offset h blk c).
  replace (offset h blk c <? 0) with false by (symmetry; apply Z.ltb_ge; lia).
  cbn [bind]. rewrite Z.quot_div_nonneg by lia.
  unfold Np.repeat.
  assert (0 <= M / count h c) by (apply Z.div_pos; lia).
  replace (M / count h c <? 0) with false by (symmetry; apply Z.ltb_ge; lia).
  cbn [bind].
  change (flat_map (fun a : Z => repeat a (Z.to_nat (M / count h c)))
                   (Np.fromfile f (offset h blk c) (count h c)))
    with (record_row h f M blk c).
  unfold Np.broadcast. rewrite Hrow, Nat.eqb_refl. reflexivity.
Qed.

Lemma max_positive : 0 < M.
Proof.
  apply (proj1 (Forall_forall _ _) counts_positive). apply max_in. exact HM.
Qed.

Lemma read_record_ok blk chans :
  0 <= blk < Edf.n_records h ->
  Forall (fun c => (c < length nspr)%nat) chans ->
  Edf._read_record self f blk chans
  = Ok (Np.mk_matrix (Z.to_nat M) (map (record_row h f M blk) chans)).
Proof.
  intros Hblk Hch. unfold Edf._read_record. rewrite Hmax.
  simpl Edf.getattr. cbn [bind].
  replace (M <? 0) with false
    by (symmetry; apply Z.ltb_ge; pose proof max_positive; lia).
  cbn [bind].
  rewrite (mapM_ok _ (record_row h f M blk)); [reflexivity|].
  intros c Hin. apply read_channel_ok; [exact Hblk|].
  apply (proj1 (Forall_forall _ _) Hch). exact Hin.
Qed.


Lemma raw_sample_in_block k c s :
  k * M <= s < (k + 1) * M ->
  raw_sample h f M c s = nth (Z.to_nat (s - k * M)) (record_row h f M k c) 0.
Proof.
  intros Hs. pose proof max_positive as HM0. unfold raw_sample.
  assert (Hq : s / M = k) by (symmetry; apply (Z.div_unique s M k (s - k * M)); lia).
  assert (Hr : s mod M = s - k * M)
    by (symmetry; apply (Z.mod_unique s M k (s - k * M)); lia).
  rewrite Hq, Hr. reflexivity.
Qed.

Lemma block_step begsam endsam chan k :
  0 <= begsam < endsam ->
  0 <= k < Edf.n_records h ->
  Forall (fun c => (c < length nspr)%nat) chan ->
  let w := Z.to_nat (endsam - begsam) in
  let start := Z.max begsam (k * M) in
  let stop := Z.min endsam (k * M + M) in
  (start < stop ->
   exists rec,
     Edf._read_record self f k chan = Ok rec
     /\ Edf.assign_columns (dat_at h f M begsam w chan k) rec
          (start - begsam, stop - begsam) (start - k * M, stop - k * M)
        = Ok (dat_at h f M begsam w chan (k + 1)))
  /\ (stop <= start -> dat_at h f M begsam w chan k = dat_at h f M begsam w chan (k + 1)).
Proof.
  intros Hrange Hk Hch w start stop. pose proof max_positive as HM0.
  split.
  - intros Hlt. eexists. split; [apply read_record_ok; assumption|].
    unfold dat_at.
    rewrite (assign_columns_ok chan w (Z.to_nat M)
               (fun c => map (cell_at h f M begsam k c) (seq 0 w))
               (record_row h f M k)); try lia.
    2: { intros ch Hin. apply record_row_length; [exact Hk|].
         apply (proj1 (Forall_forall _ _) Hch). exact Hin. }
    f_equal. f_equal. apply map_ext_in. intros c Hc.
    assert (Hlen : length (record_row h f M k c) = Z.to_nat M).
    { apply record_row_length; [exact Hk|].
      apply (proj1 (Forall_forall _ _) Hch). exact Hc. }
    apply set_slice_map; try lia.
    + intros i Hi. unfold cell_at. cbv zeta.
      replace (begsam + Z.of_nat i <? k * M) with true
        by (symmetry; apply Z.ltb_lt; lia).
      replace (begsam + Z.of_nat i <? (k + 1) * M) with true
        by (symmetry; apply Z.ltb_lt; lia).
      reflexivity.
    + intros i Hi. unfold cell_at. cbv zeta.
      replace (begsam + Z.of_nat i <? k * M) with false
        by (symmetry; apply Z.ltb_ge; lia).
      replace (begsam + Z.of_nat i <? (k + 1) * M) with false
        by (symmetry; apply Z.ltb_ge; lia).
      reflexivity.
    + rewrite (slice_in 0) by lia.
      replace (stop - k * M - (start - k * M)) with (stop - begsam - (start - begsam))
        by lia.
      rewrite (seq_shift_map (Z.to_nat (start - begsam))), !map_map.
      apply map_ext_in. intros j Hj. apply in_seq in Hj.
      unfold cell_at. cbv zeta.
      replace (begsam + Z.of_nat (Z.to_nat (start - begsam) + j) <? (k + 1) * M)
        with true by (symmetry; apply Z.ltb_lt; lia).
      f_equal. rewrite (raw_sample_in_block k) by lia.
      f_equal. lia.
  - intros Hge. unfold dat_at. f_equal. apply map_ext_in. intros c _.
    apply map_ext_in. intros i Hi. apply in_seq in Hi.
    unfold cell_at. cbv zeta.
    destruct (Z.ltb_spec (begsam + Z.of_nat i) (k * M)) as [H1|H1];
      destruct (Z.ltb_spec (begsam + Z.of_nat i) ((k + 1) * M)) as [H2|H2];
      try reflexivity; exfalso; lia.
Qed.

Lemma read_blocks_ok begsam endsam chan :
  0 <= begsam < endsam ->
  Forall (fun c => (c < length nspr)%nat) chan ->
  forall n k,
    0 <= k -> k + Z.of_nat n <= Edf.n_records h ->
    Edf.read_blocks self f chan
      (Utils.select_from (List.repeat M n) k (k * M) begsam endsam)
      (dat_at h f M begsam (Z.to_nat (endsam - begsam)) chan k)
    = Ok (dat_at h f M begsam (Z.to_nat (endsam - begsam)) chan (k + Z.of_nat n)).
Proof.
  intros Hrange Hch. induction n as [|n IH]; intros k Hk Hn.
  - simpl. rewrite Z.add_0_r. reflexivity.
  - cbn [List.repeat Utils.select_from].
    destruct (block_step begsam endsam chan k Hrange ltac:(lia) Hch)
      as [Hread Hskip].
    replace (k * M + M) with ((k + 1) * M) in * by lia.
    replace (k + Z.of_nat (S n)) with (k + 1 + Z.of_nat n) by lia.
    destruct (Z.ltb_spec (Z.max begsam (k * M)) (Z.min endsam ((k + 1) * M)))
      as [Hlt|Hge].
    + destruct (Hread Hlt) as (rec & Hrec & Hassign).
      cbn [app Edf.read_blocks]. rewrite Hrec. cbn [bind].
      rewrite Hassign. cbn [bind]. apply IH; lia.
    + cbn [app]. rewrite (Hskip Hge). apply IH; lia.
Qed.

Hypothesis Hdmin : Edf.dig_min self = Some (Edf.digital_min h).
Hypothesis Hpmin : Edf.phys_min self = Some (Edf.physical_min h).
Hypothesis Hgain :
  Edf.gain self
  = Some (Np.zip_with Qdiv
            (Np.zip_with Qminus (Edf.physical_max h) (Edf.physical_min h))
            (Np.zip_with Qminus (Edf.digital_max h) (Edf.digital_min h))).
Hypothesis Hlen_pmin : length (Edf.physical_min h) = length nspr.
Hypothesis Hlen_pmax : length (Edf.physical_max h) = length nspr.
Hypothesis Hlen_dmin : length (Edf.digital_min h) = length nspr.
Hypothesis Hlen_dmax : length (Edf.digital_max h) = length nspr.

(** On a well-formed file, a read within the bounds returns the window
    of the recording that was asked for. *)
Lemma return_dat_window chan begsam endsam :
  0 <= begsam < endsam -> endsam <= Edf.n_records h * M ->
  Forall (fun c => (c < length nspr)%nat) chan ->
  Edf.return_dat self f chan begsam endsam
  = Ok (window h f M chan begsam endsam).
Proof.
  intros Hrange Hend Hch. pose proof max_positive as HM0.
  assert (Hrec : 0 <= Edf.n_records h) by nia.
  unfold Edf.return_dat.
  replace (begsam <? endsam) with true by (symmetry; apply Z.ltb_lt; lia).
  simpl assert. cbn [bind].
  change (Edf.n_samples_per_record (Edf.hdr self)) with nspr. rewrite HM.
  cbn [bind]. change (Edf.hdr self) with h.
  replace (Edf.n_records h <? 0) with false by (symmetry; apply Z.ltb_ge; lia).
  cbn [bind]. unfold Utils._select_blocks.
  replace (Np.full (length chan) (Z.to_nat (endsam - begsam)) None)
    with (dat_at h f M begsam (Z.to_nat (endsam - begsam)) chan 0).
  2: { symmetry. apply full_none. intros c i. unfold cell_at. cbv zeta.
       replace (begsam + Z.of_nat i <? 0 * M) with false
         by (symmetry; apply Z.ltb_ge; lia).
       reflexivity. }
  pose proof (read_blocks_ok begsam endsam chan Hrange Hch
                (Z.to_nat (Edf.n_records h)) 0 ltac:(lia) ltac:(lia)) as Hloop.
  change (0 * M) with 0 in Hloop. rewrite Hloop.
  cbn [bind]. rewrite Hdmin, Hpmin, Hgain. simpl Edf.getattr. cbn [bind].
  rewrite (take_indices_ok 0%Q) by (rewrite Hlen_dmin; exact Hch). cbn [bind].
  rewrite (take_indices_ok 0%Q)
    by (rewrite !length_zip_with, Hlen_pmin, Hlen_pmax, Hlen_dmin, Hlen_dmax,
          !Nat.min_id; exact Hch).
  cbn [bind].
  rewrite (take_indices_ok 0%Q) by (rewrite Hlen_pmin; exact Hch). cbn [bind].
  unfold dat_at, window. simpl Np.ncols. simpl Np.rows.
  rewrite calibrate_rows_map. f_equal. f_equal.
  apply map_ext_in. intros c _. rewrite map_map.
  apply map_ext_in. intros i Hi. apply in_seq in Hi.
  unfold cell_at. cbv zeta.
  match goal with
  | |- context [?x <? ?y] => destruct (Z.ltb_spec x y) as [Hlt|Hge]
  end; [reflexivity | exfalso; nia].
Qed.

End Reading.

(** ** Reading a well-formed file *)

Lemma forallb_Forall {A} (p : A -> bool) (P : A -> Prop) l :
  (forall a, p a = true -> P a) -> forallb p l = true -> Forall P l.
Proof.
  intros Hp H. apply Forall_forall. intros a Ha.
  apply Hp. apply (proj1 (forallb_forall p l) H). exact Ha.
Qed.

Lemma well_formed_spec h f m :
  Edf.well_formed h f = true ->
  Np.max (Edf.n_samples_per_record h) = Ok m ->
  0 <= Edf.header_n_bytes h
  /\ 0 <= Edf.n_records h
  /\ length (Edf.physical_min h) = length (Edf.n_samples_per_record h)
  /\ length (Edf.physical_max h) = length (Edf.n_samples_per_record h)
  /\ length (Edf.digital_min h) = length (Edf.n_samples_per_record h)
  /\ length (Edf.digital_max h) = length (Edf.n_samples_per_record h)
  /\ Forall (fun n => 0 < n /\ m mod n = 0) (Edf.n_samples_per_record h)
  /\ Edf.all_positive
       (Np.zip_with Qminus (Edf.physical_max h) (Edf.physical_min h)) = true
  /\ Edf.all_positive
       (Np.zip_with Qminus (Edf.digital_max h) (Edf.digital_min h)) = true
  /\ Edf.header_n_bytes h
     + 2 * Np.sum (Edf.n_samples_per_record h) * Edf.n_records h
     <= Z.of_nat (length f).
Proof.
  unfold Edf.well_formed. intros H Hm. rewrite Hm in H.
  repeat (apply andb_prop in H; destruct H as [H ?]).
  repeat match goal with
         | E : (_ <=? _) = true |- _ => apply Z.leb_le in E
         | E : (_ =? _)%nat = true |- _ => apply Nat.eqb_eq in E
         end.
  unfold EDF_ITEMSIZE in *.
  repeat split; try assumption.
  eapply forallb_Forall; [|eassumption].
  intros n Hn. cbv beta in Hn. apply andb_prop in Hn. destruct Hn as [Hpos Hmod].
  apply Z.ltb_lt in Hpos. apply Z.eqb_eq in Hmod. auto.
Qed.

(** On a well-formed file, opening it and reading a range within its
    bounds returns the window of the recording that was asked for. *)
Lemma open_and_read_window file self m chan begsam endsam :
  Edf.__init__ file = Ok self ->
  Edf.well_formed (Edf.hdr self) file = true ->
  Np.max (Edf.n_samples_per_record (Edf.hdr self)) = Ok m ->
  Forall (fun c => (c < length (Edf.n_samples_per_record (Edf.hdr self)))%nat)
         chan ->
  0 <= begsam < endsam -> endsam <= Edf.n_records (Edf.hdr self) * m ->
  Edf.open_and_read file chan begsam endsam
  = Ok (window (Edf.hdr self) file m chan begsam endsam).
Proof.
  intros Hinit Hwf Hm Hch Hrange Hend.
  destruct (well_formed_spec _ _ _ Hwf Hm)
    as (H1 & H2 & H3 & H4 & H5 & H6 & H7 & H8 & H9 & H10).
  unfold Edf.open_and_read. rewrite Hinit. cbn [bind].
  destruct (init_ok _ _ Hinit) as [Hfresh _].
  set (h := Edf.hdr self) in *.
  rewrite Hfresh. unfold Edf.return_hdr. simpl Edf.hdr.
  rewrite Hm, H8, H9. simpl negb. cbv iota.
  apply return_dat_window; simpl; try assumption; reflexivity.
Qed.



(** C5.  On a well-formed file, for [0 <= a < b < c] within the bounds,
    the matrix read over [[a, b)] set beside the matrix read over
    [[b, c)] is the matrix read over [[a, c)]. *)
Theorem C5_return_dat_concat
        (file : bytes) (self : Edf.t) (max_smp : Z) (chan : list nat)
        (a b c : Z) :
  Edf.__init__ file = Ok self ->
  Edf.well_formed (Edf.hdr self) file = true ->
  Np.max (Edf.n_samples_per_record (Edf.hdr self)) = Ok max_smp ->
  Forall (fun c => (c < length (Edf.n_samples_per_record (Edf.hdr self)))%nat)
         chan ->
  0 <= a < b -> b < c -> c <= Edf.n_records (Edf.hdr self) * max_smp ->
  exists d1 d2 d3,
    Edf.open_and_read file chan a b = Ok d1
    /\ Edf.open_and_read file chan b c = Ok d2
    /\ Edf.open_and_read file chan a c = Ok d3
    /\ hstack d1 d2 = d3.
Proof.
  intros Hinit Hwf Hm Hch Hab Hbc Hc.
  exists (window (Edf.hdr self) file max_smp chan a b),
         (window (Edf.hdr self) file max_smp chan b c),
         (window (Edf.hdr self) file max_smp chan a c).
  split; [eapply open_and_read_window; eauto; lia|].
  split; [eapply open_and_read_window; eauto; lia|].
  split; [eapply open_and_read_window; eauto; lia|].
  unfold hstack, window. simpl.
  replace (Z.to_nat (c - a)) with (Z.to_nat (b - a) + Z.to_nat (c - b))%nat by lia.
  f_equal. rewrite zip_with_map. apply map_ext. intros ch.
  rewrite seq_app, map_app. f_equal. simpl.
  rewrite (seq_shift_map (Z.to_nat (b - a))), map_map.
  apply map_ext. intros j. do 3 f_equal. lia.
Qed.

(** The file [mixed_rate_file] holds two records of four samples; the
    ranges [[1, 5)] and [[5, 8)] each cross or touch a record boundary. *)
Lemma C5_return_dat_concat_witness :
  exists self d1 d2 d3,
    Edf.__init__ Examples.mixed_rate_file = Ok self
    /\ Edf.well_formed (Edf.hdr self) Examples.mixed_rate_file = true
    /\ Edf.open_and_read Examples.mixed_rate_file [0%nat; 1%nat] 1 5 = Ok d1
    /\ Edf.open_and_read Examples.mixed_rate_file [0%nat; 1%nat] 5 8 = Ok d2
    /\ Edf.open_and_read Examples.mixed_rate_file [0%nat; 1%nat] 1 8 = Ok d3
    /\ hstack d1 d2 = d3.
Proof.
  eexists.
  match goal with
  | |- exists d1 d2 d3, Edf.__init__ ?file = Ok ?s /\ _ =>
      assert (Hinit : Edf.__init__ file = Ok s) by (vm_compute; reflexivity);
      destruct (C5_return_dat_concat file s 4 [0%nat; 1%nat] 1 5 8 Hinit)
        as (d1 & d2 & d3 & H1 & H2 & H3 & H4)
  end.
  - vm_compute. reflexivity.
  - vm_compute. reflexivity.
  - repeat constructor.
  - lia.
  - lia.
  - vm_compute. discriminate.
  - exists d1, d2, d3. split; [exact Hinit|].
    split; [vm_compute; reflexivity|]. auto.
Defined.

(** ** Upsampling *)






(* ================================================================== *)
(** * Further properties of the reader and the writer                   *)
(* ================================================================== *)

Import Contract.

(** ** The layout of the header *)

Lemma length_chunk n p f :
  0 <= p ->
  Z.of_nat (length (chunk n p f)) <= Z.of_nat n
  /\ (p + Z.of_nat n <= Z.of_nat (length f) -> length (chunk n p f) = n).
Proof.
  intros Hp. unfold chunk. rewrite length_firstn, length_skipn. lia.
Qed.

Lemma advances_read n : advances (Z.of_nat n) (Edf.read n).
Proof.
  intros f p a p' Hp H. apply read_ok in H. destruct H as [-> ->].
  destruct (length_chunk n p f Hp) as [H1 H2]. split; [lia|].
  intros Hlen. rewrite (H2 Hlen). reflexivity.
Qed.

Lemma advances_bind_lift {A B} w (m : Edf.io A) (k : A -> result B) :
  advances w m -> advances w (Edf.iobind m (fun a => Edf.lift (k a))).
Proof.
  intros Hm f p b p' Hp H.
  apply iobind_ok in H. destruct H as (a & q & Ha & H).
  apply lift_ok in H. destruct H as [_ ->]. exact (Hm f p a q Hp Ha).
Qed.

Lemma advances_read_int n : advances (Z.of_nat n) (Edf.read_int n).
Proof. apply advances_bind_lift, advances_read. Qed.

Lemma advances_read_float n : advances (Z.of_nat n) (Edf.read_float n).
Proof. apply advances_bind_lift, advances_read. Qed.

Lemma advances_read_text n : advances (Z.of_nat n) (Edf.read_text n).
Proof.
  intros f p a p' Hp H. apply read_text_ok in H. subst p'.
  destruct (length_chunk n p f Hp) as [H1 H2]. split; [lia|].
  intros Hlen. rewrite (H2 Hlen). reflexivity.
Qed.

Lemma advances_read_triple : advances 8 Edf.read_triple.
Proof.
  intros f p [[x y] z] p' Hp H. apply read_triple_ok in H.
  destruct H as (s & _ & _ & ->).
  destruct (length_chunk 8 p f Hp) as [H1 H2]. split; [lia|].
  intros Hlen. rewrite (H2 Hlen). reflexivity.
Qed.

Lemma for_range_ok {A} w (m : Edf.io A) :
  0 <= w -> advances w m ->
  forall n f p l p',
    0 <= p -> Edf.for_range n m f p = Ok (l, p') ->
    length l = n
    /\ p <= p' <= p + Z.of_nat n * w
    /\ full_read f p (Z.of_nat n * w) p'.
Proof.
  intros Hw Hm. unfold full_read.
  induction n as [|n IH]; intros f p l p' Hp H.
  - unfold Edf.for_range, Edf.ret in H. inversion H; subst. simpl. lia.
  - cbn [Edf.for_range] in H.
    apply iobind_ok in H. destruct H as (a & q & Ha & H).
    apply iobind_ok in H. destruct H as (l' & q' & Hl & H).
    unfold Edf.ret in H. inversion H; subst l p'. clear H.
    destruct (Hm f p a q Hp Ha) as [H1 H2]. unfold full_read in H2.
    destruct (IH f q l' q' ltac:(lia) Hl) as (H3 & H4 & H5).
    split; [simpl; lia|]. split; [lia|].
    intros Hlen. rewrite H5; rewrite H2; lia.
Qed.

Lemma seek_cur_ok off f p u p' :
  Edf.seek_cur off f p = Ok (u, p') -> p' = p + off /\ 0 <= p'.
Proof.
  unfold Edf.seek_cur. destruct (Z.ltb_spec (p + off) 0) as [Hneg|Hpos];
    intros H; inversion H.
  lia.
Qed.

(** What a successful [read_fields] tells about the per-channel arrays
    and about the offset it stops at. *)
Lemma read_fields_layout f h p :
  Edf.read_fields f 0 = Ok (h, p) ->
  let n := Z.to_nat (Edf.n_channels h) in
  (length (Edf.label h) = n /\ length (Edf.transducer h) = n
   /\ length (Edf.physical_dim h) = n /\ length (Edf.physical_min h) = n
   /\ length (Edf.physical_max h) = n /\ length (Edf.digital_min h) = n
   /\ length (Edf.digital_max h) = n /\ length (Edf.prefiltering h) = n
   /\ length (Edf.n_samples_per_record h) = n)
  /\ 0 <= p <= 256 + 224 * Z.of_nat n + 32 * Edf.n_channels h
  /\ (256 + 224 * Z.of_nat n <= Z.of_nat (length f) ->
      p = 256 + 224 * Z.of_nat n + 32 * Edf.n_channels h).
Proof.
  unfold Edf.read_fields. intros H.
  apply iobind_ok in H. destruct H as (p0 & q0 & Ht & H).
  unfold Edf.tell in Ht. inversion Ht; subst p0 q0. clear Ht.
  apply iobind_ok in H. destruct H as (u0 & q0 & Ha & H).
  apply lift_ok in Ha. destruct Ha as [_ ->].
  apply iobind_ok in H. destruct H as (v & q1 & Hv & H).
  apply (advances_read 8) in Hv; [|lia].
  apply iobind_ok in H. destruct H as (u1 & q2 & Ha & H).
  apply lift_ok in Ha. destruct Ha as [_ ->].
  apply iobind_ok in H. destruct H as (sid & q3 & Hs & H).
  apply (advances_read_text 80) in Hs; [|lia].
  apply iobind_ok in H. destruct H as (rid & q4 & Hr & H).
  apply (advances_read_text 80) in Hr; [|lia].
  apply iobind_ok in H. destruct H as ([[d m] y] & q5 & Hd & H).
  apply advances_read_triple in Hd; [|lia].
  apply iobind_ok in H. destruct H as ([[hh mm] ss] & q6 & Hh & H).
  apply advances_read_triple in Hh; [|lia].
  apply iobind_ok in H. destruct H as (st & q7 & Hst & H).
  apply lift_ok in Hst. destruct Hst as [_ ->].
  apply iobind_ok in H. destruct H as (hnb & q8 & Hhnb & H).
  apply (advances_read_int 8) in Hhnb; [|lia].
  apply iobind_ok in H. destruct H as (u2 & q9 & Hsk & H).
  apply seek_cur_ok in Hsk.
  apply iobind_ok in H. destruct H as (nrec & q10 & Hnrec & H).
  apply (advances_read_int 8) in Hnrec; [|lia].
  apply iobind_ok in H. destruct H as (rl & q11 & Hrl & H).
  apply (advances_read_float 8) in Hrl; [|lia].
  apply iobind_ok in H. destruct H as (nch & q12 & Hnch & H).
  apply (advances_read_int 4) in Hnch; [|lia].
  apply iobind_ok in H. destruct H as (l1 & r1 & E1 & H).
  apply (for_range_ok 16 _ ltac:(lia) (advances_read_text 16)) in E1; [|lia].
  apply iobind_ok in H. destruct H as (l2 & r2 & E2 & H).
  apply (for_range_ok 80 _ ltac:(lia) (advances_read_text 80)) in E2; [|lia].
  apply iobind_ok in H. destruct H as (l3 & r3 & E3 & H).
  apply (for_range_ok 8 _ ltac:(lia) (advances_read_text 8)) in E3; [|lia].
  apply iobind_ok in H. destruct H as (l4 & r4 & E4 & H).
  apply (for_range_ok 8 _ ltac:(lia) (advances_read_float 8)) in E4; [|lia].
  apply iobind_ok in H. destruct H as (l5 & r5 & E5 & H).
  apply (for_range_ok 8 _ ltac:(lia) (advances_read_float 8)) in E5; [|lia].
  apply iobind_ok in H. destruct H as (l6 & r6 & E6 & H).
  apply (for_range_ok 8 _ ltac:(lia) (advances_read_float 8)) in E6; [|lia].
  apply iobind_ok in H. destruct H as (l7 & r7 & E7 & H).
  apply (for_range_ok 8 _ ltac:(lia) (advances_read_float 8)) in E7; [|lia].
  apply iobind_ok in H. destruct H as (l8 & r8 & E8 & H).
  apply (for_range_ok 80 _ ltac:(lia) (advances_read_text 80)) in E8; [|lia].
  apply iobind_ok in H. destruct H as (l9 & r9 & E9 & H).
  apply (for_range_ok 8 _ ltac:(lia) (advances_read_int 8)) in E9; [|lia].
  apply iobind_ok in H. destruct H as (u3 & r10 & Hsk2 & H).
  apply seek_cur_ok in Hsk2.
  unfold Edf.ret in H. inversion H; subst h p. clear H.
  cbv zeta. cbn [Edf.label Edf.transducer Edf.physical_dim Edf.physical_min
                 Edf.physical_max Edf.digital_min Edf.digital_max
                 Edf.prefiltering Edf.n_samples_per_record Edf.n_channels].
  change (Z.of_nat 8) with 8 in *. change (Z.of_nat 80) with 80 in *.
  change (Z.of_nat 4) with 4 in *.
  destruct Hv as [Bv Hv], Hs as [Bs Hs], Hr as [Br Hr], Hd as [Bd Hd],
    Hh as [Bh Hh], Hhnb as [Bhnb Hhnb], Hnrec as [Bnrec Hnrec],
    Hrl as [Brl Hrl], Hnch as [Bnch Hnch],
    E1 as (L1 & B1 & E1), E2 as (L2 & B2 & E2), E3 as (L3 & B3 & E3),
    E4 as (L4 & B4 & E4), E5 as (L5 & B5 & E5), E6 as (L6 & B6 & E6),
    E7 as (L7 & B7 & E7), E8 as (L8 & B8 & E8), E9 as (L9 & B9 & E9).
  destruct Hsk as [Hsk _]. destruct Hsk2 as [Hsk2 Hpos].
  set (n := Z.of_nat (Z.to_nat nch)) in *.
  split; [repeat split; assumption|].
  split; [lia|]. intros Hlen.
  assert (Xq1 : q1 = 0 + 8) by (apply Hv; lia).
  assert (Xq3 : q3 = q1 + 80) by (apply Hs; lia).
  assert (Xq4 : q4 = q3 + 80) by (apply Hr; lia).
  assert (Xq5 : q5 = q4 + 8) by (apply Hd; lia).
  assert (Xq6 : q6 = q5 + 8) by (apply Hh; lia).
  assert (Xq8 : q8 = q6 + 8) by (apply Hhnb; lia).
  assert (Xq10 : q10 = q9 + 8) by (apply Hnrec; lia).
  assert (Xq11 : q11 = q10 + 8) by (apply Hrl; lia).
  assert (Xq12 : q12 = q11 + 4) by (apply Hnch; lia).
  assert (Xr1 : r1 = q12 + n * 16) by (apply E1; lia).
  assert (Xr2 : r2 = r1 + n * 80) by (apply E2; lia).
  assert (Xr3 : r3 = r2 + n * 8) by (apply E3; lia).
  assert (Xr4 : r4 = r3 + n * 8) by (apply E4; lia).
  assert (Xr5 : r5 = r4 + n * 8) by (apply E5; lia).
  assert (Xr6 : r6 = r5 + n * 8) by (apply E6; lia).
  assert (Xr7 : r7 = r6 + n * 8) by (apply E7; lia).
  assert (Xr8 : r8 = r7 + n * 80) by (apply E8; lia).
  assert (Xr9 : r9 = r8 + n * 8) by (apply E9; lia).
  lia.
Qed.

Lemma findall_ints_nonneg s : forall cur,
  (forall v, cur = Some v -> 0 <= v) ->
  Forall (fun v => 0 <= v) (findall_ints s cur).
Proof.
  induction s as [|c s IH]; intros cur Hcur; cbn [findall_ints].
  - destruct cur as [v|]; [constructor; [apply Hcur; reflexivity | constructor]
                          | constructor].
  - destruct (isdigit c) eqn:Ec.
    + unfold isdigit in Ec. apply andb_prop in Ec. destruct Ec as [E1 _].
      apply Z.leb_le in E1.
      apply IH. intros v Hv.
      destruct cur as [w|].
      * specialize (Hcur w eq_refl).
        assert (E : v = 10 * w + (c - 48)) by congruence. lia.
      * assert (E : v = 10 * 0 + (c - 48)) by congruence. lia.
    + destruct cur as [v|].
      * constructor; [apply Hcur; reflexivity|]. apply IH. discriminate.
      * apply IH. discriminate.
Qed.

(** What a successful [read_fields] tells about the time stamp. *)
Lemma read_fields_time f h p :
  Edf.read_fields f 0 = Ok (h, p) ->
  exists d m y hh mm ss,
    0 <= y
    /\ new_datetime (Edf.y2k y) m d hh mm ss = Ok (Edf.start_time h).
Proof.
  unfold Edf.read_fields. intros H.
  apply iobind_ok in H. destruct H as (p0 & q0 & _ & H).
  apply iobind_ok in H. destruct H as (u0 & q1 & _ & H).
  apply iobind_ok in H. destruct H as (v & q2 & _ & H).
  apply iobind_ok in H. destruct H as (u1 & q3 & _ & H).
  apply iobind_ok in H. destruct H as (sid & q4 & _ & H).
  apply iobind_ok in H. destruct H as (rid & q5 & _ & H).
  apply iobind_ok in H. destruct H as ([[d m] y] & q6 & Hd & H).
  apply read_triple_ok in Hd. destruct Hd as (s & _ & Hfind & _).
  apply iobind_ok in H. destruct H as ([[hh mm] ss] & q7 & _ & H).
  apply iobind_ok in H. destruct H as (st & q8 & Hst & H).
  apply lift_ok in Hst. destruct Hst as [Hst _].
  exists d, m, y, hh, mm, ss. split.
  - pose proof (findall_ints_nonneg s None ltac:(discriminate)) as Hnn.
    rewrite Hfind in Hnn.
    inversion Hnn as [|? ? _ H1]; subst. inversion H1 as [|? ? _ H2]; subst.
    inversion H2; subst. assumption.
  - repeat (apply iobind_ok in H; destruct H as (? & ? & _ & H)).
    unfold Edf.ret in H. inversion H; subst h. simpl. exact Hst.
Qed.

Lemma new_datetime_ok y m d hh mm ss t :
  new_datetime y m d hh mm ss = Ok t ->
  t = mk_datetime y m d hh mm ss
  /\ 1 <= y <= 9999 /\ 1 <= m <= 12 /\ 1 <= d <= days_in_month y m
  /\ 0 <= hh <= 23 /\ 0 <= mm <= 59 /\ 0 <= ss <= 59.
Proof.
  unfold new_datetime.
  destruct (_ && _) eqn:E; [|discriminate]. intros H. inversion H.
  repeat (apply andb_prop in E; destruct E as [E ?]).
  repeat match goal with
         | X : (_ <=? _) = true |- _ => apply Z.leb_le in X
         end.
  repeat split; assumption.
Qed.

(** X1.  In the header of every file that is opened, each of the nine
    per-channel arrays has exactly [n_channels] entries (none when
    [n_channels] is negative). *)
Theorem X1_per_channel_arrays (file : bytes) (self : Edf.t) :
  Edf.__init__ file = Ok self ->
  let h := Edf.hdr self in
  let n := Z.to_nat (Edf.n_channels h) in
  length (Edf.label h) = n /\ length (Edf.transducer h) = n
  /\ length (Edf.physical_dim h) = n /\ length (Edf.physical_min h) = n
  /\ length (Edf.physical_max h) = n /\ length (Edf.digital_min h) = n
  /\ length (Edf.digital_max h) = n /\ length (Edf.prefiltering h) = n
  /\ length (Edf.n_samples_per_record h) = n.
Proof.
  intros Hinit. apply init_ok in Hinit. destruct Hinit as [_ Hf].
  apply (read_fields_layout _ _ _ Hf).
Qed.

(** The two channels of [mixed_rate_file]. *)
Lemma X1_per_channel_arrays_witness :
  exists self,
    Edf.__init__ Examples.mixed_rate_file = Ok self
    /\ Edf.n_channels (Edf.hdr self) = 2
    /\ length (Edf.n_samples_per_record (Edf.hdr self)) = 2%nat
    /\ length (Edf.physical_min (Edf.hdr self)) = 2%nat.
Proof.
  eexists.
  match goal with
  | |- Edf.__init__ ?file = Ok ?s /\ _ =>
      assert (Hinit : Edf.__init__ file = Ok s) by (vm_compute; reflexivity);
      pose proof (X1_per_channel_arrays file s Hinit) as H
  end.
  split; [exact Hinit|]. split; [reflexivity|].
  cbv zeta in H. split; [apply H | apply H].
Defined.

(** X2.  The header of an opened file never declares more than
    [256 + 256 * n_channels] bytes; and when the file holds all the
    header fields (256 bytes, and 224 more per channel), the length it
    declares is exactly [256 + 256 * n_channels]. *)
Theorem X2_header_n_bytes (file : bytes) (self : Edf.t) :
  Edf.__init__ file = Ok self ->
  0 <= Edf.n_channels (Edf.hdr self) ->
  0 <= Edf.header_n_bytes (Edf.hdr self)
       <= 256 + 256 * Edf.n_channels (Edf.hdr self)
  /\ (256 + 224 * Edf.n_channels (Edf.hdr self) <= Z.of_nat (length file) ->
      Edf.header_n_bytes (Edf.hdr self)
      = 256 + 256 * Edf.n_channels (Edf.hdr self)).
Proof.
  intros Hinit Hn. apply init_ok in Hinit. destruct Hinit as [_ Hf].
  destruct (read_fields_layout _ _ _ Hf) as (_ & Hb & Hx).
  cbv zeta in Hb, Hx. rewrite Z2Nat.id in Hb, Hx by exact Hn.
  split; [lia|]. intros Hlen. rewrite (Hx Hlen). lia.
Qed.

Lemma X2_header_n_bytes_witness :
  exists self,
    Edf.__init__ Examples.scenario_file = Ok self
    /\ Edf.n_channels (Edf.hdr self) = 2
    /\ Edf.header_n_bytes (Edf.hdr self) = 768.
Proof.
  eexists.
  match goal with
  | |- Edf.__init__ ?file = Ok ?s /\ _ =>
      assert (Hinit : Edf.__init__ file = Ok s) by (vm_compute; reflexivity);
      pose proof (X2_header_n_bytes file s Hinit ltac:(vm_compute; discriminate))
        as [_ H]
  end.
  split; [exact Hinit|]. split; [reflexivity|].
  rewrite H; [reflexivity | vm_compute; discriminate].
Defined.

(** X3.  The start time of every file that is opened is a valid calendar
    time, and its year is never before 1985: a year field below 85 is
    read as a year of the 2000s. *)
Theorem X3_start_time_valid (file : bytes) (self : Edf.t) :
  Edf.__init__ file = Ok self ->
  let t := Edf.start_time (Edf.hdr self) in
  1985 <= year t <= 9999
  /\ 1 <= month t <= 12
  /\ 1 <= day t <= days_in_month (year t) (month t)
  /\ 0 <= hour t <= 23 /\ 0 <= minute t <= 59 /\ 0 <= second t <= 59.
Proof.
  intros Hinit. apply init_ok in Hinit. destruct Hinit as [_ Hf].
  destruct (read_fields_time _ _ _ Hf) as (d & m & y & hh & mm & ss & Hy & Ht).
  apply new_datetime_ok in Ht.
  destruct Ht as (-> & H1 & H2 & H3 & H4 & H5 & H6). cbv zeta. simpl.
  repeat split; try lia.
  unfold Edf.y2k in *. destruct (Z.leb_spec 85 y); lia.
Qed.

Lemma X3_start_time_valid_witness :
  exists self,
    Edf.__init__ Examples.scenario_file = Ok self
    /\ 1985 <= year (Edf.start_time (Edf.hdr self)) <= 9999.
Proof.
  eexists.
  match goal with
  | |- Edf.__init__ ?file = Ok ?s /\ _ =>
      assert (Hinit : Edf.__init__ file = Ok s) by (vm_compute; reflexivity);
      pose proof (X3_start_time_valid file s Hinit) as H
  end.
  split; [exact Hinit | apply H].
Defined.

(** ** [return_hdr] *)

Lemma nth_error_zip_with {A B C} (g : A -> B -> C) l1 : forall l2 c,
  nth_error (Np.zip_with g l1 l2) c
  = match nth_error l1 c, nth_error l2 c with
    | Some x, Some y => Some (g x y)
    | _, _ => None
    end.
Proof.
  induction l1 as [|a l1 IH]; intros [|b l2] [|c]; simpl; try reflexivity.
  - destruct (nth_error l1 c); reflexivity.
  - apply IH.
Qed.

Lemma positive_spec q : negb (Qle_bool q 0) = true <-> (0 < q)%Q.
Proof.
  rewrite negb_true_iff. split.
  - intros H. apply Qnot_le_lt. intros Hle. apply Qle_bool_iff in Hle. congruence.
  - intros H. destruct (Qle_bool q 0) eqn:E; [|reflexivity].
    apply Qle_bool_iff in E. exfalso. apply (Qlt_not_le _ _ H E).
Qed.

(** [all(hi - lo > 0)]: every upper bound is above its lower bound. *)
Lemma all_positive_ranges (hi lo : list Q) :
  Edf.all_positive (Np.zip_with Qminus hi lo) = true
  <-> forall c x y, nth_error hi c = Some x -> nth_error lo c = Some y ->
                    (y < x)%Q.
Proof.
  unfold Edf.all_positive. rewrite forallb_forall. split.
  - intros H c x y Hx Hy.
    assert (Hin : In (x - y)%Q (Np.zip_with Qminus hi lo)).
    { apply (nth_error_In _ c). rewrite nth_error_zip_with, Hx, Hy. reflexivity. }
    apply H, positive_spec in Hin. lra.
  - intros H q Hq. apply In_nth_error in Hq. destruct Hq as [c Hc].
    rewrite nth_error_zip_with in Hc.
    destruct (nth_error hi c) as [x|] eqn:Hx; [|discriminate].
    destruct (nth_error lo c) as [y|] eqn:Hy; [|discriminate].
    inversion Hc; subst q. apply positive_spec.
    specialize (H c x y Hx Hy). lra.
Qed.

Lemma return_hdr_cases self :
  let h := Edf.hdr self in
  match Np.max (Edf.n_samples_per_record h) with
  | Raise e => Edf.return_hdr self = (Raise e, self)
  | Ok m =>
      if Edf.all_positive
           (Np.zip_with Qminus (Edf.physical_max h) (Edf.physical_min h))
         && Edf.all_positive
              (Np.zip_with Qminus (Edf.digital_max h) (Edf.digital_min h))
      then exists r, Edf.return_hdr self
                     = (Ok r,
                        Edf.mk_edf h (Some m)
                          (Some (Np.sum (Edf.n_samples_per_record h)))
                          (Some (Edf.digital_min h)) (Some (Edf.physical_min h))
                          (Some (Np.zip_with Qdiv
                             (Np.zip_with Qminus (Edf.physical_max h)
                                          (Edf.physical_min h))
                             (Np.zip_with Qminus (Edf.digital_max h)
                                          (Edf.digital_min h)))))
                     /\ r = (Edf.subject_id h, Edf.start_time h,
                             (inject_Z m / Edf.record_length h)%Q, Edf.label h,
                             m * Edf.n_records h, h)
      else Edf.return_hdr self
           = (Raise AssertionError,
              Edf.mk_edf h (Some m)
                (Some (Np.sum (Edf.n_samples_per_record h)))
                (Some (Edf.digital_min h)) (Some (Edf.physical_min h))
                (Edf.gain self))
  end.
Proof.
  cbv zeta. unfold Edf.return_hdr.
  destruct (Np.max _) as [m|e]; [|reflexivity].
  destruct (Edf.all_positive (Np.zip_with Qminus (Edf.physical_max _) _));
    [|reflexivity].
  destruct (Edf.all_positive _); simpl; [|reflexivity].
  eexists. split; reflexivity.
Qed.

(** X4.  [return_hdr] returns exactly when the header has at least one
    channel and, for every channel, the physical maximum is above the
    physical minimum and the digital maximum above the digital minimum.
    Without a channel it raises [ValueError] and leaves the instance as
    it was; with a range that is not positive it raises
    [AssertionError], having assigned [max_smp] but not [gain]. *)
Theorem X4_return_hdr_succeeds_iff (self : Edf.t) :
  let h := Edf.hdr self in
  ((exists r self', Edf.return_hdr self = (Ok r, self'))
   <-> Edf.n_samples_per_record h <> [] /\ ranges_positive h)
  /\ (Edf.n_samples_per_record h = [] ->
      Edf.return_hdr self = (Raise ValueError, self))
  /\ (Edf.n_samples_per_record h <> [] -> ~ ranges_positive h ->
      fst (Edf.return_hdr self) = Raise AssertionError
      /\ Edf.max_smp (snd (Edf.return_hdr self)) <> None
      /\ Edf.gain (snd (Edf.return_hdr self)) = Edf.gain self).
Proof.
  cbv zeta. pose proof (return_hdr_cases self) as H. cbv zeta in H.
  unfold ranges_positive. rewrite <- !all_positive_ranges.
  destruct (Edf.n_samples_per_record (Edf.hdr self)) as [|x l] eqn:En.
  - simpl in H. split; [|split].
    + split; [intros (r & s & E); rewrite H in E; inversion E
             | intros [Hne _]; contradiction].
    + intros _. exact H.
    + intros Hne. contradiction.
  - simpl Np.max in H. cbv iota in H.
    destruct (Edf.all_positive (Np.zip_with Qminus (Edf.physical_max _) _)) eqn:E1;
      [destruct (Edf.all_positive (Np.zip_with Qminus (Edf.digital_max _) _)) eqn:E2|];
      simpl in H.
    + destruct H as (r & H & _). split; [|split].
      * split; [intros _; split; [discriminate | split; reflexivity]
               | intros _; eauto].
      * discriminate.
      * intros _ Hn. exfalso. apply Hn. split; reflexivity.
    + split; [|split].
      * split; [intros (r & s & E); rewrite H in E; inversion E
               | intros (_ & _ & Hd); discriminate].
      * discriminate.
      * intros _ _. rewrite H. simpl. split; [reflexivity|].
        split; [discriminate | reflexivity].
    + split; [|split].
      * split; [intros (r & s & E); rewrite H in E; inversion E
               | intros (_ & Hp & _); discriminate].
      * discriminate.
      * intros _ _. rewrite H. simpl. split; [reflexivity|].
        split; [discriminate | reflexivity].
Qed.

(** X5.  [return_hdr] never changes the header, and calling it again
    after it has returned gives the same values and leaves the instance
    as the first call left it. *)
Theorem X5_return_hdr_idempotent (self : Edf.t) :
  Edf.hdr (snd (Edf.return_hdr self)) = Edf.hdr self
  /\ forall r self', Edf.return_hdr self = (Ok r, self') ->
                     Edf.return_hdr self' = (Ok r, self').
Proof.
  pose proof (return_hdr_cases self) as H. cbv zeta in H. split.
  - destruct (Np.max _) as [m|e]; [|rewrite H; reflexivity].
    destruct (_ && _).
    + destruct H as (r & -> & _). reflexivity.
    + rewrite H. reflexivity.
  - intros r self' E.
    destruct (Np.max _) as [m|e] eqn:Em; [|rewrite H in E; inversion E].
    destruct (_ && _) eqn:Ep; [|rewrite H in E; inversion E].
    destruct H as (r0 & H & Hr). rewrite H in E. inversion E; subst r0 self'.
    clear E.
    pose proof (return_hdr_cases
                  (Edf.mk_edf (Edf.hdr self) (Some m)
                     (Some (Np.sum (Edf.n_samples_per_record (Edf.hdr self))))
                     (Some (Edf.digital_min (Edf.hdr self)))
                     (Some (Edf.physical_min (Edf.hdr self)))
                     (Some (Np.zip_with Qdiv
                        (Np.zip_with Qminus (Edf.physical_max (Edf.hdr self))
                           (Edf.physical_min (Edf.hdr self)))
                        (Np.zip_with Qminus (Edf.digital_max (Edf.hdr self))
                           (Edf.digital_min (Edf.hdr self))))))) as H2.
    cbv zeta in H2. simpl Edf.hdr in H2. rewrite Em, Ep in H2.
    destruct H2 as (r2 & H2 & Hr2). rewrite H2. subst r r2. reflexivity.
Qed.

Lemma X5_return_hdr_idempotent_witness :
  exists self r self',
    Edf.__init__ Examples.scenario_file = Ok self
    /\ Edf.return_hdr self = (Ok r, self')
    /\ Edf.return_hdr self' = (Ok r, self').
Proof.
  eexists. eexists. eexists. split; [vm_compute; reflexivity|].
  match goal with
  | |- Edf.return_hdr ?s = (Ok ?r, ?s') /\ _ =>
      assert (E : Edf.return_hdr s = (Ok r, s')) by (vm_compute; reflexivity)
  end.
  split; [exact E|].
  exact (proj2 (X5_return_hdr_idempotent _) _ _ E).
Defined.

(** ** Calibration *)



(** ** The shape of what [return_dat] returns *)

Lemma norm_index_le len i : (Np.norm_index len i <= len)%nat.
Proof. unfold Np.norm_index. destruct (Z.ltb_spec i 0); lia. Qed.

Lemma length_set_slice {A} a b (l v : list A) :
  length v = Np.slice_len (length l) a b ->
  length (Np.set_slice a b l v) = length l.
Proof.
  intros Hv. unfold Np.set_slice.
  rewrite !length_app, length_firstn, length_skipn, Hv.
  unfold Np.slice_len.
  pose proof (norm_index_le (length l) a).
  pose proof (norm_index_le (length l) b). lia.
Qed.

Lemma broadcast_length {A} n (v v' : list A) :
  Np.broadcast n v = Ok v' -> length v' = n.
Proof.
  unfold Np.broadcast. destruct (Nat.eqb_spec (length v) n) as [E|_].
  - intros H. inversion H; subst v'. exact E.
  - destruct v as [|a [|b v]]; intros H; inversion H. apply repeat_length.
Qed.

Lemma mapM_inv {A B} (g : A -> result B) (l : list A) : forall l',
  mapM g l = Ok l' -> Forall2 (fun a b => g a = Ok b) l l'.
Proof.
  induction l as [|a l IH]; intros l' H; simpl in H.
  - inversion H. constructor.
  - destruct (g a) as [b|e] eqn:Ea; [|discriminate].
    destruct (mapM g l) as [bs|e]; [|discriminate].
    inversion H; subst l'. constructor; [exact Ea | apply IH; reflexivity].
Qed.

Lemma mapM_length {A B} (g : A -> result B) l l' :
  mapM g l = Ok l' -> length l' = length l.
Proof.
  intros H. apply mapM_inv in H. symmetry. eapply Forall2_length. exact H.
Qed.

Lemma has_shape_full {A} r w (a : A) : has_shape r w (Np.full r w a).
Proof.
  unfold has_shape, Np.full. simpl. split; [reflexivity|].
  split; [apply repeat_length|].
  apply Forall_forall. intros row Hin. apply repeat_spec in Hin. subst row.
  apply repeat_length.
Qed.

Lemma read_record_rows self f blk chans rec :
  Edf._read_record self f blk chans = Ok rec ->
  length (Np.rows rec) = length chans.
Proof.
  unfold Edf._read_record. intros H.
  apply bind_ok in H. destruct H as (m & _ & H).
  apply bind_ok in H. destruct H as (u & _ & H).
  apply bind_ok in H. destruct H as (rows & Hrows & H).
  inversion H. simpl. eapply mapM_length. exact Hrows.
Qed.

Lemma assign_columns_shape r w dat rec i_dat i_blk dat' :
  has_shape r w dat -> length (Np.rows rec) = r ->
  Edf.assign_columns dat rec i_dat i_blk = Ok dat' ->
  has_shape r w dat'.
Proof.
  intros (Hc & Hr & Hrows) Hrec. unfold Edf.assign_columns.
  destruct (_ || _); [|discriminate]. intros H.
  apply bind_ok in H. destruct H as (rows & Hm & H).
  inversion H; subst dat'. clear H. unfold has_shape. simpl.
  split; [exact Hc|]. apply mapM_inv in Hm.
  split.
  - rewrite <- (Forall2_length Hm), length_combine. lia.
  - assert (Hin : Forall (fun rs : list (option Z) * list Z => length (fst rs) = w)
                         (combine (Np.rows dat) (Np.rows rec))).
    { apply Forall_forall. intros [row src] Hin. apply in_combine_l in Hin.
      apply (proj1 (Forall_forall _ _) Hrows). exact Hin. }
    revert Hin. induction Hm as [|[row src] row' l l' Hx _ IH]; intros Hin;
      constructor.
    + apply bind_ok in Hx. destruct Hx as (v & Hv & Hx).
      injection Hx as <-.
      apply Forall_cons_iff in Hin. destruct Hin as [Hrow _]. simpl in Hrow.
      apply broadcast_length in Hv.
      rewrite length_set_slice; [exact Hrow|]. rewrite Hv, Hrow, Hc. reflexivity.
    + apply IH. apply Forall_cons_iff in Hin. apply Hin.
Qed.

Lemma read_blocks_shape self f chan triples : forall dat dat',
  has_shape (length chan) (Np.ncols dat) dat ->
  Edf.read_blocks self f chan triples dat = Ok dat' ->
  has_shape (length chan) (Np.ncols dat) dat'.
Proof.
  induction triples as [|[[i_dat blk] i_blk] rest IH]; intros dat dat' Hs H.
  - simpl in H. inversion H; subst. exact Hs.
  - cbn [Edf.read_blocks] in H.
    apply bind_ok in H. destruct H as (rec & Hrec & H).
    apply bind_ok in H. destruct H as (dat1 & Hd & H).
    pose proof (assign_columns_shape _ _ _ _ _ _ _ Hs
                  (read_record_rows _ _ _ _ _ Hrec) Hd) as Hs1.
    assert (Hc : Np.ncols dat1 = Np.ncols dat) by apply Hs1.
    rewrite <- Hc in Hs1. rewrite <- Hc. apply (IH dat1 dat' Hs1 H).
Qed.

Lemma calibrate_rows_shape w dat : forall d g p,
  length d = length dat -> length g = length dat -> length p = length dat ->
  Forall (fun row => length row = w) dat ->
  length (Edf.calibrate_rows dat d g p) = length dat
  /\ Forall (fun row => length row = w) (Edf.calibrate_rows dat d g p).
Proof.
  induction dat as [|row dat IH]; intros d g p Hd Hg Hp Hrows.
  - simpl. split; [reflexivity | constructor].
  - destruct d as [|d0 d]; [discriminate|]. destruct g as [|g0 g]; [discriminate|].
    destruct p as [|p0 p]; [discriminate|]. simpl in *.
    inversion Hrows as [|? ? Hrow Hrest]; subst.
    destruct (IH d g p ltac:(lia) ltac:(lia) ltac:(lia) Hrest) as [H1 H2].
    split; [lia|]. constructor; [rewrite length_map; reflexivity | exact H2].
Qed.

Lemma take_indices_inv {A} (a : list A) idx l :
  Np.take_indices a idx = Ok l ->
  length l = length idx /\ Forall (fun i => (i < length a)%nat) idx.
Proof.
  unfold Np.take_indices. intros H. split; [eapply mapM_length; exact H|].
  apply mapM_inv in H. induction H as [|i x idx l Hi _ IH]; constructor.
  - destruct (nth_error a i) eqn:E; [|discriminate].
    apply nth_error_Some. congruence.
  - exact IH.
Qed.

(** What a [return_dat] that returns tells, whatever the instance. *)
Lemma return_dat_ok self f chan begsam endsam dat :
  Edf.return_dat self f chan begsam endsam = Ok dat ->
  begsam < endsam
  /\ has_shape (length chan) (Z.to_nat (endsam - begsam)) dat
  /\ exists d, Edf.dig_min self = Some d
               /\ Forall (fun c => (c < length d)%nat) chan.
Proof.
  unfold Edf.return_dat. intros H.
  apply bind_ok in H. destruct H as (u & Ha & H).
  apply assert_ok, Z.ltb_lt in Ha. split; [exact Ha|].
  apply bind_ok in H. destruct H as (k & _ & H).
  apply bind_ok in H. destruct H as (u1 & _ & H).
  apply bind_ok in H. destruct H as (dat1 & Hdat & H).
  apply bind_ok in H. destruct H as (d & Hd & H).
  apply bind_ok in H. destruct H as (d' & Hd' & H).
  apply bind_ok in H. destruct H as (g & _ & H).
  apply bind_ok in H. destruct H as (g' & Hg' & H).
  apply bind_ok in H. destruct H as (p & _ & H).
  apply bind_ok in H. destruct H as (p' & Hp' & H).
  inversion H; subst dat. clear H.
  apply take_indices_inv in Hd', Hg', Hp'.
  pose proof (read_blocks_shape _ _ _ _ _ _
                (has_shape_full (length chan) (Z.to_nat (endsam - begsam)) None)
                Hdat) as (Hc & Hr & Hrows).
  simpl Np.ncols in Hc, Hrows.
  split.
  - unfold has_shape. simpl. split; [exact Hc|].
    destruct (calibrate_rows_shape (Z.to_nat (endsam - begsam)) (Np.rows dat1)
                d' g' p') as [H1 H2]; try lia; try assumption.
    split; [lia | exact H2].
  - exists d. split; [|apply Hd'].
    destruct (Edf.dig_min self); inversion Hd. reflexivity.
Qed.

(** X7.  On an instance opened from a file and prepared by
    [return_hdr], whenever [return_dat] returns a matrix, [begsam] is
    below [endsam], every requested channel index is below
    [n_channels], and the matrix has one row per requested channel and
    [endsam - begsam] columns in every row. *)
Theorem X7_return_dat_shape
        (file : bytes) (self0 self : Edf.t) r (f : bytes) (chan : list nat)
        (begsam endsam : Z) (dat : Np.matrix (option Q)) :
  Edf.__init__ file = Ok self0 ->
  Edf.return_hdr self0 = (Ok r, self) ->
  Edf.return_dat self f chan begsam endsam = Ok dat ->
  begsam < endsam
  /\ Forall (fun c => Z.of_nat c < Edf.n_channels (Edf.hdr self)) chan
  /\ length (Np.rows dat) = length chan
  /\ Z.of_nat (Np.ncols dat) = endsam - begsam
  /\ Forall (fun row => length row = Np.ncols dat) (Np.rows dat).
Proof.
  intros Hinit Hret Hdat.
  destruct (return_dat_ok _ _ _ _ _ _ Hdat)
    as (Hlt & (Hc & Hr & Hrows) & d & Hd & Hch).
  apply init_ok in Hinit. destruct Hinit as [_ Hf].
  destruct (read_fields_layout _ _ _ Hf) as (Hlen & _).
  apply return_hdr_ok in Hret. destruct Hret as (m & _ & ->).
  simpl in *. inversion Hd; subst d.
  split; [exact Hlt|]. split.
  - eapply Forall_impl; [|exact Hch]. cbv beta. intros c Hcl.
    destruct Hlen as (_ & _ & _ & _ & _ & Hdmin & _). lia.
  - split; [exact Hr|]. split; [lia|]. rewrite Hc. exact Hrows.
Qed.

Lemma X7_return_dat_shape_witness :
  exists self0 r self dat,
    Edf.__init__ Examples.mixed_rate_file = Ok self0
    /\ Edf.return_hdr self0 = (Ok r, self)
    /\ Edf.return_dat self Examples.mixed_rate_file [1%nat] 2 7 = Ok dat
    /\ length (Np.rows dat) = 1%nat
    /\ Z.of_nat (Np.ncols dat) = 5.
Proof.
  eexists. eexists. eexists. eexists.
  match goal with
  | |- Edf.__init__ ?file = Ok ?s /\ _ =>
      assert (Hinit : Edf.__init__ file = Ok s) by (vm_compute; reflexivity)
  end.
  split; [exact Hinit|].
  match goal with
  | |- Edf.return_hdr ?s = (Ok ?r, ?s') /\ _ =>
      assert (E : Edf.return_hdr s = (Ok r, s')) by (vm_compute; reflexivity)
  end.
  split; [exact E|].
  match goal with
  | |- Edf.return_dat ?s ?f ?ch ?b ?e = Ok ?d /\ _ =>
      assert (Hd : Edf.return_dat s f ch b e = Ok d) by (vm_compute; reflexivity)
  end.
  split; [exact Hd|].
  destruct (X7_return_dat_shape _ _ _ _ _ _ _ _ _ Hinit E Hd)
    as (_ & _ & H1 & H2 & _).
  split; [exact H1 | exact H2].
Defined.

(** ** Quantisation *)

Lemma Qtrunc_nonneg q : (0 <= q)%Q -> Qtrunc q = Qfloor q.
Proof.
  destruct q as [n d]. unfold Qle. simpl. intros H.
  unfold Qtrunc. simpl. apply Z.quot_div_nonneg; lia.
Qed.

Lemma Qtrunc_opp q : Qtrunc (- q) = - Qtrunc q.
Proof. destruct q as [n d]. unfold Qtrunc. simpl. apply Z.quot_opp_l. lia. Qed.

Lemma Qtrunc_nonpos q : (q <= 0)%Q -> Qtrunc q = - Qfloor (- q).
Proof.
  intros H. rewrite <- (Qtrunc_nonneg (- q)) by lra.
  rewrite Qtrunc_opp. lia.
Qed.

Lemma Qtrunc_comp q q' : (q == q')%Q -> Qtrunc q = Qtrunc q'.
Proof.
  intros E. destruct (Qlt_le_dec q 0) as [Hneg|Hpos].
  - rewrite !Qtrunc_nonpos by lra. f_equal. apply Qfloor_comp. rewrite E. reflexivity.
  - rewrite !Qtrunc_nonneg by lra. apply Qfloor_comp. exact E.
Qed.


Lemma Qtrunc_le q q' : (q <= q')%Q -> Qtrunc q <= Qtrunc q'.
Proof.
  intros H.
  destruct (Qlt_le_dec q 0) as [Hq|Hq]; destruct (Qlt_le_dec q' 0) as [Hq'|Hq'].
  - rewrite !Qtrunc_nonpos by lra.
    pose proof (Qfloor_resp_le (- q') (- q) ltac:(lra)). lia.
  - rewrite (Qtrunc_nonpos q) by lra. rewrite (Qtrunc_nonneg q') by lra.
    pose proof (Qfloor_resp_le 0 (- q) ltac:(lra)) as H1.
    pose proof (Qfloor_resp_le 0 q' Hq') as H2.
    change (Qfloor 0) with 0 in *. lia.
  - exfalso. lra.
  - rewrite !Qtrunc_nonneg by lra. apply Qfloor_resp_le. exact H.
Qed.

Lemma scaled_in_range pm x :
  (0 < pm)%Q -> (Qabs x <= pm)%Q ->
  encode_sample pm x = Qtrunc (scaled pm x)
  /\ (Qabs (scaled pm x) <= inject_Z DIGITAL_MAX)%Q.
Proof.
  intros Hpm Hx. pose proof (scaled_bound pm x Hpm Hx) as Hs.
  split; [|exact Hs].
  apply encode_sample_trunc.
  pose proof (Qtrunc_bound _ DIGITAL_MAX ltac:(unfold DIGITAL_MAX; lia) Hs) as H.
  unfold DIGITAL_MAX in *. lia.
Qed.





(** X9.  On samples within [-physical_max, physical_max] the encoding
    of [write_edf] is odd and monotone: the opposite sample gets the
    opposite code, and a larger sample never gets a smaller code. *)
Theorem X9_encoding_odd_monotone (pm x y : Q) :
  (0 < pm)%Q -> (Qabs x <= pm)%Q -> (Qabs y <= pm)%Q ->
  encode_sample pm (- x) = - encode_sample pm x
  /\ ((x <= y)%Q -> encode_sample pm x <= encode_sample pm y).
Proof.
  intros Hpm Hx Hy.
  assert (Hx' : (Qabs (- x) <= pm)%Q) by (rewrite Qabs_opp; exact Hx).
  destruct (scaled_in_range pm x Hpm Hx) as [-> _].
  destruct (scaled_in_range pm y Hpm Hy) as [-> _].
  destruct (scaled_in_range pm (- x) Hpm Hx') as [-> _].
  split.
  - rewrite <- Qtrunc_opp. apply Qtrunc_comp. unfold scaled. field. lra.
  - intros Hle. apply Qtrunc_le. unfold scaled, DIGITAL_MAX.
    change (inject_Z 32767) with (32767 # 1)%Q.
    apply Qmult_le_compat_r; [|lra].
    unfold Qdiv. apply Qmult_le_compat_r; [exact Hle|].
    apply Qlt_le_weak, Qinv_lt_0_compat. exact Hpm.
Qed.

Lemma X9_encoding_odd_monotone_witness :
  encode_sample 1000 (- (1 # 20)) = - encode_sample 1000 (1 # 20)
  /\ encode_sample 1000 (1 # 20) <= encode_sample 1000 500.
Proof.
  destruct (X9_encoding_odd_monotone 1000 (1 # 20) 500 ltac:(reflexivity)
              ltac:(discriminate) ltac:(discriminate)) as [H1 H2].
  split; [exact H1 | apply H2; discriminate].
Defined.

(** ** Samples on disk *)

Lemma code_byte_of c : 0 <= c < 256 -> code (byte_of c) = c.
Proof.
  intros Hc. unfold code, byte_of.
  destruct (Byte.of_N (Z.to_N c)) as [b|] eqn:E.
  - apply Byte.to_of_N in E. rewrite E. lia.
  - apply Byte.of_N_None_iff in E. lia.
Qed.

(** The two bytes written for a sample are read back as that sample. *)
Lemma int16_le_pack_h v lo hi :
  is_int16 v -> pack_h v = [lo; hi] -> Np.int16_le lo hi = v.
Proof.
  unfold is_int16, pack_h, Np.int16_le. intros Hv H. inversion H; subst lo hi.
  clear H.
  assert (Hu : 0 <= v mod 65536 < 65536) by (apply Z.mod_pos_bound; lia).
  rewrite !code_byte_of.
  2: { split; [apply Z.div_pos; lia | apply Z.div_lt_upper_bound; lia]. }
  2: { apply Z.mod_pos_bound; lia. }
  replace ((v mod 65536) mod 256 + 256 * ((v mod 65536) / 256))
    with (v mod 65536)
    by (pose proof (Z.div_mod (v mod 65536) 256 ltac:(lia)); lia).
  destruct (Z.ltb_spec (v mod 65536) 32768) as [Hlt|Hge].
  - destruct (Z_lt_le_dec v 0) as [Hn|Hp].
    + exfalso.
      assert (E : v mod 65536 = v + 65536)
        by (symmetry; apply (Z.mod_unique v 65536 (-1)); lia).
      lia.
    + apply Z.mod_small. lia.
  - destruct (Z_lt_le_dec v 0) as [Hn|Hp].
    + assert (E : v mod 65536 = v + 65536)
        by (symmetry; apply (Z.mod_unique v 65536 (-1)); lia).
      lia.
    + exfalso. rewrite Z.mod_small in Hge by lia. lia.
Qed.

Lemma int16_items_samples l : forall rest,
  Forall is_int16 l ->
  Np.int16_items (Examples.samples l ++ rest) = l ++ Np.int16_items rest.
Proof.
  unfold Examples.samples.
  induction l as [|v l IH]; intros rest Hl; [reflexivity|].
  inversion Hl as [|? ? Hv Hl']; subst.
  cbn [flat_map]. 
  destruct (pack_h v) as [|lo [|hi [|x t]]] eqn:E; try discriminate.
  cbn [app Np.int16_items]. rewrite (int16_le_pack_h v lo hi Hv E).
  f_equal. apply IH. exact Hl'.
Qed.

Lemma length_samples l : length (Examples.samples l) = (2 * length l)%nat.
Proof.
  unfold Examples.samples. induction l as [|v l IH]; [reflexivity|].
  cbn [flat_map]. rewrite length_app, IH. simpl. lia.
Qed.

Lemma samples_app l1 l2 :
  Examples.samples (l1 ++ l2) = Examples.samples l1 ++ Examples.samples l2.
Proof. unfold Examples.samples. apply flat_map_app. Qed.

Lemma skipn_app_length {A} (a b : list A) k :
  skipn (length a + k) (a ++ b) = skipn k b.
Proof. induction a as [|x a IH]; simpl; [reflexivity | exact IH]. Qed.

(** Reading [count] items where the samples [l], written two bytes
    each, start at byte [length pre]: item [j] on is at byte
    [length pre + 2 j]. *)
Lemma fromfile_samples pre l post (j : nat) (count : Z) :
  Forall is_int16 l ->
  0 <= count -> (j + Z.to_nat count <= length l)%nat ->
  Np.fromfile (pre ++ Examples.samples l ++ post)
              (Z.of_nat (length pre) + 2 * Z.of_nat j) count
  = firstn (Z.to_nat count) (skipn j l).
Proof.
  intros Hl Hc Hj. unfold Np.fromfile.
  replace (count <? 0) with false by (symmetry; apply Z.ltb_ge; lia).
  replace (Z.to_nat (Z.of_nat (length pre) + 2 * Z.of_nat j))
    with (length pre + 2 * j)%nat by lia.
  rewrite skipn_app_length.
  rewrite <- (firstn_skipn j l) at 1.
  rewrite samples_app, <- app_assoc.
  assert (Hlen : length (Examples.samples (firstn j l)) = (2 * j)%nat).
  { rewrite length_samples, length_firstn. lia. }
  replace (2 * j)%nat with (length (Examples.samples (firstn j l)) + 0)%nat by lia.
  rewrite skipn_app_length. cbn [skipn].
  rewrite int16_items_samples.
  2: { apply Forall_forall. intros x Hx.
       apply (proj1 (Forall_forall _ _) Hl).
       rewrite <- (firstn_skipn j l). apply in_or_app. right. exact Hx. }
  rewrite firstn_app.
  replace (Z.to_nat count - length (skipn j l))%nat with 0%nat
    by (rewrite length_skipn; lia).
  cbn [firstn]. apply app_nil_r.
Qed.

Lemma encode_is_int16 pm a :
  Forall (Forall is_int16) (Np.rows (encode pm a)).
Proof.
  unfold encode. simpl. apply Forall_forall. intros row Hrow.
  apply in_map_iff in Hrow. destruct Hrow as (r & <- & _).
  apply Forall_forall. intros d Hd.
  apply in_map_iff in Hd. destruct Hd as (x & <- & _).
  pose proof (encode_sample_range pm x). unfold is_int16. lia.
Qed.

Lemma Forall_concat {A} (P : A -> Prop) (ls : list (list A)) :
  Forall (Forall P) ls -> Forall P (concat ls).
Proof.
  induction 1 as [|l ls Hl _ IH]; simpl; [constructor|].
  apply Forall_app. split; assumption.
Qed.

Lemma Forall_slice {A} (P : A -> Prop) a b (l : list A) :
  Forall P l -> Forall P (Np.slice a b l).
Proof.
  intros H. unfold Np.slice.
  set (na := Np.norm_index (length l) a). set (n := (_ - na)%nat).
  rewrite <- (firstn_skipn na l) in H. apply Forall_app in H.
  destruct H as [_ H].
  rewrite <- (firstn_skipn n (skipn na l)) in H. apply Forall_app in H.
  apply H.
Qed.

(** X10.  A record of the body, as [write_edf] packs it from the encoded
    samples, is read back by [fromfile] as the same integers in the
    same order (channel after channel), wherever the record lies in the
    file. *)
Theorem X10_record_read_back
        (pm : Q) (a : Np.matrix Q) (l i0 i1 : Z) (rec pre post : bytes) :
  pack_record l (encode pm a) i0 i1 = Ok rec ->
  Np.fromfile (pre ++ rec ++ post) (Z.of_nat (length pre)) (Z.max 0 l)
  = concat (map (Np.slice i0 i1) (Np.rows (encode pm a)))
  /\ length rec = (2 * Z.to_nat l)%nat.
Proof.
  unfold pack_record. set (x := concat _).
  destruct (Z.eqb_spec (Z.of_nat (length x)) (Z.max 0 l)) as [E|_];
    [|discriminate].
  intros H. inversion H; subst rec. clear H.
  assert (Hx : Forall is_int16 x).
  { unfold x. apply Forall_concat. apply Forall_forall. intros s Hs.
    apply in_map_iff in Hs. destruct Hs as (row & <- & Hrow).
    apply Forall_slice.
    apply (proj1 (Forall_forall _ _) (encode_is_int16 pm a)). exact Hrow. }
  split.
  - pose proof (fromfile_samples pre x post 0 (Z.max 0 l) Hx ltac:(lia)
                                 ltac:(lia)) as Hf.
    rewrite Z.add_0_r in Hf. unfold Examples.samples in Hf. rewrite Hf.
    cbn [skipn]. apply firstn_all2. lia.
  - change (flat_map pack_h x) with (Examples.samples x).
    rewrite length_samples. lia.
Qed.

Lemma X10_record_read_back_witness :
  exists rec,
    pack_record 2 (encode 1000 (Np.mk_matrix 2 [[100; 200]]%Q)) 0 2 = Ok rec
    /\ Np.fromfile ([x00] ++ rec ++ [x00]) 1 2 = [3276; 6553].
Proof.
  eexists.
  match goal with
  | |- pack_record ?l ?d ?i0 ?i1 = Ok ?r /\ _ =>
      assert (H : pack_record l d i0 i1 = Ok r) by (vm_compute; reflexivity)
  end.
  split; [exact H|].
  exact (proj1 (X10_record_read_back 1000 _ 2 0 2 _ [x00] [x00] H)).
Defined.

(** X11.  For a file whose body holds the 16-bit samples [body] after a
    header of [header_n_bytes] bytes, the run that [_read_record]
    fetches for channel [c] of block [blk] is made of the samples of the
    body from index [j] on, where [2 j] is the number of samples that
    precede the channel in the file ([smp_in_blk * blk] plus the counts
    of the channels before it): the offset is counted in samples, the
    samples take two bytes each.  Only for [j = 0], channel 0 of block 0,
    is that the place where the samples of the channel are stored. *)
Theorem X11_fetched_run
        (h : Edf.Hdr) (pre post : bytes) (body : list Z) (blk : Z)
        (c j : nat) :
  Z.of_nat (length pre) = Edf.header_n_bytes h ->
  Forall is_int16 body ->
  Np.sum (Edf.n_samples_per_record h) * blk
  + Np.sum (firstn c (Edf.n_samples_per_record h)) = 2 * Z.of_nat j ->
  0 <= Layout.count h c ->
  (j + Z.to_nat (Layout.count h c) <= length body)%nat ->
  Layout.run h (pre ++ flat_map pack_h body ++ post) blk c
  = firstn (Z.to_nat (Layout.count h c)) (skipn j body).
Proof.
  intros Hpre Hbody Hk Hc Hj. unfold Layout.run, Layout.offset.
  rewrite <- Z.add_assoc, Hk, <- Hpre.
  apply (fromfile_samples pre body post j _ Hbody Hc Hj).
Qed.

(** In [mixed_rate_file] (4 and 2 samples per record), channel 1 of
    block 0 is preceded by 4 samples: its run is fetched from index 2 of
    the body, and is 3, 4 and not the stored 5, 6. *)
Lemma X11_fetched_run_witness :
  exists self,
    Edf.__init__ Examples.mixed_rate_file = Ok self
    /\ Examples.mixed_rate_file
       = Examples.mixed_rate_header
           ++ flat_map pack_h [1; 2; 3; 4; 5; 6; 7; 8; 9; 10; 11; 12] ++ []
    /\ Layout.run (Edf.hdr self) Examples.mixed_rate_file 0 1 = [3; 4].
Proof.
  eexists.
  match goal with
  | |- Edf.__init__ ?file = Ok ?s /\ _ =>
      assert (Hinit : Edf.__init__ file = Ok s) by (vm_compute; reflexivity)
  end.
  split; [exact Hinit|].
  assert (E : Examples.mixed_rate_file
              = Examples.mixed_rate_header
                  ++ flat_map pack_h [1; 2; 3; 4; 5; 6; 7; 8; 9; 10; 11; 12]
                  ++ []) by (vm_compute; reflexivity).
  split; [exact E|]. rewrite E.
  match goal with
  | |- Layout.run ?h _ _ _ = _ =>
      rewrite (X11_fetched_run h Examples.mixed_rate_header []
                 [1; 2; 3; 4; 5; 6; 7; 8; 9; 10; 11; 12] 0 1 2)
  end.
  - reflexivity.
  - vm_compute. reflexivity.
  - repeat constructor; vm_compute; discriminate.
  - vm_compute. reflexivity.
  - vm_compute. discriminate.
  - vm_compute. lia.
Defined.

(** ** Numbers as decimal text *)

Lemma ubytes_cons c s :
  list_byte_of_string (String c s) = byte_of_ascii c :: list_byte_of_string s.
Proof. reflexivity. Qed.

Lemma digits_loop_cons b l acc n prev :
  digits_loop (b :: l) acc n prev
  = if is_digit b then digits_loop l (10 * acc + digit_val b) (S n) true
    else if (code b =? 95) && prev then
      match l with
      | d :: _ => if is_digit d then digits_loop l acc n false
                  else (acc, n, b :: l)
      | [] => (acc, n, b :: l)
      end
    else (acc, n, b :: l).
Proof. reflexivity. Qed.

Lemma digits_loop_acc d : forall rest acc n prev,
  (forall b t, rest = b :: t -> is_digit b = false /\ code b <> 95) ->
  digits_loop (ubytes d ++ rest) (Zpos acc) n prev
  = (Zpos (Pos.of_uint_acc d acc), (n + length (ubytes d))%nat, rest).
Proof.
  unfold ubytes, bytes_of_string.
  induction d as [|d IH|d IH|d IH|d IH|d IH|d IH|d IH|d IH|d IH|d IH];
    intros rest acc n prev Hrest;
    cbn [NilEmpty.string_of_uint]; rewrite ?ubytes_cons;
    try change (list_byte_of_string "") with (@nil byte);
    cbn [app length Pos.of_uint_acc];
    try (rewrite digits_loop_cons;
         match goal with
         | |- context [is_digit (byte_of_ascii ?c)] =>
             change (is_digit (byte_of_ascii c)) with true;
             let v := eval vm_compute in (digit_val (byte_of_ascii c)) in
             change (digit_val (byte_of_ascii c)) with v
         end;
         cbv iota;
         match goal with
         | |- digits_loop _ ?a _ _ = _ =>
             match goal with
             | |- _ = (Zpos (Pos.of_uint_acc _ ?p), _, _) =>
                 replace a with (Zpos p) by lia
             end
         end;
         rewrite (IH rest _ (S n) true Hrest); f_equal; f_equal; lia).
  rewrite Nat.add_0_r.
  destruct rest as [|b t]; [reflexivity|].
  destruct (Hrest b t eq_refl) as [H1 H2].
  rewrite digits_loop_cons, H1.
  replace (code b =? 95) with false by (symmetry; apply Z.eqb_neq; exact H2).
  reflexivity.
Qed.

Lemma length_ubytes_pos d : d <> Decimal.Nil -> (0 < length (ubytes d))%nat.
Proof.
  unfold ubytes, bytes_of_string.
  destruct d; [contradiction| | | | | | | | | |]; intros _;
    cbn [NilEmpty.string_of_uint]; rewrite ubytes_cons; cbn [length]; lia.
Qed.

Lemma digits_loop_uint d : forall rest n prev,
  (forall b t, rest = b :: t -> is_digit b = false /\ code b <> 95) ->
  digits_loop (ubytes d ++ rest) 0 n prev
  = (Z.of_N (Pos.of_uint d), (n + length (ubytes d))%nat, rest).
Proof.
  unfold ubytes, bytes_of_string.
  induction d as [|d IH|d IH|d IH|d IH|d IH|d IH|d IH|d IH|d IH|d IH];
    intros rest n prev Hrest;
    cbn [NilEmpty.string_of_uint]; rewrite ?ubytes_cons;
    try change (list_byte_of_string "") with (@nil byte);
    cbn [app length Pos.of_uint].
  - rewrite Nat.add_0_r.
    destruct rest as [|b t]; [reflexivity|].
    destruct (Hrest b t eq_refl) as [H1 H2].
    rewrite digits_loop_cons, H1.
    replace (code b =? 95) with false by (symmetry; apply Z.eqb_neq; exact H2).
    reflexivity.
  - rewrite digits_loop_cons.
    change (is_digit (byte_of_ascii "0")) with true. cbv iota.
    change (10 * 0 + digit_val (byte_of_ascii "0")) with 0.
    rewrite (IH rest (S n) true Hrest). f_equal. f_equal. lia.
  - rewrite digits_loop_cons. change (is_digit (byte_of_ascii "1")) with true. cbv iota.
    change (10 * 0 + digit_val (byte_of_ascii "1")) with (Zpos 1).
    pose proof (digits_loop_acc d rest 1 (S n) true Hrest) as H.
    unfold ubytes, bytes_of_string in H. rewrite H. f_equal. f_equal. lia.
  - rewrite digits_loop_cons. change (is_digit (byte_of_ascii "2")) with true. cbv iota.
    change (10 * 0 + digit_val (byte_of_ascii "2")) with (Zpos 2).
    pose proof (digits_loop_acc d rest 2 (S n) true Hrest) as H.
    unfold ubytes, bytes_of_string in H. rewrite H. f_equal. f_equal. lia.
  - rewrite digits_loop_cons. change (is_digit (byte_of_ascii "3")) with true. cbv iota.
    change (10 * 0 + digit_val (byte_of_ascii "3")) with (Zpos 3).
    pose proof (digits_loop_acc d rest 3 (S n) true Hrest) as H.
    unfold ubytes, bytes_of_string in H. rewrite H. f_equal. f_equal. lia.
  - rewrite digits_loop_cons. change (is_digit (byte_of_ascii "4")) with true. cbv iota.
    change (10 * 0 + digit_val (byte_of_ascii "4")) with (Zpos 4).
    pose proof (digits_loop_acc d rest 4 (S n) true Hrest) as H.
    unfold ubytes, bytes_of_string in H. rewrite H. f_equal. f_equal. lia.
  - rewrite digits_loop_cons. change (is_digit (byte_of_ascii "5")) with true. cbv iota.
    change (10 * 0 + digit_val (byte_of_ascii "5")) with (Zpos 5).
    pose proof (digits_loop_acc d rest 5 (S n) true Hrest) as H.
    unfold ubytes, bytes_of_string in H. rewrite H. f_equal. f_equal. lia.
  - rewrite digits_loop_cons. change (is_digit (byte_of_ascii "6")) with true. cbv iota.
    change (10 * 0 + digit_val (byte_of_ascii "6")) with (Zpos 6).
    pose proof (digits_loop_acc d rest 6 (S n) true Hrest) as H.
    unfold ubytes, bytes_of_string in H. rewrite H. f_equal. f_equal. lia.
  - rewrite digits_loop_cons. change (is_digit (byte_of_ascii "7")) with true. cbv iota.
    change (10 * 0 + digit_val (byte_of_ascii "7")) with (Zpos 7).
    pose proof (digits_loop_acc d rest 7 (S n) true Hrest) as H.
    unfold ubytes, bytes_of_string in H. rewrite H. f_equal. f_equal. lia.
  - rewrite digits_loop_cons. change (is_digit (byte_of_ascii "8")) with true. cbv iota.
    change (10 * 0 + digit_val (byte_of_ascii "8")) with (Zpos 8).
    pose proof (digits_loop_acc d rest 8 (S n) true Hrest) as H.
    unfold ubytes, bytes_of_string in H. rewrite H. f_equal. f_equal. lia.
  - rewrite digits_loop_cons. change (is_digit (byte_of_ascii "9")) with true. cbv iota.
    change (10 * 0 + digit_val (byte_of_ascii "9")) with (Zpos 9).
    pose proof (digits_loop_acc d rest 9 (S n) true Hrest) as H.
    unfold ubytes, bytes_of_string in H. rewrite H. f_equal. f_equal. lia.
Qed.

Lemma ubytes_digits d : Forall (fun b => is_digit b = true) (ubytes d).
Proof.
  unfold ubytes, bytes_of_string.
  induction d; cbn [NilEmpty.string_of_uint]; rewrite ?ubytes_cons;
    try (constructor; [reflexivity | assumption]).
  constructor.
Qed.

(** The text of an integer: an optional minus sign and the digits of
    its absolute value. *)
Lemma str_of_int_shape z :
  exists d,
    d <> Decimal.Nil
    /\ Z.of_N (Pos.of_uint d) = Z.abs z
    /\ str_of_int z = (if z <? 0 then [minus_sign] else []) ++ ubytes d.
Proof.
  unfold str_of_int. destruct z as [|p|p].
  - exists (Decimal.D0 Decimal.Nil). split; [discriminate|]. split; reflexivity.
  - exists (Pos.to_uint p). split; [apply Unsigned.to_uint_nonnil|].
    split; [rewrite Unsigned.of_to; reflexivity|].
    cbn [Z.to_int NilZero.string_of_int Z.ltb Z.compare app].
    unfold NilZero.string_of_uint.
    pose proof (Unsigned.to_uint_nonnil p) as Hn.
    destruct (Pos.to_uint p); [contradiction | reflexivity ..].
  - exists (Pos.to_uint p). split; [apply Unsigned.to_uint_nonnil|].
    split; [rewrite Unsigned.of_to; reflexivity|].
    cbn [Z.to_int NilZero.string_of_int Z.ltb Z.compare].
    unfold NilZero.string_of_uint.
    pose proof (Unsigned.to_uint_nonnil p) as Hn.
    destruct (Pos.to_uint p); [contradiction | reflexivity ..].
Qed.

Lemma digit_not_space b : is_digit b = true -> is_space b = false.
Proof.
  unfold is_digit, is_space. intros H. apply andb_prop in H.
  destruct H as [H1 H2]. apply Z.leb_le in H1. apply Z.leb_le in H2.
  destruct (Z.eqb_spec (code b) 32); [lia|]. simpl.
  destruct (Z.leb_spec 9 (code b)); [|reflexivity].
  destruct (Z.leb_spec (code b) 13); [lia | reflexivity].
Qed.

Lemma str_of_int_no_space z :
  Forall (fun b => is_space b = false) (str_of_int z).
Proof.
  destruct (str_of_int_shape z) as (d & _ & _ & ->).
  apply Forall_app. split.
  - destruct (z <? 0); constructor; [reflexivity | constructor].
  - eapply Forall_impl; [|apply ubytes_digits]. apply digit_not_space.
Qed.

Lemma lstrip_no_space l :
  Forall (fun b => is_space b = false) l -> Py.lstrip l = l.
Proof. destruct 1 as [|b l Hb _]; simpl; [reflexivity | rewrite Hb; reflexivity]. Qed.

Lemma lstrip_spaces k l : Py.lstrip (List.repeat space k ++ l) = Py.lstrip l.
Proof. induction k as [|k IH]; [reflexivity | exact IH]. Qed.

Lemma rev_repeat {A} (a : A) k : rev (List.repeat a k) = List.repeat a k.
Proof.
  induction k as [|k IH]; [reflexivity|]. simpl. rewrite IH.
  clear IH. induction k as [|k IH]; [reflexivity|]. simpl. rewrite IH. reflexivity.
Qed.

Lemma lstrip_repeat k : Py.lstrip (List.repeat space k) = [].
Proof. induction k as [|k IH]; [reflexivity | exact IH]. Qed.

(** Stripping a left-justified field gives back what was justified. *)
Lemma strip_ljust w s :
  Forall (fun b => is_space b = false) s ->
  Py.strip (ljust w space s) = s.
Proof.
  intros Hs. unfold Py.strip, ljust.
  destruct s as [|a s].
  - cbn [app]. rewrite lstrip_repeat. reflexivity.
  - assert (Ha : is_space a = false) by (inversion Hs; assumption).
    cbn [app Py.lstrip]. rewrite Ha.
    change (a :: s ++ List.repeat space (w - length (a :: s)))
      with ((a :: s) ++ List.repeat space (w - length (a :: s))).
    rewrite rev_app_distr, rev_repeat, lstrip_spaces.
    rewrite lstrip_no_space by (apply Forall_rev; exact Hs).
    apply rev_involutive.
Qed.

Lemma digit_code b : is_digit b = true -> 48 <= code b <= 57.
Proof.
  unfold is_digit. intros H. apply andb_prop in H. destruct H as [H1 H2].
  apply Z.leb_le in H1. apply Z.leb_le in H2. lia.
Qed.

Lemma sign_digits d :
  d <> Decimal.Nil -> sign (ubytes d) = (false, ubytes d).
Proof.
  intros Hd. pose proof (ubytes_digits d) as Hdig.
  pose proof (length_ubytes_pos d Hd) as Hlen.
  destruct (ubytes d) as [|b l]; [simpl in Hlen; lia|].
  inversion Hdig as [|? ? Hb _]; subst. apply digit_code in Hb.
  unfold sign.
  replace (code b =? 45) with false by (symmetry; apply Z.eqb_neq; lia).
  replace (code b =? 43) with false by (symmetry; apply Z.eqb_neq; lia).
  reflexivity.
Qed.

Lemma digits_ubytes d :
  d <> Decimal.Nil ->
  exists n, digits (ubytes d) = (Z.of_N (Pos.of_uint d), S n, []).
Proof.
  intros Hd. unfold digits.
  pose proof (digits_loop_uint d [] 0 false ltac:(discriminate)) as H.
  rewrite app_nil_r in H. rewrite H.
  pose proof (length_ubytes_pos d Hd) as Hlen.
  destruct (length (ubytes d)) as [|n]; [lia|]. exists n. reflexivity.
Qed.

(** What [int()] and [float()] make of the text of an integer and of
    that text with its sign removed. *)
Lemma signed_digits z :
  exists neg r n,
    sign (str_of_int z) = (neg, r)
    /\ digits r = (Z.abs z, S n, [])
    /\ z = if neg then - Z.abs z else Z.abs z.
Proof.
  destruct (str_of_int_shape z) as (d & Hd & Hv & ->).
  destruct (digits_ubytes d Hd) as (n & Hn). rewrite Hv in Hn.
  destruct (Z.ltb_spec z 0) as [Hneg|Hpos].
  - exists true, (ubytes d), n. split; [reflexivity|]. split; [exact Hn | lia].
  - exists false, (ubytes d), n. cbn [app].
    split; [apply sign_digits; exact Hd|]. split; [exact Hn | lia].
Qed.

(** An integer formatted left-justified in a field is read back
    by [int()] and by [float()] as itself, whatever the width. *)
Lemma int_fmt_int w z : Py.int (fmt_int w z) = Ok z.
Proof.
  unfold Py.int, fmt_int. rewrite strip_ljust by apply str_of_int_no_space.
  destruct (signed_digits z) as (neg & r & n & -> & -> & Hz).
  f_equal. symmetry. exact Hz.
Qed.

Lemma float_fmt_int w z : Py.float (fmt_int w z) = Ok (inject_Z z).
Proof.
  unfold Py.float, fmt_int. rewrite strip_ljust by apply str_of_int_no_space.
  destruct (signed_digits z) as (neg & r & n & -> & -> & Hz).
  cbv beta iota zeta. cbn [Nat.add].
  generalize dependent (Z.abs z). intros v Hz.
  unfold inject_Z. f_equal.
  destruct neg; subst z;
    unfold Qopp, Qmult, Qplus, Qdiv, Qinv, Qpower; simpl; f_equal; lia.
Qed.

(** ** Reading a file given as a sequence of fields *)

Lemma located_start F : located F 0 F.
Proof. exists []. split; reflexivity. Qed.

Lemma located_read F p field rest :
  located F p (field ++ rest) ->
  Edf.read (length field) F p = Ok (field, p + Z.of_nat (length field))
  /\ located F (p + Z.of_nat (length field)) rest.
Proof.
  intros (pre & -> & <-). split.
  - unfold Edf.read, chunk. rewrite Nat2Z.id.
    rewrite <- (Nat.add_0_r (length pre)), skipn_app_length. cbn [skipn].
    rewrite firstn_app, Nat.sub_diag, firstn_all. cbn [firstn].
    rewrite app_nil_r. reflexivity.
  - exists (pre ++ field). split; [apply app_assoc|].
    rewrite length_app. lia.
Qed.

Lemma iobind_step {A B} (m : Edf.io A) (k : A -> Edf.io B) f p a p' :
  m f p = Ok (a, p') -> Edf.iobind m k f p = k a f p'.
Proof. intros H. unfold Edf.iobind. rewrite H. reflexivity. Qed.

Lemma reads_parsed {A} (parse : bytes -> result A) w :
  reads_field (Edf.iobind (Edf.read w) (fun b => Edf.lift (parse b))) w
              (fun field v => parse field = Ok v).
Proof.
  intros F p field rest v Hloc Hlen Hv. subst w.
  destruct (located_read _ _ _ _ Hloc) as [Hr Hloc'].
  split; [|exact Hloc'].
  rewrite (iobind_step _ _ _ _ _ _ Hr). unfold Edf.lift. rewrite Hv. reflexivity.
Qed.

Lemma reads_int w : reads_field (Edf.read_int w) w (fun field v => Py.int field = Ok v).
Proof. apply reads_parsed. Qed.

Lemma reads_float w :
  reads_field (Edf.read_float w) w (fun field v => Py.float field = Ok v).
Proof. apply reads_parsed. Qed.

Lemma reads_text w :
  reads_field (Edf.read_text w) w
              (fun field v => exists s, decode_utf8 field = Ok s /\ v = Text.strip s).
Proof.
  intros F p field rest v Hloc Hlen (s & Hs & ->). subst w.
  destruct (located_read _ _ _ _ Hloc) as [Hr Hloc'].
  split; [|exact Hloc'].
  unfold Edf.read_text. rewrite (iobind_step _ _ _ _ _ _ Hr).
  unfold Edf.iobind, Edf.lift, Edf.ret. rewrite Hs. reflexivity.
Qed.

Lemma reads_triple :
  reads_field Edf.read_triple 8
              (fun field v => exists s x y z,
                   decode_utf8 field = Ok s
                   /\ findall_ints s None = [x; y; z] /\ v = (x, y, z)).
Proof.
  intros F p field rest v Hloc Hlen (s & x & y & z & Hs & Hf & ->).
  destruct (located_read _ _ _ _ Hloc) as [Hr Hloc'].
  rewrite Hlen in Hr, Hloc'.
  split; [|exact Hloc'].
  unfold Edf.read_triple. rewrite (iobind_step _ _ _ _ _ _ Hr).
  unfold Edf.iobind at 1. unfold Edf.lift at 1. rewrite Hs. rewrite Hf.
  reflexivity.
Qed.

Lemma located_seek F p skip rest :
  located F p (skip ++ rest) ->
  Edf.seek_cur (Z.of_nat (length skip)) F p
  = Ok (tt, p + Z.of_nat (length skip))
  /\ located F (p + Z.of_nat (length skip)) rest.
Proof.
  intros (pre & -> & <-). split.
  - unfold Edf.seek_cur.
    destruct (Z.ltb_spec (Z.of_nat (length pre) + Z.of_nat (length skip)) 0);
      [lia | reflexivity].
  - exists (pre ++ skip). split; [apply app_assoc|]. rewrite length_app. lia.
Qed.

Lemma located_for_range {A} (m : Edf.io A) w good :
  reads_field m w good ->
  forall fields vs,
    Forall2 good fields vs -> Forall (fun fld => length fld = w) fields ->
    forall F p rest,
      located F p (concat fields ++ rest) ->
      Edf.for_range (length fields) m F p
      = Ok (vs, p + Z.of_nat (length fields) * Z.of_nat w)
      /\ located F (p + Z.of_nat (length fields) * Z.of_nat w) rest.
Proof.
  intros Hm fields vs H2. induction H2 as [|fld v fields vs Hg _ IH];
    intros Hw F p rest Hloc.
  - cbn [length Edf.for_range concat app] in *. unfold Edf.ret.
    replace (p + Z.of_nat 0 * Z.of_nat w) with p by lia. auto.
  - apply Forall_cons_iff in Hw. destruct Hw as [Hlen Hw].
    cbn [concat] in Hloc. rewrite <- app_assoc in Hloc.
    destruct (Hm F p fld _ v Hloc Hlen Hg) as [Hstep Hloc1].
    destruct (IH Hw F _ rest Hloc1) as [Hrest Hloc2].
    cbn [length Edf.for_range].
    rewrite (iobind_step _ _ _ _ _ _ Hstep), (iobind_step _ _ _ _ _ _ Hrest).
    unfold Edf.ret.
    replace (p + Z.of_nat (S (length fields)) * Z.of_nat w)
      with (p + Z.of_nat w + Z.of_nat (length fields) * Z.of_nat w) by lia.
    auto.
Qed.

(** The same field repeated for every channel. *)
Lemma Forall2_repeat {A B} (good : A -> B -> Prop) a b n :
  good a b -> Forall2 good (List.repeat a n) (List.repeat b n).
Proof. intros H. induction n; simpl; constructor; assumption. Qed.

Lemma Forall_repeat {A} (P : A -> Prop) a n : P a -> Forall P (List.repeat a n).
Proof. intros H. induction n; simpl; constructor; assumption. Qed.

(** ** Text fields and time stamps *)

Lemma decode_ascii l :
  Forall (fun b => code b < 128) l -> decode_utf8 l = Ok (map code l).
Proof.
  induction 1 as [|b l Hb _ IH]; [reflexivity|].
  cbn [decode_utf8 map]. cbv zeta.
  replace (code b <? 128) with true by (symmetry; apply Z.ltb_lt; exact Hb).
  rewrite IH. reflexivity.
Qed.

Lemma encode_ascii_inv s l :
  encode_ascii s = Ok l ->
  Forall (fun b => code b < 128) l /\ map code l = s /\ length l = length s.
Proof.
  unfold encode_ascii. intros H. apply mapM_inv in H.
  induction H as [|c b s l Hc _ IH]; [repeat split; constructor|].
  destruct IH as (H1 & H2 & H3).
  destruct (Z.leb_spec 0 c) as [H0|]; [|discriminate].
  destruct (Z.ltb_spec c 128) as [H128|]; [|discriminate].
  simpl in Hc. inversion Hc; subst b.
  assert (Hcode : code (byte_of c) = c) by (apply code_byte_of; lia).
  split; [constructor; [lia | exact H1]|].
  split; simpl; congruence.
Qed.

Lemma findall_cons c s cur :
  findall_ints (c :: s) cur
  = if isdigit c then
      findall_ints s (Some (10 * (match cur with Some v => v | None => 0 end)
                            + (c - 48)))
    else match cur with
         | Some v => v :: findall_ints s None
         | None => findall_ints s None
         end.
Proof. reflexivity. Qed.

Lemma isdigit_digit a : 0 <= a <= 9 -> isdigit (48 + a) = true.
Proof.
  intros H. unfold isdigit. apply andb_true_intro.
  split; apply Z.leb_le; lia.
Qed.

Lemma findall_three a1 b1 a2 b2 a3 b3 :
  0 <= a1 <= 9 -> 0 <= b1 <= 9 -> 0 <= a2 <= 9 -> 0 <= b2 <= 9 ->
  0 <= a3 <= 9 -> 0 <= b3 <= 9 ->
  findall_ints [48 + a1; 48 + b1; 46; 48 + a2; 48 + b2; 46; 48 + a3; 48 + b3]
               None
  = [10 * a1 + b1; 10 * a2 + b2; 10 * a3 + b3].
Proof.
  intros.
  repeat (rewrite findall_cons;
          first [ rewrite isdigit_digit by assumption
                | change (isdigit 46) with false ];
          cbv iota).
  cbn [findall_ints]. f_equal; [lia|]. f_equal; [lia|]. f_equal. lia.
Qed.

Lemma two_digits_codes z :
  0 <= z <= 99 ->
  map code (two_digits z) = [48 + z / 10; 48 + z mod 10]
  /\ 0 <= z / 10 <= 9 /\ 0 <= z mod 10 <= 9
  /\ 10 * (z / 10) + z mod 10 = z.
Proof.
  intros Hz.
  assert (H1 : 0 <= z / 10 <= 9)
    by (split; [apply Z.div_pos; lia
               | apply Z.lt_succ_r; apply Z.div_lt_upper_bound; lia]).
  assert (H2 : 0 <= z mod 10 < 10) by (apply Z.mod_pos_bound; lia).
  split; [|split; [exact H1 | split; [lia|]]].
  - unfold two_digits. cbn [map].
    rewrite (Z.mod_small (z / 10) 10) by lia.
    rewrite !code_byte_of by lia. reflexivity.
  - pose proof (Z.div_mod z 10 ltac:(lia)). lia.
Qed.

Lemma two_digits_ascii v :
  0 <= v <= 99 -> Forall (fun b => code b < 128) (two_digits v).
Proof.
  intros Hv. destruct (two_digits_codes v Hv) as (E & ? & ? & _).
  cbn [map two_digits] in E.
  assert (E1 : code (byte_of (48 + (v / 10) mod 10)) = 48 + v / 10)
    by congruence.
  assert (E2 : code (byte_of (48 + v mod 10)) = 48 + v mod 10) by congruence.
  unfold two_digits. repeat constructor; lia.
Qed.

(** A field of three two-digit numbers, such as a date or a time, is
    read back as those numbers. *)
Lemma three_numbers x y z :
  0 <= x <= 99 -> 0 <= y <= 99 -> 0 <= z <= 99 ->
  let field := two_digits x ++ [dot] ++ two_digits y ++ [dot] ++ two_digits z in
  length field = 8%nat
  /\ exists s, decode_utf8 field = Ok s /\ findall_ints s None = [x; y; z].
Proof.
  intros Hx Hy Hz. cbv zeta. split; [reflexivity|].
  destruct (two_digits_codes x Hx) as (Ex & ? & ? & Ex').
  destruct (two_digits_codes y Hy) as (Ey & ? & ? & Ey').
  destruct (two_digits_codes z Hz) as (Ez & ? & ? & Ez').
  eexists. split.
  - apply decode_ascii.
    pose proof two_digits_ascii as Hd.
    repeat (apply Forall_app; split); auto;
      constructor; [vm_compute; reflexivity | constructor
                   | vm_compute; reflexivity | constructor].
  - rewrite !map_app, Ex, Ey, Ez. cbn [map app].
    change (code dot) with 46.
    rewrite findall_three by assumption. congruence.
Qed.

(** The two-digit year survives exactly between 1985 and 2084. *)
Lemma y2k_two_digits y :
  1985 <= y <= 2084 -> Edf.y2k (y mod 100) = y /\ 0 <= y mod 100 <= 99.
Proof.
  intros Hy. unfold Edf.y2k.
  destruct (Z_lt_le_dec y 2000) as [H19|H20].
  - assert (E : y mod 100 = y - 1900)
      by (symmetry; apply (Z.mod_unique y 100 19); lia).
    rewrite E. destruct (Z.leb_spec 85 (y - 1900)); lia.
  - assert (E : y mod 100 = y - 2000)
      by (symmetry; apply (Z.mod_unique y 100 20); lia).
    rewrite E. destruct (Z.leb_spec 85 (y - 2000)); lia.
Qed.

(** ** Reading back the header that [write_edf] wrote *)

Lemma length_fmt_int w z : fits w z -> length (fmt_int w z) = w.
Proof.
  unfold fits, fmt_int, ljust. intros H.
  rewrite length_app, repeat_length. lia.
Qed.

Lemma step_tell {B} (k : Z -> Edf.io B) F p :
  Edf.iobind Edf.tell k F p = k p F p.
Proof. reflexivity. Qed.

Lemma step_lift {A B} (k : A -> Edf.io B) F p v :
  Edf.iobind (Edf.lift (Ok v)) k F p = k v F p.
Proof. reflexivity. Qed.

Lemma step_read {B} (k : bytes -> Edf.io B) F p w field rest R :
  located F p (field ++ rest) -> length field = w ->
  (located F (p + Z.of_nat w) rest -> k field F (p + Z.of_nat w) = R) ->
  Edf.iobind (Edf.read w) k F p = R.
Proof.
  intros Hloc Hlen Hk. subst w.
  destruct (located_read _ _ _ _ Hloc) as [Hr Hloc'].
  rewrite (iobind_step _ _ _ _ _ _ Hr). auto.
Qed.

Lemma step_field {A B} (m : Edf.io A) w good (k : A -> Edf.io B)
      F p field rest v R :
  reads_field m w good ->
  located F p (field ++ rest) -> length field = w -> good field v ->
  (located F (p + Z.of_nat w) rest -> k v F (p + Z.of_nat w) = R) ->
  Edf.iobind m k F p = R.
Proof.
  intros Hm Hloc Hlen Hgood Hk.
  destruct (Hm _ _ _ _ _ Hloc Hlen Hgood) as [Hr Hloc'].
  rewrite (iobind_step _ _ _ _ _ _ Hr). auto.
Qed.

Lemma step_for_range {A B} (m : Edf.io A) w good (k : list A -> Edf.io B)
      F p n fields rest vs R :
  reads_field m w good ->
  located F p (concat fields ++ rest) -> length fields = n ->
  Forall (fun fld => length fld = w) fields -> Forall2 good fields vs ->
  (located F (p + Z.of_nat n * Z.of_nat w) rest ->
   k vs F (p + Z.of_nat n * Z.of_nat w) = R) ->
  Edf.iobind (Edf.for_range n m) k F p = R.
Proof.
  intros Hm Hloc Hn Hlen Hgood Hk. subst n.
  destruct (located_for_range m w good Hm fields vs Hgood Hlen F p rest Hloc)
    as [Hr Hloc'].
  rewrite (iobind_step _ _ _ _ _ _ Hr). auto.
Qed.

Lemma step_seek {B} (k : unit -> Edf.io B) F p off skip rest R :
  located F p (skip ++ rest) -> Z.of_nat (length skip) = off ->
  (located F (p + off) rest -> k tt F (p + off) = R) ->
  Edf.iobind (Edf.seek_cur off) k F p = R.
Proof.
  intros Hloc Hlen Hk. subst off.
  destruct (located_seek _ _ _ _ Hloc) as [Hr Hloc'].
  rewrite (iobind_step _ _ _ _ _ _ Hr). auto.
Qed.

Lemma text_field w s :
  decode_utf8 (fmt_bytes w s) = Ok (map code (fmt_bytes w s)) ->
  exists d, decode_utf8 (fmt_bytes w s) = Ok d
            /\ Text.strip (map code (fmt_bytes w s)) = Text.strip d.
Proof. intros H. eexists. split; [exact H | reflexivity]. Qed.

Lemma length_concat_repeat {A} (b : list A) n :
  length (concat (List.repeat b n)) = (n * length b)%nat.
Proof.
  induction n; simpl; [reflexivity|]. rewrite length_app, IHn. reflexivity.
Qed.

Lemma labels_read (chan : list str) (labels : list bytes) :
  Forall (fun c => (length c <= 16)%nat) chan ->
  mapM (fun c => encode_ascii (ljust 16 32 c)) chan = Ok labels ->
  length labels = length chan
  /\ Forall (fun fld => length fld = 16%nat) labels
  /\ Forall2 (fun field v =>
                exists s, decode_utf8 field = Ok s /\ v = Text.strip s)
             labels (map (fun c => Text.strip (ljust 16 32 c)) chan).
Proof.
  intros Hc H. split; [eapply mapM_length; exact H|].
  apply mapM_inv in H. induction H as [|c b chan labels Hb _ IH].
  - split; constructor.
  - apply Forall_cons_iff in Hc. destruct Hc as [Hc Hcs].
    destruct (IH Hcs) as [IH1 IH2].
    destruct (encode_ascii_inv _ _ Hb) as (Ha & Hm & Hl).
    split; constructor; auto.
    + rewrite Hl. unfold ljust. rewrite length_app, repeat_length. lia.
    + exists (ljust 16 32 c). split; [|reflexivity].
      rewrite <- Hm. apply decode_ascii. exact Ha.
Qed.

Lemma fits_small w z : (length (str_of_int z) <=? w)%nat = true -> fits w z.
Proof. apply Nat.leb_le. Qed.

Lemma length_concat_fields {A} (fields : list (list A)) w :
  Forall (fun fld => length fld = w) fields ->
  length (concat fields) = (length fields * w)%nat.
Proof.
  induction 1 as [|f fields Hf _ IH]; [reflexivity|].
  cbn [concat length]. rewrite length_app, IH, Hf. reflexivity.
Qed.

Ltac next :=
  match goal with H : located _ _ _ |- _ => clear H end;
  let H := fresh "Hloc" in intros H; cbv beta.

Lemma ok_inj {A} (a b : A) : Ok a = Ok b -> a = b.
Proof. congruence. Qed.

Lemma header_read_back str_of_float data a file st t pm :
  write_edf str_of_float data a = Ok file ->
  start_time data = Some st -> add_seconds st (time0 data) = Ok t ->
  resolve_physical_max a data = Ok (PyInt pm) ->
  new_datetime (year t) (month t) (day t) (hour t) (minute t) (second t) = Ok t ->
  1985 <= year t <= 2084 ->
  Forall (fun c => (length c <= 16)%nat) (chan data) ->
  fits 4 (number_of_chan data) ->
  fits 8 (256 + 256 * number_of_chan data) ->
  fits 8 (Z.of_nat (Np.ncols (data0 data)) / Qtrunc (s_freq data)) ->
  fits 8 (Qtrunc (s_freq data)) ->
  fits 8 pm -> fits 8 (-1 * pm) ->
  exists body,
    Edf.read_fields file 0
    = Ok (header_of data t pm, 256 + 256 * number_of_chan data)
    /\ located file (256 + 256 * number_of_chan data) (concat body)
    /\ mapM (fun i => pack_record (Qtrunc (s_freq data) * number_of_chan data)
                        (encode (inject_Z pm) (data0 data))
                        (Z.of_nat i * Qtrunc (s_freq data))
                        (Z.of_nat i * Qtrunc (s_freq data) + Qtrunc (s_freq data)))
            (seq 0 (Z.to_nat (Z.of_nat (Np.ncols (data0 data))
                              / Qtrunc (s_freq data))))
       = Ok body.
Proof.
  intros Hw Hst Hadd Hres Hvalid Hyear Hchan F1 F2 F3 F4 F5 F6.
  unfold write_edf in Hw.
  apply bind_ok in Hw. destruct Hw as (st' & Hst' & Hw).
  rewrite Hst in Hst'. apply ok_inj in Hst'. subst st'.
  apply bind_ok in Hw. destruct Hw as (t' & Ht' & Hw).
  rewrite Hadd in Ht'. apply ok_inj in Ht'. subst t'.
  apply bind_ok in Hw. destruct Hw as (pm' & Hpm' & Hw).
  rewrite Hres in Hpm'. apply ok_inj in Hpm'. subst pm'.
  apply bind_ok in Hw. destruct Hw as (nrec & Hnrec & Hw).
  destruct (Qtrunc (s_freq data) =? 0); [discriminate|].
  apply ok_inj in Hnrec. subst nrec.
  apply bind_ok in Hw. destruct Hw as (labels & El & Hw).
  apply bind_ok in Hw. destruct Hw as (body & Eb & Hw).
  apply ok_inj in Hw. exists body.
  change (value (PyInt pm)) with (inject_Z pm) in Eb.
  split; [|split; [|exact Eb]].
  2: { subst file. eexists. split; [reflexivity|].
       destruct (labels_read _ _ Hchan El) as (Hn & Hl16 & _).
       unfold number_of_chan in *. rewrite Nat2Z.id.
       cbn [fmt_num negated].
       repeat rewrite length_app. 
       change (@List.repeat bytes) with (@List.repeat (list byte)).
       rewrite !length_concat_repeat.
       rewrite !length_fmt_int by (first [assumption | apply fits_small; vm_compute; reflexivity]).
       rewrite !repeat_length.
       assert (Hcat : length (concat labels) = (length (chan data) * 16)%nat)
         by (rewrite (length_concat_fields labels 16 Hl16); f_equal; exact Hn).
       rewrite Hcat.
       change (length (fmt_bytes 80 "X X X X")) with 80%nat.
       change (length (fmt_bytes 80 "Startdate X X X X")) with 80%nat.
       change (length (fmt_bytes 80 "")) with 80%nat.
       change (length (fmt_bytes 8 "uV")) with 8%nat.
       change (length (strftime_date t)) with 8%nat.
       change (length (strftime_time t)) with 8%nat.
       lia. }
  pose proof (located_start file) as Hloc.
  rewrite <- Hw in Hloc at 2. rewrite <- !app_assoc in Hloc. clear Hw.
  destruct (labels_read _ _ Hchan El) as (Hn & Hl16 & Hlabels).
  unfold number_of_chan in *.
  set (n := length (chan data)) in *.
  rewrite Nat2Z.id in Hloc.
  cbn [fmt_num negated] in Hloc.
  unfold Edf.read_fields.
  rewrite step_tell.
  change (Py.assert (0 =? 0)) with (@Ok unit tt). rewrite step_lift.
  eapply (step_read _ file 0 8 (fmt_int 8 0) _ _ Hloc); [reflexivity|].
  clear Hloc; intros Hloc.
  change (Py.assert (bytes_eqb (fmt_int 8 0) (bytes_of_string "0       ")))
    with (@Ok unit tt).
  rewrite step_lift.
  eapply step_field with (field := fmt_bytes 80 "X X X X")
                          (v := text "X X X X");
    [apply reads_text | exact Hloc | reflexivity
    | exists (map code (fmt_bytes 80 "X X X X")); split; vm_compute; reflexivity
    | next ].
  eapply step_field with (field := fmt_bytes 80 "Startdate X X X X")
                          (v := text "Startdate X X X X");
    [apply reads_text | exact Hloc | reflexivity
    | exists (map code (fmt_bytes 80 "Startdate X X X X"));
      split; vm_compute; reflexivity
    | next ].
  destruct (new_datetime_ok _ _ _ _ _ _ _ Hvalid)
    as (_ & _ & Hmonth & Hday & Hhour & Hminute & Hsecond).
  assert (Hdim : days_in_month (year t) (month t) <= 31)
    by (unfold days_in_month;
        repeat match goal with |- context [if ?c then _ else _] => destruct c end;
        lia).
  destruct (y2k_two_digits _ Hyear) as [Hy2k Hyy].
  destruct (three_numbers (day t) (month t) (year t mod 100)) as (_ & sd & Hsd & Hfd);
    [lia | lia | lia |].
  destruct (three_numbers (hour t) (minute t) (second t)) as (_ & sh & Hsh & Hfh);
    [lia | lia | lia |].
  eapply step_field with (field := strftime_date t)
                          (v := (day t, month t, year t mod 100));
    [apply reads_triple | exact Hloc | reflexivity
    | exists sd, (day t), (month t), (year t mod 100); auto
    | next ].
  eapply step_field with (field := strftime_time t)
                          (v := (hour t, minute t, second t));
    [apply reads_triple | exact Hloc | reflexivity
    | exists sh, (hour t), (minute t), (second t); auto
    | next ].
  cbv beta iota. rewrite Hy2k, Hvalid, step_lift.
  eapply step_field with (field := fmt_int 8 (256 + 256 * Z.of_nat n))
                          (v := 256 + 256 * Z.of_nat n);
    [apply reads_int | exact Hloc | apply length_fmt_int; assumption
    | apply int_fmt_int | next ].
  eapply step_seek with (skip := List.repeat space 44);
    [exact Hloc | reflexivity | next ].
  eapply step_field
    with (field := fmt_int 8 (Z.of_nat (Np.ncols (data0 data))
                              / Qtrunc (s_freq data)))
         (v := Z.of_nat (Np.ncols (data0 data)) / Qtrunc (s_freq data));
    [apply reads_int | exact Hloc | apply length_fmt_int; assumption
    | apply int_fmt_int | next ].
  eapply step_field with (field := fmt_int 8 1) (v := inject_Z 1);
    [apply reads_float | exact Hloc | reflexivity
    | apply float_fmt_int | next ].
  eapply step_field with (field := fmt_int 4 (Z.of_nat n)) (v := Z.of_nat n);
    [apply reads_int | exact Hloc | apply length_fmt_int; assumption
    | apply int_fmt_int | next ].
  rewrite Nat2Z.id.
  eapply step_for_range
    with (fields := labels)
         (vs := map (fun c => Text.strip (ljust 16 32 c)) (chan data));
    [apply reads_text | exact Hloc | exact Hn | exact Hl16 | exact Hlabels
    | next ].
  eapply step_for_range
    with (fields := List.repeat (fmt_bytes 80 "") n) (vs := List.repeat [] n);
    [apply reads_text | exact Hloc | apply repeat_length
    | apply Forall_repeat; reflexivity
    | apply Forall2_repeat; exists (map code (fmt_bytes 80 ""));
      split; vm_compute; reflexivity
    | next ].
  eapply step_for_range
    with (fields := List.repeat (fmt_bytes 8 "uV") n) (vs := List.repeat (text "uV") n);
    [apply reads_text | exact Hloc | apply repeat_length
    | apply Forall_repeat; reflexivity
    | apply Forall2_repeat; exists (map code (fmt_bytes 8 "uV"));
      split; vm_compute; reflexivity
    | next ].
  eapply step_for_range
    with (fields := List.repeat (fmt_int 8 (-1 * pm)) n)
         (vs := List.repeat (inject_Z (-1 * pm)) n);
    [apply reads_float | exact Hloc | apply repeat_length
    | apply Forall_repeat; apply length_fmt_int; assumption
    | apply Forall2_repeat; apply float_fmt_int
    | next ].
  eapply step_for_range
    with (fields := List.repeat (fmt_int 8 (pm)) n)
         (vs := List.repeat (inject_Z (pm)) n);
    [apply reads_float | exact Hloc | apply repeat_length
    | apply Forall_repeat; apply length_fmt_int; assumption
    | apply Forall2_repeat; apply float_fmt_int
    | next ].
  eapply step_for_range
    with (fields := List.repeat (fmt_int 8 (DIGITAL_MIN)) n)
         (vs := List.repeat (inject_Z (DIGITAL_MIN)) n);
    [apply reads_float | exact Hloc | apply repeat_length
    | apply Forall_repeat; apply length_fmt_int; apply fits_small; vm_compute; reflexivity
    | apply Forall2_repeat; apply float_fmt_int
    | next ].
  eapply step_for_range
    with (fields := List.repeat (fmt_int 8 (DIGITAL_MAX)) n)
         (vs := List.repeat (inject_Z (DIGITAL_MAX)) n);
    [apply reads_float | exact Hloc | apply repeat_length
    | apply Forall_repeat; apply length_fmt_int; apply fits_small; vm_compute; reflexivity
    | apply Forall2_repeat; apply float_fmt_int
    | next ].
  eapply step_for_range
    with (fields := List.repeat (fmt_bytes 80 "") n) (vs := List.repeat [] n);
    [apply reads_text | exact Hloc | apply repeat_length
    | apply Forall_repeat; reflexivity
    | apply Forall2_repeat; exists (map code (fmt_bytes 80 ""));
      split; vm_compute; reflexivity
    | next ].
  eapply step_for_range
    with (fields := List.repeat (fmt_int 8 (Qtrunc (s_freq data))) n)
         (vs := List.repeat (Qtrunc (s_freq data)) n);
    [apply reads_int | exact Hloc | apply repeat_length
    | apply Forall_repeat; apply length_fmt_int; assumption
    | apply Forall2_repeat; apply int_fmt_int
    | next ].
  eapply step_seek with (skip := concat (List.repeat (List.repeat space 32) n));
    [exact Hloc | rewrite length_concat_repeat, repeat_length; lia | intros _ ].
  unfold Edf.ret, header_of. fold n. f_equal. f_equal. lia.
Qed.

Lemma init_written str_of_float data a file st t pm :
  write_edf str_of_float data a = Ok file ->
  start_time data = Some st -> add_seconds st (time0 data) = Ok t ->
  resolve_physical_max a data = Ok (PyInt pm) ->
  storable t -> header_fits data pm ->
  Edf.__init__ file = Ok (Edf.fresh (header_of data t pm)).
Proof.
  intros Hw Hst Hadd Hres [Hvalid Hyear] (F0 & F1 & F2 & F3 & F4 & F5 & F6).
  destruct (header_read_back _ _ _ _ _ _ _ Hw Hst Hadd Hres Hvalid Hyear
                             F0 F1 F2 F3 F4 F5 F6) as (body & Hread & _).
  unfold Edf.__init__, Edf._read_hdr.
  rewrite (iobind_step _ _ _ _ _ _ Hread), step_tell.
  change (Edf.header_n_bytes (header_of data t pm))
    with (256 + 256 * number_of_chan data).
  rewrite Z.eqb_refl. reflexivity.
Qed.

Lemma length_pack_record l dat i0 i1 rec :
  pack_record l dat i0 i1 = Ok rec -> length rec = (2 * Z.to_nat l)%nat.
Proof.
  unfold pack_record. set (x := concat _).
  destruct (Z.eqb_spec (Z.of_nat (length x)) (Z.max 0 l)) as [E|_];
    [|discriminate].
  intros H. apply ok_inj in H. subst rec.
  change (flat_map pack_h x) with (Examples.samples x).
  rewrite length_samples. lia.
Qed.

Lemma length_body {A} (g : A -> result bytes) w (l : list A) body :
  (forall a rec, g a = Ok rec -> length rec = w) ->
  mapM g l = Ok body -> length (concat body) = (length l * w)%nat.
Proof.
  intros Hg H. apply mapM_inv in H.
  induction H as [|a rec l body Ha _ IH]; [reflexivity|].
  cbn [concat length]. rewrite length_app, IH, (Hg _ _ Ha). reflexivity.
Qed.

Lemma max_repeat s k : Np.max (List.repeat s (S k)) = Ok s.
Proof.
  cbn [List.repeat Np.max]. f_equal.
  induction k as [|k IH]; [reflexivity|].
  cbn [List.repeat fold_left]. rewrite Z.max_id. exact IH.
Qed.

Lemma zip_with_repeat {A B C} (f : A -> B -> C) a b n :
  Np.zip_with f (List.repeat a n) (List.repeat b n) = List.repeat (f a b) n.
Proof.
  unfold Np.zip_with. induction n as [|n IH]; [reflexivity|].
  cbn [List.repeat combine map]. f_equal. exact IH.
Qed.

Lemma all_positive_repeat q n :
  (0 < q)%Q -> Edf.all_positive (List.repeat q n) = true.
Proof.
  intros Hq. unfold Edf.all_positive. apply forallb_forall. intros x Hx.
  apply repeat_spec in Hx. subst x.
  destruct (Qle_bool q 0) eqn:E; [|reflexivity].
  apply Qle_bool_iff in E. exfalso. apply (Qlt_not_le _ _ Hq E).
Qed.


(** X12.  A file written by [write_edf] with an integer physical
    maximum opens, and the header read back is the one that was written:
    the start time (shifted by the first time point), [header_n_bytes =
    256 + 256 * n_channels], the number of records, a record length of 1,
    the labels, the physical range [-physical_max, physical_max], the
    digital range [-32767, 32767] and the sampling frequency as the
    number of samples per record of every channel.  This holds when the
    start time is a date between 1985 and 2084 and every field fits its
    columns. *)
Theorem X12_header_round_trip
        (str_of_float : Q -> bytes) (data : ChanTime) (a : arg) (file : bytes)
        (st t : datetime) (pm : Z) :
  write_edf str_of_float data a = Ok file ->
  start_time data = Some st -> add_seconds st (time0 data) = Ok t ->
  resolve_physical_max a data = Ok (PyInt pm) ->
  storable t -> header_fits data pm ->
  Edf.__init__ file = Ok (Edf.fresh (header_of data t pm)).
Proof.
  intros Hw Hst Hadd Hres [Hvalid Hyear] (F0 & F1 & F2 & F3 & F4 & F5 & F6).
  destruct (header_read_back _ _ _ _ _ _ _ Hw Hst Hadd Hres Hvalid Hyear
                             F0 F1 F2 F3 F4 F5 F6) as (body & Hread & _).
  unfold Edf.__init__, Edf._read_hdr.
  rewrite (iobind_step _ _ _ _ _ _ Hread), step_tell.
  change (Edf.header_n_bytes (header_of data t pm))
    with (256 + 256 * number_of_chan data).
  rewrite Z.eqb_refl. reflexivity.
Qed.

Lemma X12_header_round_trip_witness :
  exists file,
    write_edf Examples.no_float Examples.two_seconds Omitted = Ok file
    /\ Edf.__init__ file
       = Ok (Edf.fresh (header_of Examples.two_seconds
                                  (mk_datetime 2020 1 1 0 0 0) 1000)).
Proof.
  eexists.
  match goal with
  | |- ?w = Ok ?f /\ _ => assert (H : w = Ok f) by (vm_compute; reflexivity)
  end.
  split; [exact H|].
  apply (X12_header_round_trip _ _ _ _ (mk_datetime 2020 1 1 0 0 0) _ _ H);
    [ reflexivity | vm_compute; reflexivity | reflexivity
    | split; [vm_compute; reflexivity | cbn; lia]
    | repeat split; try (apply fits_small; vm_compute; reflexivity);
      constructor; [cbn; lia | constructor] ].
Defined.

(** X13.  What [return_hdr] reports for a file written by [write_edf]
    from data with at least one channel and a positive integer physical
    maximum: the sampling frequency is [int(data.s_freq)], and the number
    of samples is the number written less the remainder of its division
    by the sampling frequency, the samples after the last whole record
    not being written. *)
Theorem X13_written_file_summary
        (str_of_float : Q -> bytes) (data : ChanTime) (a : arg) (file : bytes)
        (st t : datetime) (pm : Z) :
  write_edf str_of_float data a = Ok file ->
  start_time data = Some st -> add_seconds st (time0 data) = Ok t ->
  resolve_physical_max a data = Ok (PyInt pm) ->
  storable t -> header_fits data pm ->
  chan data <> [] -> 0 < pm ->
  let n_smp := Z.of_nat (Np.ncols (data0 data)) in
  let s := Qtrunc (s_freq data) in
  exists self sf,
    Edf.__init__ file = Ok self
    /\ fst (Edf.return_hdr self)
       = Ok (text "X X X X", t, sf,
             map (fun c => Text.strip (ljust 16 32 c)) (chan data),
             n_smp - n_smp mod s, header_of data t pm)
    /\ (sf == inject_Z s)%Q
    /\ s <> 0.
Proof.
  intros Hw Hst Hadd Hres Ht Hfits Hchan Hpm. cbv zeta.
  pose proof (init_written _ _ _ _ _ _ _ Hw Hst Hadd Hres Ht Hfits) as Hinit.
  assert (Hs : Qtrunc (s_freq data) <> 0).
  { unfold write_edf in Hw.
    repeat (apply bind_ok in Hw; destruct Hw as (? & ? & Hw)).
    destruct (Z.eqb_spec (Qtrunc (s_freq data)) 0); [discriminate | assumption]. }
  eexists. exists (inject_Z (Qtrunc (s_freq data)) / inject_Z 1)%Q.
  split; [exact Hinit|]. split; [|split; [field | exact Hs]].
  pose proof (return_hdr_cases (Edf.fresh (header_of data t pm))) as H.
  cbv zeta in H.
  change (Edf.hdr (Edf.fresh (header_of data t pm))) with (header_of data t pm)
    in H.
  unfold header_of in H at 1 2 3 4 5. cbn [Edf.n_samples_per_record
    Edf.physical_max Edf.physical_min Edf.digital_max Edf.digital_min] in H.
  destruct (chan data) as [|c0 cs] eqn:Ec; [contradiction|].
  cbn [length] in H. rewrite max_repeat in H.
  rewrite !zip_with_repeat in H.
  rewrite !all_positive_repeat in H.
  - cbn [andb] in H. destruct H as (r & -> & ->). cbn [fst].
    unfold header_of at 1 2 3 4 5.
    cbn [Edf.subject_id Edf.start_time Edf.record_length Edf.label
         Edf.n_records].
    rewrite Ec.
    pose proof (Z.div_mod (Z.of_nat (Np.ncols (data0 data)))
                          (Qtrunc (s_freq data)) Hs) as Hdm.
    replace (Z.of_nat (Np.ncols (data0 data))
             - Z.of_nat (Np.ncols (data0 data)) mod Qtrunc (s_freq data))
      with (Qtrunc (s_freq data)
            * (Z.of_nat (Np.ncols (data0 data)) / Qtrunc (s_freq data)))
      by lia.
    reflexivity.
  - vm_compute. reflexivity.
  - unfold Qlt, Qminus, Qplus, Qopp, inject_Z. cbn [Qnum Qden]. lia.
Qed.

Lemma X13_written_file_summary_witness :
  exists file,
    write_edf Examples.no_float Examples.two_seconds Omitted = Ok file
    /\ exists self sf,
         Edf.__init__ file = Ok self
         /\ fst (Edf.return_hdr self)
            = Ok (text "X X X X", mk_datetime 2020 1 1 0 0 0, sf,
                  [[67]], 2 - 2 mod 1,
                  header_of Examples.two_seconds
                            (mk_datetime 2020 1 1 0 0 0) 1000)
         /\ (sf == inject_Z 1)%Q /\ 1 <> 0.
Proof.
  eexists.
  match goal with
  | |- ?w = Ok ?f /\ _ => assert (H : w = Ok f) by (vm_compute; reflexivity)
  end.
  split; [exact H|].
  apply (X13_written_file_summary _ _ _ _ (mk_datetime 2020 1 1 0 0 0) _ _ H);
    [ reflexivity | vm_compute; reflexivity | reflexivity
    | split; [vm_compute; reflexivity | cbn; lia]
    | repeat split; try (apply fits_small; vm_compute; reflexivity);
      constructor; [cbn; lia | constructor]
    | discriminate | lia ].
Defined.

(** X14.  The size of the file written by [write_edf]: a header of
    [256 + 256 * n_channels] bytes, then one record of
    [2 * s_freq * n_channels] bytes for each of the [n_smp // s_freq]
    whole records. *)
Theorem X14_file_size
        (str_of_float : Q -> bytes) (data : ChanTime) (a : arg) (file : bytes)
        (st t : datetime) (pm : Z) :
  write_edf str_of_float data a = Ok file ->
  start_time data = Some st -> add_seconds st (time0 data) = Ok t ->
  resolve_physical_max a data = Ok (PyInt pm) ->
  storable t -> header_fits data pm ->
  0 < Qtrunc (s_freq data) ->
  let n := number_of_chan data in
  let s := Qtrunc (s_freq data) in
  Z.of_nat (length file)
  = 256 + 256 * n + 2 * (s * n) * (Z.of_nat (Np.ncols (data0 data)) / s).
Proof.
  intros Hw Hst Hadd Hres [Hvalid Hyear] (F0 & F1 & F2 & F3 & F4 & F5 & F6) Hs.
  cbv zeta.
  destruct (header_read_back _ _ _ _ _ _ _ Hw Hst Hadd Hres Hvalid Hyear
                             F0 F1 F2 F3 F4 F5 F6)
    as (body & _ & (pre & -> & Hpre) & Hbody).
  apply (length_body _ (2 * Z.to_nat (Qtrunc (s_freq data) * number_of_chan data)))
    in Hbody; [|intros i rec; apply length_pack_record].
  rewrite length_app, Hbody, length_seq.
  assert (0 <= number_of_chan data) by (unfold number_of_chan; lia).
  assert (0 <= Z.of_nat (Np.ncols (data0 data)) / Qtrunc (s_freq data))
    by (apply Z.div_pos; lia).
  nia.
Qed.

Lemma X14_file_size_witness :
  exists file,
    write_edf Examples.no_float Examples.two_seconds Omitted = Ok file
    /\ Z.of_nat (length file) = 256 + 256 * 1 + 2 * (1 * 1) * (2 / 1).
Proof.
  eexists.
  match goal with
  | |- ?w = Ok ?f /\ _ => assert (H : w = Ok f) by (vm_compute; reflexivity)
  end.
  split; [exact H|].
  apply (X14_file_size _ _ _ _ (mk_datetime 2020 1 1 0 0 0)
                       (mk_datetime 2020 1 1 0 0 0) 1000 H);
    [ reflexivity | vm_compute; reflexivity | reflexivity
    | split; [vm_compute; reflexivity | cbn; lia]
    | repeat split; try (apply fits_small; vm_compute; reflexivity);
      constructor; [cbn; lia | constructor]
    | vm_compute; reflexivity ].
Defined.

(** ** The first record of the first channel, written and read back *)







